(** * Phonon force-constant pipeline of atomate2 (pheasy fork)

    Shallow embedding of [src/atomate2/common/schemas/phonons.py]:
    [get_factor], [PhononBSDOSDoc.get_kpath] and
    [PhononBSDOSDoc.from_forces_born].

    The Python method is one long sequential body that talks to the file
    system, to an external solver ([pheasy], through [subprocess.call]) and
    to numerical libraries (phonopy, pymatgen, hiphive, ase).  It is modelled
    as a program in a state-and-exception monad over a [World] made of the
    working directory (a finite map from file names to artifacts) and the
    chronological log of the side effects performed.  The library routines
    are the fields of an environment record [Env]; every statement below is
    proved for an arbitrary environment unless it is a closed example.

    Python floats are IEEE binary64 values ([PrimFloat.float]); Python
    integers are [Z]. *)

From Stdlib Require Import PrimFloat ZArith List Bool Lia.
From stdpp Require Import base option list gmap strings pretty.

Local Open Scope string_scope.
Local Open Scope Z_scope.

(** ** Numerical data *)

(** One row of an [(N, 3)] numpy array. *)
Definition vec3 : Type := float * float * float.

(** An [(N, 3)] array: positions, displacements or forces of N atoms. *)
Definition matrix : Type := list vec3.

(** [emmet.core.math.Matrix3D]. *)
Definition Matrix3D : Type := vec3 * vec3 * vec3.

(** The integer 3x3 supercell matrix. *)
Definition smatrix : Type := (Z * Z * Z) * (Z * Z * Z) * (Z * Z * Z).

(** The [(n, n, 3, 3)] force-constant array. *)
Definition fc_array : Type := list (list Matrix3D).

Definition qpoint : Type := vec3.

Definition vmap (f : float → float) (v : vec3) : vec3 :=
  let '(x, y, z) := v in (f x, f y, f z).

Definition vsub (a b : vec3) : vec3 :=
  let '(ax, ay, az) := a in
  let '(bx, by_, bz) := b in
  (PrimFloat.sub ax bx, PrimFloat.sub ay by_, PrimFloat.sub az bz).

Definition vec3_list (v : vec3) : list float :=
  let '(x, y, z) := v in [x; y; z].

Definition Matrix3D_list (m : Matrix3D) : list float :=
  let '(r0, r1, r2) := m in vec3_list r0 ++ vec3_list r1 ++ vec3_list r2.

(** [np.isclose(x, 0.0)] with numpy's defaults [rtol=1e-05], [atol=1e-08]:
    [|x - 0.0| <= atol + rtol * |0.0|]; false on NaN and on infinities. *)
Definition isclose0 (x : float) : bool :=
  PrimFloat.leb (PrimFloat.abs (PrimFloat.sub x 0%float))
                (PrimFloat.add 0x1.5798ee2308c3ap-27%float
                   (PrimFloat.mul 0x1.4f8b588e368f1p-17%float (PrimFloat.abs 0%float))).

(** ** Exceptions *)

Inductive exn : Type :=
| ValueError (msg : string)
| KeyError (key : string)
| IndexError (msg : string)
| ZeroDivisionError
| FileNotFoundError (filename : string)
| ParseError (filename : string).

Definition Res (A : Type) : Type := exn + A.

Definition res_bind {A B} (f : A → Res B) (r : Res A) : Res B :=
  match r with
  | inl e => inl e
  | inr a => f a
  end.

#[global] Instance Res_ret : MRet Res := λ A a, inr a.
#[global] Instance Res_bind : MBind Res := @res_bind.

Fixpoint res_mapM {A B} (f : A → Res B) (l : list A) : Res (list B) :=
  match l with
  | [] => inr []
  | x :: l' =>
      match f x with
      | inl e => inl e
      | inr y =>
          match res_mapM f l' with
          | inl e => inl e
          | inr ys => inr (y :: ys)
          end
      end
  end.

(** ** Objects of the libraries *)

(** [phonopy.structure.atoms.PhonopyAtoms], also used for the [ase.Atoms]
    read back from POSCAR files: the fields the code touches. *)
Record PhonopyAtoms : Type := mkAtoms {
  positions : matrix;
  magnetic_moments : option (list float)
}.

(** [pymatgen.core.Structure]: [len(structure)] is the number of rows of
    [cart_coords]; the two atom counts are those of [composition] and of
    [composition.reduced_composition]. *)
Record Structure : Type := mkStructure {
  cart_coords : matrix;
  num_atoms : float;
  reduced_num_atoms : float
}.

(** [primitive_matrix] is either [np.eye(3)] or the string ["auto"]. *)
Inductive primitive_spec : Type := PrimEye | PrimAuto.

Record NacParams : Type := mkNac {
  nac_born : list Matrix3D;
  nac_dielectric : Matrix3D;
  nac_factor : float
}.

(** The mutable [Phonopy] object. *)
Record Phonopy : Type := mkPhonopy {
  unitcell : PhonopyAtoms;
  ph_supercell_matrix : smatrix;
  ph_primitive_matrix : primitive_spec;
  ph_factor : float;
  ph_symprec : float;
  ph_is_symmetry : bool;
  displacements : list matrix;
  nac_params : option NacParams;
  force_constants : option fc_array
}.

Definition set_displacements (d : list matrix) (p : Phonopy) : Phonopy :=
  mkPhonopy (unitcell p) (ph_supercell_matrix p) (ph_primitive_matrix p)
    (ph_factor p) (ph_symprec p) (ph_is_symmetry p) d (nac_params p)
    (force_constants p).

Definition set_nac_params (n : NacParams) (p : Phonopy) : Phonopy :=
  mkPhonopy (unitcell p) (ph_supercell_matrix p) (ph_primitive_matrix p)
    (ph_factor p) (ph_symprec p) (ph_is_symmetry p) (displacements p) (Some n)
    (force_constants p).

Definition set_force_constants (fc : fc_array) (p : Phonopy) : Phonopy :=
  mkPhonopy (unitcell p) (ph_supercell_matrix p) (ph_primitive_matrix p)
    (ph_factor p) (ph_symprec p) (ph_is_symmetry p) (displacements p)
    (nac_params p) (Some fc).

(** The dictionary returned by [HighSymmKpath.kpath] / [KPathSeek._kpath]. *)
Record KPath : Type := mkKPath {
  kp_kpoints : gmap string qpoint;
  kp_path : list (list string)
}.

(** [hiphive.ClusterSpace(prim, cutoffs)]. *)
Record ClusterSpace : Type := mkClusterSpace {
  cs_prim : PhonopyAtoms;
  cs_cutoffs : list float
}.

(** [pymatgen.phonon.dos.PhononDos]. *)
Record PhononDos : Type := mkDos {
  dos_frequencies : list float;
  dos_densities : list float
}.

(** [pymatgen.phonon.bandstructure.PhononBandStructureSymmLine]: the
    frequencies of every q-point ([bands]), the labels and the NAC flag. *)
Record PhononBandStructureSymmLine : Type := mkBS {
  bands : list (list float);
  bs_labels : gmap string qpoint;
  bs_has_nac : bool
}.

(** Modelled from the spec: [PhononBandStructureSymmLine.has_imaginary_freq]
    belongs to pymatgen and is not part of the sources; section 4.4 says the
    flag is true if any branch value is below minus the tolerance. *)
Definition has_imaginary_freq (bs : PhononBandStructureSymmLine) (tol : float) : bool :=
  existsb (existsb (λ f, PrimFloat.ltb f (PrimFloat.opp tol))) (bands bs).

(** ** The working directory and the log of side effects *)

Inductive artifact : Type :=
| AStructure (a : PhonopyAtoms)            (* POSCAR format *)
| APickle (m : list matrix)                (* pickled numpy array *)
| AForceConstants (fc : fc_array)          (* phonopy FORCE_CONSTANTS text *)
| APhonopyYaml (p : Phonopy)               (* phonon.save *)
| ABandYaml (freqs : list (list float))    (* write_yaml_band_structure *)
| ADosYaml (d : PhononDos)                 (* write_total_dos *)
| AFigure                                  (* a saved plot *)
| AWebsiteJson
| ACif
| AOther (raw : string).                   (* anything else *)

(** A word of a solver command line: a literal word, or a formatted
    integer such as the arguments of [--dim] and [--ndata]. *)
Inductive word : Type :=
| W (s : string)
| Num (z : Z).

#[global] Instance word_eq_dec : EqDecision word.
Proof. solve_decision. Defined.

(** A solver command line. *)
Definition pheasy_command : Type := list word.

Inductive event : Type :=
| EvPhonopy (p : Phonopy)                  (* Phonopy(...) constructed *)
| EvWrite (filename : string)              (* a data file written by this process *)
| EvSavePlot (filename : string)           (* a figure saved under a caller-chosen name *)
| EvSubprocess (cmd : pheasy_command) (exit_status : Z)
| EvRunBandStructure (p : Phonopy) (with_eigenvectors is_band_connection : bool)
| EvRunMesh (p : Phonopy) (mesh : Z * Z * Z) (with_eigenvectors is_mesh_symmetry : bool)
| EvRunTotalDos
| EvRunThermalDisplacements (t_min t_max t_step : Z) (freq_min : float).

Record World : Type := mkWorld {
  fs : gmap string artifact;
  log : list event
}.

(** ** The monad of the pipeline *)

Definition M (A : Type) : Type := World → Res A * World.

Definition M_ret_def {A} (a : A) : M A := λ w, (inr a, w).

Definition M_bind_def {A B} (f : A → M B) (m : M A) : M B :=
  λ w, match m w with
       | (inl e, w') => (inl e, w')
       | (inr a, w') => f a w'
       end.

#[global] Instance M_ret : MRet M := @M_ret_def.
#[global] Instance M_bind : MBind M := @M_bind_def.

Definition raise {A} (e : exn) : M A := λ w, (inl e, w).

Definition lift {A} (r : Res A) : M A := λ w, (r, w).

Definition emit (e : event) : M unit :=
  λ w, (inr tt, mkWorld (fs w) (log w ++ [e])).

Definition write_file (filename : string) (a : artifact) : M unit :=
  λ w, (inr tt, mkWorld (<[filename := a]> (fs w)) (log w ++ [EvWrite filename])).

Definition save_plot (filename : string) : M unit :=
  λ w, (inr tt, mkWorld (<[filename := AFigure]> (fs w)) (log w ++ [EvSavePlot filename])).

Definition read_file (filename : string) : M artifact :=
  λ w, match fs w !! filename with
       | Some a => (inr a, w)
       | None => (inl (FileNotFoundError filename), w)
       end.

(** ** The caller's inputs *)

(** [displacement_data]: the keys the code reads. *)
Record DisplacementData : Type := mkDisplacementData {
  forces : list matrix;
  displaced_structures : list Structure;
  dirs : list (option string);
  uuids : list string
}.

(** [**kwargs].  A key read with [kwargs.get] is optional; a key read with
    [kwargs[...]] raises [KeyError] when it is absent. *)
Record Kwargs : Type := mkKwargs {
  kw_symmetrize_born : option bool;
  kw_npoints_band : option Z;
  kw_band_structure_eigenvectors : option bool;
  kw_filename_bs : option string;
  kw_units : option string;
  kw_tol_imaginary_modes : option float;
  kw_kpoint_density_dos : option Z;
  kw_filename_dos : option string;
  kw_tmin : option Z;
  kw_tmax : option Z;
  kw_tstep : option Z;
  kw_create_thermal_displacements : option bool;
  kw_freq_min_thermal_displacements : option float;
  kw_tmin_thermal_displacements : option Z;
  kw_tmax_thermal_displacements : option Z;
  kw_tstep_thermal_displacements : option Z;
  kw_store_force_constants : option bool;
  kw_static_run_job_dir : option (option string);
  kw_born_run_job_dir : option (option string);
  kw_optimization_run_job_dir : option (option string);
  kw_born_run_uuid : option (option string);
  kw_optimization_run_uuid : option (option string);
  kw_static_run_uuid : option (option string)
}.

(** [kwargs[key]]. *)
Definition kwargs_item {A} (key : string) (v : option A) : Res A :=
  match v with
  | Some a => inr a
  | None => inl (KeyError key)
  end.

(** The parameters of [from_forces_born]. *)
Record Inputs : Type := mkInputs {
  structure : Structure;
  supercell_matrix : smatrix;
  displacement : float;
  sym_reduce : bool;
  symprec : float;
  use_symmetrized_structure : option string;
  kpath_scheme : string;
  code : string;
  mp_id : string;
  displacement_data : DisplacementData;
  total_dft_energy : option float;
  epsilon_static : option Matrix3D;
  born : option (list Matrix3D);
  kwargs : Kwargs
}.

(** ** The result document *)

Record PhononComputationalSettings : Type := mkSettings {
  npoints_band : Z;
  settings_kpath_scheme : string;
  kpoint_density_dos : Z
}.

Record ThermalDisplacementData : Type := mkThermalDisplacementData {
  freq_min_thermal_displacements : float;
  thermal_displacement_matrix_cif : list (list Matrix3D);
  thermal_displacement_matrix : list (list Matrix3D);
  temperatures_thermal_displacements : list Z
}.

Record PhononJobDirs : Type := mkJobDirs {
  displacements_job_dirs : list (option string);
  static_run_job_dir : option string;
  born_run_job_dir : option string;
  optimization_run_job_dir : option string
}.

Record PhononUUIDs : Type := mkUUIDs {
  displacements_uuids : list string;
  born_run_uuid : option string;
  optimization_run_uuid : option string;
  static_run_uuid : option string
}.

Record PhononBSDOSDoc : Type := mkDoc {
  doc_structure : Structure;
  phonon_bandstructure : PhononBandStructureSymmLine;
  phonon_dos : PhononDos;
  free_energies : list float;
  internal_energies : list float;
  heat_capacities : list float;
  entropies : list float;
  temperatures : list Z;
  doc_total_dft_energy : option float;
  has_imaginary_modes : bool;
  doc_force_constants : option fc_array;
  doc_born : option (list Matrix3D);
  doc_epsilon_static : option Matrix3D;
  doc_supercell_matrix : smatrix;
  doc_primitive_matrix : Matrix3D;
  doc_code : string;
  doc_mp_id : string;
  thermal_displacement_data : option ThermalDisplacementData;
  jobdirs : PhononJobDirs;
  doc_uuids : PhononUUIDs;
  phonopy_settings : PhononComputationalSettings
}.

(** The temperature grid and the four index-aligned arrays. *)
Record ThermodynamicSeries : Type := mkSeries {
  ts_temperatures : list Z;
  ts_free_energies : list float;
  ts_entropies : list float;
  ts_internal_energies : list float;
  ts_heat_capacities : list float
}.

(** The q-point path of the band structure. *)
Record BandPath : Type := mkBandPath {
  kpath_dict : gmap string qpoint;
  qpoints : list (list qpoint);
  connections : list bool
}.

(** ** The environment: library routines and the external solver *)

Record Env : Type := mkEnv {
  (* phonopy.units.VaspToTHz and atomate2.aims.utils.units.omegaToTHz *)
  VaspToTHz : float;
  omegaToTHz : float;
  (* pymatgen.io.phonopy *)
  get_phonopy_structure : Structure → PhonopyAtoms;
  get_pmg_structure : PhonopyAtoms → Structure;
  (* phonopy: cells derived from the unit cell *)
  phonopy_supercell : PhonopyAtoms → smatrix → PhonopyAtoms;
  phonopy_primitive : PhonopyAtoms → smatrix → primitive_spec → float → PhonopyAtoms;
  phonopy_primitive_matrix : PhonopyAtoms → primitive_spec → float → Matrix3D;
  (* phonon.generate_displacements(distance); phonon.displacements *)
  generate_displacements : Phonopy → float → list matrix;
  (* np.round(x, decimals=16) *)
  np_round16 : float → float;
  symmetrize_borns_and_epsilon :
    Phonopy → list Matrix3D → Matrix3D → float → bool → list Matrix3D * Matrix3D;
  (* a [pheasy] process: exit status and working directory it leaves *)
  shell : pheasy_command → gmap string artifact → Z * gmap string artifact;
  (* phonon.symmetrize_force_constants *)
  symmetrize_force_constants : Phonopy → fc_array → fc_array;
  (* pymatgen.symmetry *)
  HighSymmKpath : Structure → string → float → KPath;
  KPathSeek : Structure → float → KPath;
  get_band_qpoints_and_path_connections :
    list (list qpoint) → Z → list (list qpoint) * list bool;
  (* frequencies obtained by phonon.run_band_structure *)
  band_frequencies :
    Phonopy → list (list qpoint) → list bool → bool → bool → list (list float);
  (* hiphive; each routine either raises or returns.  [cluster_space_check]
     stands for the checks of the constructor [ClusterSpace(prim, cutoffs)],
     [ForceConstants_from_arrays] for [ForceConstants.from_arrays(supercell,
     fc2_array)], [fcp_get_force_constants cs parameters supercell] for
     [ForceConstantPotential(cs, parameters).get_force_constants(supercell)] *)
  estimate_maximum_cutoff : PhonopyAtoms → Res float;
  cluster_space_check : PhonopyAtoms → list float → Res unit;
  ForceConstants_from_arrays : PhonopyAtoms → fc_array → Res fc_array;
  extract_parameters : fc_array → ClusterSpace → Res (list float);
  enforce_rotational_sum_rules :
    ClusterSpace → list float → list string → float → Res (list float);
  fcp_get_force_constants : ClusterSpace → list float → PhonopyAtoms → Res fc_array;
  (* Kpoints.automatic_density(...).kpts[0] *)
  automatic_density : Structure → Z → Z * Z * Z;
  (* phonon.run_mesh; phonon.run_total_dos *)
  total_dos : Phonopy → Z * Z * Z → PhononDos;
  (* PhononDos thermodynamics *)
  helmholtz_free_energy : PhononDos → Z → Structure → float;
  entropy : PhononDos → Z → Structure → float;
  internal_energy : PhononDos → Z → Structure → float;
  cv : PhononDos → Z → Structure → float;
  (* phonon.run_thermal_displacement_matrices: cartesian and CIF forms *)
  thermal_displacement_matrices :
    Phonopy → Z * Z * Z → Z → Z → Z → float → list (list Matrix3D) * list (list Matrix3D)
}.

(** ** numpy helpers *)

Definition inhomogeneous_msg : string :=
  "setting an array element with a sequence: inhomogeneous shape".

Definition broadcast_msg : string := "operands could not be broadcast together".

Definition index_msg : string := "too many indices for array".

(** [np.array] of a list of [(N, 3)] samples: the samples must agree on N. *)
Definition np_array (samples : list matrix) : Res (list matrix) :=
  match samples with
  | [] => inr []
  | s :: rest =>
      if forallb (λ t, Nat.eqb (length t) (length s)) rest
      then inr samples
      else inl (ValueError inhomogeneous_msg)
  end.

(** [a - b] for an [(N, 3)] and an [(N', 3)] array, with numpy broadcasting
    of the first axis. *)
Definition rows_sub (a b : matrix) : Res matrix :=
  if Nat.eqb (length a) (length b) then inr (zip_with vsub a b)
  else match a, b with
       | _, [y] => inr (map (λ x, vsub x y) a)
       | [x], _ => inr (map (λ y, vsub x y) b)
       | _, _ => inl (ValueError broadcast_msg)
       end.

(** [arr[-1, :, :]] on the array built from [samples]: needs three axes. *)
Definition last_sample (samples : list matrix) : Res matrix :=
  match last samples with
  | None => inl (IndexError index_msg)
  | Some [] => inl (IndexError index_msg)
  | Some s => inr s
  end.

(** [np.arange(start, stop, step)] on integers. *)
Definition np_arange (start stop step : Z) : Res (list Z) :=
  if step =? 0 then inl ZeroDivisionError
  else inr (map (λ k : nat, start + Z.of_nat k * step)
              (seq 0 (Z.to_nat (- ((- (stop - start)) `div` step))))).

(** Float constants of the source (decimal literals rounded to binary64). *)
Definition f_0_01 : float := 0x1.47ae147ae147bp-7%float.        (* 0.01 *)
Definition f_1e_5 : float := 0x1.4f8b588e368f1p-17%float.       (* 1e-5 *)
Definition f_1e_6 : float := 0x1.0c6f7a0b5ed8dp-20%float.       (* 1e-6 *)
Definition f_nac_factor : float := 0x1.ccc9f2fdb8fdep+3%float.  (* 14.399652 *)

Definition born_mismatch_msg : string :=
  "Number of born charges does not agree with number of atoms".

Definition magnetic_msg : string :=
  "For materials with magnetic moments, use_symmetrized_structure must be 'primitive'".

Definition kpath_msg (kpath_scheme : string) : string :=
  "Unexpected kpath_scheme='" ++ kpath_scheme ++ "'".

Definition factor_msg (code : string) : string :=
  "Frequency conversion factor for code (" ++ code ++ ") not defined.".

Section Pipeline.

Context (E : Env).

(** ** [get_factor] (lines 48-71) *)
Definition get_factor (code : string) : Res float :=
  if decide (code ∈ ["forcefields"; "vasp"]) then inr (VaspToTHz E)
  else if decide (code = "aims") then inr (omegaToTHz E)
  else inl (ValueError (factor_msg code)).

(** ** [PhononBSDOSDoc.get_kpath] (lines 782-814); [from_forces_born] passes
    no [kpath_kwargs]. *)
Definition get_kpath (structure : Structure) (kpath_scheme : string) (symprec : float)
  : Res (gmap string qpoint * list (list qpoint)) :=
  kpath ← (if decide (kpath_scheme ∈ ["setyawan_curtarolo"; "latimer_munro"; "hinuma"])
           then inr (HighSymmKpath E structure kpath_scheme symprec)
           else if decide (kpath_scheme = "seekpath")
           then inr (KPathSeek E structure symprec)
           else inl (ValueError (kpath_msg kpath_scheme)) : Res KPath);
  path ← res_mapM
            (res_mapM (λ label,
               match kp_kpoints kpath !! label with
               | Some q => inr q
               | None => inl (KeyError label)
               end))
            (kp_path kpath);
  mret (kp_kpoints kpath, path).

(** ** [from_forces_born], lines 284-311: conversion factor, magnetic
    moments, construction of the [Phonopy] object.  The comparison of
    [np.eye(3)] with the string ["auto"] counts as false. *)
Definition check_magnetic_moments (cell : PhonopyAtoms) (primitive_matrix : primitive_spec)
  : Res PhonopyAtoms :=
  match magnetic_moments cell, primitive_matrix with
  | Some moments, PrimAuto =>
      if existsb (λ m, negb (PrimFloat.eqb m 0%float)) moments
      then inl (ValueError magnetic_msg)
      else inr (mkAtoms (positions cell) None)
  | _, _ => inr cell
  end.

Definition primitive_matrix_of (i : Inputs) : primitive_spec :=
  if decide (use_symmetrized_structure i = Some "primitive") then PrimEye else PrimAuto.

Definition make_phonopy (i : Inputs) : M (Phonopy * PhonopyAtoms) :=
  factor ← lift (get_factor (code i));
  let cell := get_phonopy_structure E (structure i) in
  let primitive_matrix := primitive_matrix_of i in
  cell ← lift (check_magnetic_moments cell primitive_matrix);
  let phonon :=
    mkPhonopy cell (supercell_matrix i) primitive_matrix factor (symprec i)
      (sym_reduce i) [] None None in
  emit (EvPhonopy phonon);;
  mret (phonon, cell).

(** ** Lines 321-358: the displacement/force dataset.  [f_disp_n1] is the
    number of displacements of the nominal scheme, [ref_positions] are
    [supercell.get_positions()].  Returns [(set_of_disps_m, set_of_forces_a)]. *)
Definition accumulate (f_disp_n1 : nat) (ref_positions : matrix) (d : DisplacementData)
  : Res (list matrix * list matrix) :=
  if (f_disp_n1 <? 1)%nat then
    set_of_forces_a ← np_array (forces d);
    set_of_disps_m ← np_array (map cart_coords (displaced_structures d));
    mret (set_of_disps_m, set_of_forces_a)
  else
    set_of_forces_a_o ← np_array (forces d);
    baseline ← last_sample set_of_forces_a_o;
    let set_of_forces_a_t := map (λ s, zip_with vsub s baseline) set_of_forces_a_o in
    let set_of_forces_a := removelast set_of_forces_a_t in
    set_of_disps ← np_array (map cart_coords (displaced_structures d));
    diffs ← (match set_of_disps with
             | [] => inl (ValueError broadcast_msg)
             | _ => res_mapM (λ s, rows_sub s ref_positions) set_of_disps
             end : Res (list matrix));
    let set_of_disps_m_o := map (map (vmap (np_round16 E))) diffs in
    let set_of_disps_m := removelast set_of_disps_m_o in
    mret (set_of_disps_m, set_of_forces_a).

(** Lines 317-416: structure files, dataset, pickles.  [Calc_anharmonic_FCs]
    is the constant [False], so [num_har] is [n_shape]; writes to standard
    output are not part of the model. *)
Definition accumulate_dataset (i : Inputs) (phonon : Phonopy) (cell : PhonopyAtoms)
  : M (Phonopy * nat) :=
  let supercell := phonopy_supercell E (unitcell phonon) (ph_supercell_matrix phonon) in
  write_file "POSCAR" (AStructure cell);;
  write_file "SPOSCAR" (AStructure supercell);;
  let phonon := set_displacements (generate_displacements E phonon (displacement i)) phonon in
  let f_disp_n1 := length (displacements phonon) in
  '(set_of_disps_m, set_of_forces_a) ←
    lift (accumulate f_disp_n1 (positions supercell) (displacement_data i));
  let n_shape := length set_of_disps_m in
  write_file "disp_matrix.pkl" (APickle set_of_disps_m);;
  write_file "force_matrix.pkl" (APickle set_of_forces_a);;
  mret (phonon, n_shape).

(** ** Lines 421-445: Born charges and the non-analytic correction. *)
Definition attach_born (i : Inputs) (phonon : Phonopy)
  : Res (Phonopy * option (list Matrix3D) * option Matrix3D) :=
  match born i, epsilon_static i with
  | Some born_, Some epsilon_static_ =>
      if Nat.eqb (length (cart_coords (structure i))) (length born_) then
        let '(borns, epsilon) :=
          symmetrize_borns_and_epsilon E phonon born_ epsilon_static_ (symprec i)
            (default true (kw_symmetrize_born (kwargs i))) in
        let phonon :=
          if decide (code i = "vasp")
          then if forallb isclose0 (concat (map Matrix3D_list borns))
               then phonon
               else set_nac_params (mkNac borns epsilon f_nac_factor) phonon
          else phonon in
        inr (phonon, Some borns, Some epsilon)
      else inl (ValueError born_mismatch_msg)
  | _, _ => inr (phonon, None, None)
  end.

(** ** Files and processes *)

(** [subprocess.call(cmd, shell=True)]: runs the command, returns its exit
    status; never raises on a nonzero status. *)
Definition subprocess_call (cmd : pheasy_command) : M Z :=
  λ w, (inr (fst (shell E cmd (fs w))),
        mkWorld (snd (shell E cmd (fs w)))
          (log w ++ [EvSubprocess cmd (fst (shell E cmd (fs w)))])).

(** [ase.io.read] of a POSCAR file. *)
Definition read_structure (filename : string) : M PhonopyAtoms :=
  a ← read_file filename;
  match a with
  | AStructure s => mret s
  | _ => raise (ParseError filename)
  end.

(** [phonopy.file_IO.parse_FORCE_CONSTANTS]. *)
Definition parse_FORCE_CONSTANTS (filename : string) : M fc_array :=
  a ← read_file filename;
  match a with
  | AForceConstants fc => mret fc
  | _ => raise (ParseError filename)
  end.

(** [hiphive.ClusterSpace(prim, cutoffs)]: the constructor raises, or
    returns the cluster space of its two arguments. *)
Definition new_ClusterSpace (prim : PhonopyAtoms) (cutoffs : list float) : Res ClusterSpace :=
  _ ← cluster_space_check E prim cutoffs;
  mret (mkClusterSpace prim cutoffs).

(** [hiphive.ForceConstants.read_phonopy(supercell, filename)]: reads the
    second-order array from the file and builds the force constants of the
    supercell from it. *)
Definition read_phonopy (supercell : PhonopyAtoms) (filename : string) : M fc_array :=
  fc2_array ← parse_FORCE_CONSTANTS filename;
  lift (ForceConstants_from_arrays E supercell fc2_array).

Definition get_ph_bs_symm_line (filename : string) (labels_dict : gmap string qpoint)
    (has_nac : bool) : M PhononBandStructureSymmLine :=
  a ← read_file filename;
  match a with
  | ABandYaml freqs => mret (mkBS freqs labels_dict has_nac)
  | _ => raise (ParseError filename)
  end.

Definition get_ph_dos (filename : string) : M PhononDos :=
  a ← read_file filename;
  match a with
  | ADosYaml d => mret d
  | _ => raise (ParseError filename)
  end.

Fixpoint M_iter {A} (f : A → M unit) (l : list A) : M unit :=
  match l with
  | [] => mret tt
  | x :: l' => f x;; M_iter f l'
  end.

(** Python's [a / b] on floats. *)
Definition py_div (a b : float) : Res float :=
  if PrimFloat.eqb b 0%float then inl ZeroDivisionError else inr (PrimFloat.div a b).

(** [phonon.primitive]. *)
Definition primitive_of (phonon : Phonopy) : PhonopyAtoms :=
  phonopy_primitive E (unitcell phonon) (ph_supercell_matrix phonon)
    (ph_primitive_matrix phonon) (ph_symprec phonon).

(** ** The solver command lines (lines 458-470 and 571-583) *)

(** [pheasy --dim "m[0][0]" "m[1][1]" "m[2][2]" options...]. *)
Definition pheasy (m : smatrix) (options : list word) : pheasy_command :=
  W "pheasy" :: W "--dim" :: Num (fst (fst (fst (fst m)))) :: Num (snd (fst (snd (fst m))))
    :: Num (snd (snd m)) :: options.

Definition pheasy_cmd_1 (m : smatrix) : pheasy_command :=
  pheasy m [W "-s"; W "-w"; W "2"; W "--symprec"; W "1e-3"; W "--nbody"; W "2"].

Definition pheasy_cmd_2 (m : smatrix) : pheasy_command :=
  pheasy m [W "-c"; W "--symprec"; W "1e-3"; W "-w"; W "2"].

Definition pheasy_cmd_3 (m : smatrix) (num_har : nat) : pheasy_command :=
  pheasy m [W "-w"; W "2"; W "-d"; W "--symprec"; W "1e-3"; W "--ndata";
            Num (Z.of_nat num_har); W "--disp_file"].

Definition pheasy_cmd_4 (m : smatrix) (num_har num_judge : nat) : pheasy_command :=
  if (3 <? num_judge)%nat
  then pheasy m [W "-f"; W "--full_ifc"; W "-w"; W "2"; W "--symprec"; W "1e-3"; W "-l";
                 W "LASSO"; W "--std"; W "--rasr"; W "BHH"; W "--ndata";
                 Num (Z.of_nat num_har)]
  else pheasy m [W "-f"; W "--full_ifc"; W "-w"; W "2"; W "--symprec"; W "1e-3";
                 W "--rasr"; W "BHH"; W "--ndata"; Num (Z.of_nat num_har)].

Definition pheasy_cmd_11 (m : smatrix) : pheasy_command :=
  pheasy m [W "-s"; W "-w"; W "2"; W "--c2"; W "10.0"; W "--symprec"; W "1e-3";
            W "--nbody"; W "2"].

Definition pheasy_cmd_12 (m : smatrix) : pheasy_command :=
  pheasy m [W "-c"; W "--symprec"; W "1e-3"; W "--c2"; W "10.0"; W "-w"; W "2"].

Definition pheasy_cmd_13 (m : smatrix) (num_har : nat) : pheasy_command :=
  pheasy m [W "-w"; W "2"; W "-d"; W "--symprec"; W "1e-3"; W "--c2"; W "10.0";
            W "--ndata"; Num (Z.of_nat num_har); W "--disp_file"].

Definition pheasy_cmd_14 (m : smatrix) (num_har num_judge : nat) : pheasy_command :=
  if (3 <? num_judge)%nat
  then pheasy m [W "-f"; W "--c2"; W "10.0"; W "--full_ifc"; W "-w"; W "2"; W "--symprec";
                 W "1e-3"; W "-l"; W "LASSO"; W "--std"; W "--rasr"; W "BHH"; W "--ndata";
                 Num (Z.of_nat num_har)]
  else pheasy m [W "-f"; W "--full_ifc"; W "--c2"; W "10.0"; W "-w"; W "2"; W "--symprec";
                 W "1e-3"; W "--rasr"; W "BHH"; W "--ndata"; Num (Z.of_nat num_har)].

(** ** Lines 454-490: the primary fit.  Returns the phonon object and the
    [prim] and [supercell] read back with ase. *)
Definition primary_fit (i : Inputs) (phonon : Phonopy) (num_har : nat)
  : M (Phonopy * PhonopyAtoms * PhonopyAtoms) :=
  prim ← read_structure "POSCAR";
  supercell ← read_structure "SPOSCAR";
  let phonon := set_displacements (generate_displacements E phonon f_0_01) phonon in
  let num_judge := length (displacements phonon) in
  subprocess_call (pheasy_cmd_1 (supercell_matrix i));;
  subprocess_call (pheasy_cmd_2 (supercell_matrix i));;
  subprocess_call (pheasy_cmd_3 (supercell_matrix i) num_har);;
  subprocess_call (pheasy_cmd_4 (supercell_matrix i) num_har num_judge);;
  force_constants_ ← parse_FORCE_CONSTANTS "FORCE_CONSTANTS";
  let phonon :=
    set_force_constants (symmetrize_force_constants E phonon force_constants_) phonon in
  write_file "phonopy.yaml" (APhonopyYaml phonon);;
  mret (phonon, prim, supercell).

(** ** One band-structure computation: [run_band_structure],
    [write_yaml_band_structure], [get_ph_bs_symm_line], [save_plot]
    (lines 508-522, 552-561 and 616-628). *)
Definition run_band_structure (i : Inputs) (phonon : Phonopy) (p : BandPath)
    (with_eigenvectors is_band_connection : bool) : M PhononBandStructureSymmLine :=
  emit (EvRunBandStructure phonon with_eigenvectors is_band_connection);;
  write_file "phonon_band_structure.yaml"
    (ABandYaml (band_frequencies E phonon (qpoints p) (connections p)
                  with_eigenvectors is_band_connection));;
  bs_symm_line ← get_ph_bs_symm_line "phonon_band_structure.yaml" (kpath_dict p)
                    (bool_decide (born i ≠ None));
  save_plot (default "phonon_band_structure.pdf" (kw_filename_bs (kwargs i)));;
  mret bs_symm_line.

(** Lines 493-502 and 603-612. *)
Definition band_path (i : Inputs) (phonon : Phonopy) : Res BandPath :=
  '(kpath_dict, kpath_concrete) ←
    get_kpath (get_pmg_structure E (primitive_of phonon)) (kpath_scheme i) (symprec i);
  let '(qpoints, connections) :=
    get_band_qpoints_and_path_connections E kpath_concrete
      (default 101 (kw_npoints_band (kwargs i))) in
  mret (mkBandPath kpath_dict qpoints connections).

Definition tol_imaginary_modes (i : Inputs) : float :=
  default f_1e_5 (kw_tol_imaginary_modes (kwargs i)).

(** Lines 493-527: the band structure of the primary fit. *)
Definition initial_bands (i : Inputs) (phonon : Phonopy)
  : M (BandPath * PhononBandStructureSymmLine * bool) :=
  p ← lift (band_path i phonon);
  let eig := default false (kw_band_structure_eigenvectors (kwargs i)) in
  bs_symm_line ← run_band_structure i phonon p eig eig;
  let imaginary_modes := has_imaginary_freq bs_symm_line (tol_imaginary_modes i) in
  mret (p, bs_symm_line, imaginary_modes).

(** ** Lines 530-568: the hiphive pass.  [prim] and [supercell] are the
    cells read back from POSCAR and SPOSCAR (lines 454-455).  An exception
    of a hiphive routine is not caught.  Returns the phonon object, the band
    structure and the variables [imaginary_modes] and
    [imaginary_modes_hiphive]. *)
Definition hiphive_pass (i : Inputs) (phonon : Phonopy) (prim supercell : PhonopyAtoms)
    (p : BandPath) (bs_symm_line : PhononBandStructureSymmLine) (imaginary_modes : bool)
  : M (Phonopy * PhononBandStructureSymmLine * bool * bool) :=
  if imaginary_modes then
    maximum_cutoff ← lift (estimate_maximum_cutoff E supercell);
    let max_cutoff := PrimFloat.sub maximum_cutoff f_0_01 in
    let cutoffs := [max_cutoff] in
    cs ← lift (new_ClusterSpace prim cutoffs);
    fcs ← read_phonopy supercell "FORCE_CONSTANTS";
    parameters ← lift (extract_parameters E fcs cs);
    parameters_rot ←
      lift (enforce_rotational_sum_rules E cs parameters ["Huang"; "Born-Huang"] f_1e_6);
    fcs ← lift (fcp_get_force_constants E cs parameters_rot supercell);
    write_file "FORCE_CONSTANTS_new" (AForceConstants fcs);;
    force_constants_ ← parse_FORCE_CONSTANTS "FORCE_CONSTANTS_new";
    let phonon :=
      set_force_constants (symmetrize_force_constants E phonon force_constants_) phonon in
    bs_symm_line ← run_band_structure i phonon p true false;
    let imaginary_modes_hiphive := has_imaginary_freq bs_symm_line (tol_imaginary_modes i) in
    mret (phonon, bs_symm_line, imaginary_modes, imaginary_modes_hiphive)
  else
    mret (phonon, bs_symm_line, false, false).

(** ** Lines 570-633: the refit with the reduced cutoff [--c2 10.0].
    Returns the phonon object, the band structure and [imaginary_modes]. *)
Definition refit_pass (i : Inputs) (phonon : Phonopy) (num_har : nat)
    (bs_symm_line : PhononBandStructureSymmLine)
    (imaginary_modes imaginary_modes_hiphive : bool)
  : M (Phonopy * PhononBandStructureSymmLine * bool) :=
  if imaginary_modes_hiphive then
    let phonon := set_displacements (generate_displacements E phonon f_0_01) phonon in
    let num_judge := length (displacements phonon) in
    subprocess_call (pheasy_cmd_11 (supercell_matrix i));;
    subprocess_call (pheasy_cmd_12 (supercell_matrix i));;
    subprocess_call (pheasy_cmd_13 (supercell_matrix i) num_har);;
    subprocess_call (pheasy_cmd_14 (supercell_matrix i) num_har num_judge);;
    force_constants_ ← parse_FORCE_CONSTANTS "FORCE_CONSTANTS";
    let phonon :=
      set_force_constants (symmetrize_force_constants E phonon force_constants_) phonon in
    write_file "phonopy.yaml" (APhonopyYaml phonon);;
    p ← lift (band_path i phonon);
    bs_symm_line ← run_band_structure i phonon p true false;
    let imaginary_modes_cutoff := has_imaginary_freq bs_symm_line (tol_imaginary_modes i) in
    mret (phonon, bs_symm_line, imaginary_modes_cutoff)
  else
    mret (phonon, bs_symm_line, imaginary_modes).

(** ** Lines 661-687: the thermodynamic quantities on the temperature grid. *)
Definition thermodynamics (k : Kwargs) (dos : PhononDos) (primitive : Structure)
  : Res ThermodynamicSeries :=
  temperature_range ←
    np_arange (default 0 (kw_tmin k)) (default 500 (kw_tmax k)) (default 10 (kw_tstep k));
  let free_energies_ :=
    map (λ temp, helmholtz_free_energy E dos temp primitive) temperature_range in
  let entropies_ := map (λ temp, entropy E dos temp primitive) temperature_range in
  let internal_energies_ :=
    map (λ temp, internal_energy E dos temp primitive) temperature_range in
  let heat_capacities_ := map (λ temp, cv E dos temp primitive) temperature_range in
  mret (mkSeries temperature_range free_energies_ entropies_ internal_energies_
          heat_capacities_).

(** ** Lines 692-722: thermal displacement matrices. *)
Definition thermal_displacements (k : Kwargs) (phonon : Phonopy) (mesh : Z * Z * Z)
  : M (option ThermalDisplacementData) :=
  if default false (kw_create_thermal_displacements k) then
    emit (EvRunMesh phonon mesh true false);;
    let freq_min := default 0%float (kw_freq_min_thermal_displacements k) in
    let t_min := default 0 (kw_tmin_thermal_displacements k) in
    let t_max := default 500 (kw_tmax_thermal_displacements k) in
    let t_step := default 100 (kw_tstep_thermal_displacements k) in
    emit (EvRunThermalDisplacements t_min t_max t_step freq_min);;
    temperature_range_thermal_displacements ← lift (np_arange t_min t_max t_step);
    M_iter (λ temp, write_file ("tdispmat_" ++ pretty temp ++ "K.cif") ACif)
      temperature_range_thermal_displacements;;
    let '(tdisp_mat, tdisp_mat_cif) :=
      thermal_displacement_matrices E phonon mesh t_min t_max t_step freq_min in
    mret (Some (mkThermalDisplacementData freq_min tdisp_mat_cif tdisp_mat
                  temperature_range_thermal_displacements))
  else mret None.

(** ** Lines 636-780: density of states, thermodynamics and the document. *)
Definition dos_and_document (i : Inputs) (phonon : Phonopy)
    (borns : option (list Matrix3D)) (epsilon : option Matrix3D)
    (bs_symm_line : PhononBandStructureSymmLine) (imaginary_modes : bool)
  : M PhononBSDOSDoc :=
  let k := kwargs i in
  (if default false (kw_band_structure_eigenvectors k)
   then write_file "phonon_website.json" AWebsiteJson else mret tt);;
  let kpoint_density_dos_ := default 7000 (kw_kpoint_density_dos k) in
  let primitive := get_pmg_structure E (primitive_of phonon) in
  let mesh := automatic_density E primitive kpoint_density_dos_ in
  emit (EvRunMesh phonon mesh false true);;
  emit EvRunTotalDos;;
  write_file "phonon_dos.yaml" (ADosYaml (total_dos E phonon mesh));;
  dos ← get_ph_dos "phonon_dos.yaml";
  save_plot (default "phonon_dos.pdf" (kw_filename_dos k));;
  series ← lift (thermodynamics k dos primitive);
  thermal ← thermal_displacements k phonon mesh;
  formula_units ←
    lift (py_div (num_atoms (structure i)) (reduced_num_atoms (structure i)));
  total_dft_energy_per_formula_unit ←
    lift (match total_dft_energy i with
          | Some e => e' ← py_div e formula_units; mret (Some e')
          | None => mret None
          end : Res (option float));
  store ← lift (kwargs_item "store_force_constants" (kw_store_force_constants k));
  static_dir ← lift (kwargs_item "static_run_job_dir" (kw_static_run_job_dir k));
  born_dir ← lift (kwargs_item "born_run_job_dir" (kw_born_run_job_dir k));
  optimization_dir ←
    lift (kwargs_item "optimization_run_job_dir" (kw_optimization_run_job_dir k));
  born_uuid ← lift (kwargs_item "born_run_uuid" (kw_born_run_uuid k));
  optimization_uuid ←
    lift (kwargs_item "optimization_run_uuid" (kw_optimization_run_uuid k));
  static_uuid ← lift (kwargs_item "static_run_uuid" (kw_static_run_uuid k));
  mret (mkDoc (structure i) bs_symm_line dos
          (ts_free_energies series) (ts_internal_energies series)
          (ts_heat_capacities series) (ts_entropies series) (ts_temperatures series)
          total_dft_energy_per_formula_unit
          imaginary_modes
          (if store : bool then force_constants phonon else None)
          borns epsilon
          (ph_supercell_matrix phonon)
          (phonopy_primitive_matrix E (unitcell phonon) (ph_primitive_matrix phonon)
             (ph_symprec phonon))
          (code i) (mp_id i)
          thermal
          (mkJobDirs (dirs (displacement_data i)) static_dir born_dir optimization_dir)
          (mkUUIDs (uuids (displacement_data i)) born_uuid optimization_uuid static_uuid)
          (mkSettings (default 101 (kw_npoints_band k)) (kpath_scheme i)
             kpoint_density_dos_)).

(** Lines 454-780: primary fit, band structure, corrective passes, density
    of states and document. *)
Definition fit_and_document (i : Inputs) (phonon : Phonopy) (num_har : nat)
    (borns : option (list Matrix3D)) (epsilon : option Matrix3D) : M PhononBSDOSDoc :=
  '(phonon, prim, supercell) ← primary_fit i phonon num_har;
  '(p, bs_symm_line, imaginary_modes) ← initial_bands i phonon;
  '(phonon, bs_symm_line, imaginary_modes, imaginary_modes_hiphive) ←
    hiphive_pass i phonon prim supercell p bs_symm_line imaginary_modes;
  '(phonon, bs_symm_line, imaginary_modes) ←
    refit_pass i phonon num_har bs_symm_line imaginary_modes imaginary_modes_hiphive;
  dos_and_document i phonon borns epsilon bs_symm_line imaginary_modes.

(** ** [PhononBSDOSDoc.from_forces_born] (lines 236-780) *)
Definition from_forces_born (i : Inputs) : M PhononBSDOSDoc :=
  '(phonon, cell) ← make_phonopy i;
  '(phonon, num_har) ← accumulate_dataset i phonon cell;
  '(phonon, borns, epsilon) ← lift (attach_born i phonon);
  fit_and_document i phonon num_har borns epsilon.

End Pipeline.

(** ** A small concrete environment

    Two atoms in the cell; the solver writes a force-constant array whose
    leading entry is [lead_primary] (or [lead_refit] under [--c2]) and exits
    with [status]; hiphive rebuilds an array with leading entry
    [lead_hiphive]; the lowest branch of the band structure is the leading
    entry of the force constants. *)
Module Demo.

Definition zero3 : vec3 := (0%float, 0%float, 0%float).

Definition fc_of (lead : float) : fc_array :=
  [[((lead, 0%float, 0%float), zero3, zero3)]].

Definition fc_lead (fc : option fc_array) : float :=
  match fc with
  | Some ((((x, _, _), _, _) :: _) :: _) => x
  | _ => 0%float
  end.

Definition demo_kpath : KPath :=
  mkKPath (<["G" := zero3]> (<["X" := (0.5%float, 0%float, 0%float)]> ∅)) [["G"; "X"]].

Definition solver (status : Z) (lead_primary lead_refit : float)
    (cmd : pheasy_command) (files : gmap string artifact) : Z * gmap string artifact :=
  if bool_decide (W "-f" ∈ cmd)
  then (status,
        <["FORCE_CONSTANTS" :=
            AForceConstants (fc_of (if bool_decide (W "--c2" ∈ cmd)
                                    then lead_refit else lead_primary))]> files)
  else (status, files).

Definition env (status : Z) (lead_primary lead_hiphive lead_refit : float) : Env :=
  {| VaspToTHz := 0x1.f444028e4fb98p+3%float;
     omegaToTHz := 0x1.f444028e4fb98p+3%float;
     get_phonopy_structure := λ s, mkAtoms (cart_coords s) None;
     get_pmg_structure := λ a, mkStructure (positions a) 2%float 2%float;
     phonopy_supercell := λ cell _, cell;
     phonopy_primitive := λ cell _ _ _, cell;
     phonopy_primitive_matrix := λ _ _ _,
       ((1%float, 0%float, 0%float), (0%float, 1%float, 0%float), (0%float, 0%float, 1%float));
     generate_displacements := λ _ d, [[(d, 0%float, 0%float); zero3]];
     np_round16 := λ x, x;
     symmetrize_borns_and_epsilon := λ _ b e _ _, (b, e);
     shell := solver status lead_primary lead_refit;
     symmetrize_force_constants := λ _ fc, fc;
     HighSymmKpath := λ _ _ _, demo_kpath;
     KPathSeek := λ _ _, demo_kpath;
     get_band_qpoints_and_path_connections := λ path _, (path, [false]);
     band_frequencies := λ p _ _ _ _,
       [[fc_lead (force_constants p); 1%float]; [fc_lead (force_constants p); 2%float]];
     estimate_maximum_cutoff := λ _, inr 5%float;
     cluster_space_check := λ _ _, inr tt;
     ForceConstants_from_arrays := λ _ fc, inr fc;
     extract_parameters := λ fc _, inr [fc_lead (Some fc)];
     enforce_rotational_sum_rules := λ _ _ _ _, inr [lead_hiphive];
     fcp_get_force_constants := λ _ params _, inr (fc_of (default 0%float (head params)));
     automatic_density := λ _ _, (2, 2, 2);
     total_dos := λ _ _, mkDos [0%float; 1%float] [1%float; 1%float];
     helmholtz_free_energy := λ _ _ _, 1%float;
     entropy := λ _ _ _, 2%float;
     internal_energy := λ _ _ _, 3%float;
     cv := λ _ _ _, 4%float;
     thermal_displacement_matrices := λ _ _ _ _ _ _, ([], []) |}.

(** A solver whose refit with the reduced cutoff leaves no force constants
    behind; the primary fit gives an unstable lowest branch. *)
Definition refit_loses_output
    (cmd : pheasy_command) (files : gmap string artifact) : Z * gmap string artifact :=
  if bool_decide (W "--c2" ∈ cmd)
  then (1, delete "FORCE_CONSTANTS" files)
  else solver 0 (-1) 1 cmd files.

(** The same environment, with magnetic moments on the atoms of the cell. *)
Definition with_magnetic_moments (moments : list float) (E : Env) : Env :=
  {| VaspToTHz := VaspToTHz E;
     omegaToTHz := omegaToTHz E;
     get_phonopy_structure := λ s, mkAtoms (cart_coords s) (Some moments);
     get_pmg_structure := get_pmg_structure E;
     phonopy_supercell := phonopy_supercell E;
     phonopy_primitive := phonopy_primitive E;
     phonopy_primitive_matrix := phonopy_primitive_matrix E;
     generate_displacements := generate_displacements E;
     np_round16 := np_round16 E;
     symmetrize_borns_and_epsilon := symmetrize_borns_and_epsilon E;
     shell := shell E;
     symmetrize_force_constants := symmetrize_force_constants E;
     HighSymmKpath := HighSymmKpath E;
     KPathSeek := KPathSeek E;
     get_band_qpoints_and_path_connections := get_band_qpoints_and_path_connections E;
     band_frequencies := band_frequencies E;
     estimate_maximum_cutoff := estimate_maximum_cutoff E;
     cluster_space_check := cluster_space_check E;
     ForceConstants_from_arrays := ForceConstants_from_arrays E;
     extract_parameters := extract_parameters E;
     enforce_rotational_sum_rules := enforce_rotational_sum_rules E;
     fcp_get_force_constants := fcp_get_force_constants E;
     automatic_density := automatic_density E;
     total_dos := total_dos E;
     helmholtz_free_energy := helmholtz_free_energy E;
     entropy := entropy E;
     internal_energy := internal_energy E;
     cv := cv E;
     thermal_displacement_matrices := thermal_displacement_matrices E |}.

(** The same environment, with another solver. *)
Definition with_shell
    (solver_ : pheasy_command → gmap string artifact → Z * gmap string artifact) (E : Env)
  : Env :=
  {| VaspToTHz := VaspToTHz E;
     omegaToTHz := omegaToTHz E;
     get_phonopy_structure := get_phonopy_structure E;
     get_pmg_structure := get_pmg_structure E;
     phonopy_supercell := phonopy_supercell E;
     phonopy_primitive := phonopy_primitive E;
     phonopy_primitive_matrix := phonopy_primitive_matrix E;
     generate_displacements := generate_displacements E;
     np_round16 := np_round16 E;
     symmetrize_borns_and_epsilon := symmetrize_borns_and_epsilon E;
     shell := solver_;
     symmetrize_force_constants := symmetrize_force_constants E;
     HighSymmKpath := HighSymmKpath E;
     KPathSeek := KPathSeek E;
     get_band_qpoints_and_path_connections := get_band_qpoints_and_path_connections E;
     band_frequencies := band_frequencies E;
     estimate_maximum_cutoff := estimate_maximum_cutoff E;
     cluster_space_check := cluster_space_check E;
     ForceConstants_from_arrays := ForceConstants_from_arrays E;
     extract_parameters := extract_parameters E;
     enforce_rotational_sum_rules := enforce_rotational_sum_rules E;
     fcp_get_force_constants := fcp_get_force_constants E;
     automatic_density := automatic_density E;
     total_dos := total_dos E;
     helmholtz_free_energy := helmholtz_free_energy E;
     entropy := entropy E;
     internal_energy := internal_energy E;
     cv := cv E;
     thermal_displacement_matrices := thermal_displacement_matrices E |}.

Definition cell_positions : matrix := [zero3; (1%float, 1%float, 1%float)].

Definition demo_structure : Structure := mkStructure cell_positions 2%float 2%float.

Definition displaced (d : float) : Structure :=
  mkStructure [(d, 0%float, 0%float); (1%float, 1%float, 1%float)] 2%float 2%float.

(** One displaced sample followed by the undisplaced cell. *)
Definition demo_data : DisplacementData :=
  mkDisplacementData
    [[(-1%float, 0%float, 0%float)%float; (1%float, 0%float, 0%float)];
     [(0.25%float, 0%float, 0%float); (0.25%float, 0%float, 0%float)]]
    [displaced 0.5%float; demo_structure]
    [Some "job_0"; Some "job_1"] ["uuid_0"; "uuid_1"].

Definition no_kwargs : Kwargs :=
  mkKwargs None None None None None None None None None None None None None None None None
    None None None None None None None.

(** The keys read with [kwargs[...]] present, everything else by default. *)
Definition demo_kwargs : Kwargs :=
  mkKwargs None None None None None None None None None None None None None None None None
    (Some false) (Some None) (Some None) (Some None) (Some None) (Some None) (Some None).

Definition diag (n : Z) : smatrix := ((n, 0, 0), (0, n, 0), (0, 0, n)).

Definition demo_inputs : Inputs :=
  mkInputs demo_structure (diag 1) f_0_01 true 0x1.0c6f7a0b5ed8dp-20%float
    (Some "conventional") "seekpath" "forcefields" "mp-149" demo_data
    (Some (-10)%float) None None demo_kwargs.

Definition w0 : World := mkWorld ∅ [].

Definition unit3 : Matrix3D :=
  ((1%float, 0%float, 0%float), (0%float, 1%float, 0%float), (0%float, 0%float, 1%float)).

(** [demo_inputs] for another code, with Born charges and a dielectric
    tensor. *)
Definition born_inputs (code_ : string) (born_ : list Matrix3D) : Inputs :=
  mkInputs demo_structure (diag 1) f_0_01 true 0x1.0c6f7a0b5ed8dp-20%float
    (Some "conventional") "seekpath" code_ "mp-149" demo_data
    (Some (-10)%float) (Some unit3) (Some born_) demo_kwargs.

(** [demo_inputs] with another path scheme. *)
Definition scheme_inputs (scheme : string) : Inputs :=
  mkInputs demo_structure (diag 1) f_0_01 true 0x1.0c6f7a0b5ed8dp-20%float
    (Some "conventional") scheme "forcefields" "mp-149" demo_data
    (Some (-10)%float) None None demo_kwargs.

(** The same environment, with a hiphive whose sum-rule correction maps
    the parameters through [f]. *)
Definition with_hiphive (f : list float → list float) (E : Env) : Env :=
  {| VaspToTHz := VaspToTHz E;
     omegaToTHz := omegaToTHz E;
     get_phonopy_structure := get_phonopy_structure E;
     get_pmg_structure := get_pmg_structure E;
     phonopy_supercell := phonopy_supercell E;
     phonopy_primitive := phonopy_primitive E;
     phonopy_primitive_matrix := phonopy_primitive_matrix E;
     generate_displacements := generate_displacements E;
     np_round16 := np_round16 E;
     symmetrize_borns_and_epsilon := symmetrize_borns_and_epsilon E;
     shell := shell E;
     symmetrize_force_constants := symmetrize_force_constants E;
     HighSymmKpath := HighSymmKpath E;
     KPathSeek := KPathSeek E;
     get_band_qpoints_and_path_connections := get_band_qpoints_and_path_connections E;
     band_frequencies := band_frequencies E;
     estimate_maximum_cutoff := estimate_maximum_cutoff E;
     cluster_space_check := cluster_space_check E;
     ForceConstants_from_arrays := ForceConstants_from_arrays E;
     extract_parameters := extract_parameters E;
     enforce_rotational_sum_rules := λ _ parameters _ _, inr (f parameters);
     fcp_get_force_constants := fcp_get_force_constants E;
     automatic_density := automatic_density E;
     total_dos := total_dos E;
     helmholtz_free_energy := helmholtz_free_energy E;
     entropy := entropy E;
     internal_energy := internal_energy E;
     cv := cv E;
     thermal_displacement_matrices := thermal_displacement_matrices E |}.

(** A dataset with a single sample. *)
Definition one_sample_data : DisplacementData :=
  mkDisplacementData
    [[(-1%float, 0%float, 0%float)%float; (1%float, 0%float, 0%float)]]
    [displaced 0.5%float] [Some "job_0"] ["uuid_0"].

(** A dataset with two displaced samples followed by the undisplaced cell. *)
Definition three_sample_data : DisplacementData :=
  mkDisplacementData
    [[(-1%float, 0%float, 0%float)%float; (1%float, 0%float, 0%float)];
     [(-2%float, 0%float, 0%float)%float; (2%float, 0%float, 0%float)];
     [(0.25%float, 0%float, 0%float); (0.25%float, 0%float, 0%float)]]
    [displaced 0.5%float; displaced 0.75%float; demo_structure]
    [Some "job_0"; Some "job_1"; Some "job_2"] ["uuid_0"; "uuid_1"; "uuid_2"].

(** [demo_inputs] with another dataset. *)
Definition data_inputs (data : DisplacementData) : Inputs :=
  mkInputs demo_structure (diag 1) f_0_01 true 0x1.0c6f7a0b5ed8dp-20%float
    (Some "conventional") "seekpath" "forcefields" "mp-149" data
    (Some (-10)%float) None None demo_kwargs.

(** The same environment, with another outcome of the checks of
    [ClusterSpace(prim, cutoffs)]. *)
Definition with_cluster_space_check (check : PhonopyAtoms → list float → Res unit) (E : Env)
  : Env :=
  {| VaspToTHz := VaspToTHz E;
     omegaToTHz := omegaToTHz E;
     get_phonopy_structure := get_phonopy_structure E;
     get_pmg_structure := get_pmg_structure E;
     phonopy_supercell := phonopy_supercell E;
     phonopy_primitive := phonopy_primitive E;
     phonopy_primitive_matrix := phonopy_primitive_matrix E;
     generate_displacements := generate_displacements E;
     np_round16 := np_round16 E;
     symmetrize_borns_and_epsilon := symmetrize_borns_and_epsilon E;
     shell := shell E;
     symmetrize_force_constants := symmetrize_force_constants E;
     HighSymmKpath := HighSymmKpath E;
     KPathSeek := KPathSeek E;
     get_band_qpoints_and_path_connections := get_band_qpoints_and_path_connections E;
     band_frequencies := band_frequencies E;
     estimate_maximum_cutoff := estimate_maximum_cutoff E;
     cluster_space_check := check;
     ForceConstants_from_arrays := ForceConstants_from_arrays E;
     extract_parameters := extract_parameters E;
     enforce_rotational_sum_rules := enforce_rotational_sum_rules E;
     fcp_get_force_constants := fcp_get_force_constants E;
     automatic_density := automatic_density E;
     total_dos := total_dos E;
     helmholtz_free_energy := helmholtz_free_energy E;
     entropy := entropy E;
     internal_energy := internal_energy E;
     cv := cv E;
     thermal_displacement_matrices := thermal_displacement_matrices E |}.

End Demo.

(** ** More inputs and environments for the examples *)
Module Examples.

(** [Demo.demo_inputs] for another code, dataset, dielectric tensor, Born
    charges and keyword arguments. *)
Definition inputs_with (code_ : string) (data : DisplacementData)
    (eps : option Matrix3D) (born_ : option (list Matrix3D)) (k : Kwargs) : Inputs :=
  mkInputs Demo.demo_structure (Demo.diag 1) f_0_01 true f_1e_6
    (Some "conventional") "seekpath" code_ "mp-149" data (Some (-10)%float) eps born_ k.

(** Thermal displacements between 0 and 300 in steps of 100 (the default
    step), eigenvectors and stored force constants. *)
Definition thermal_kwargs : Kwargs :=
  mkKwargs None None (Some true) None None None None None None None None
    (Some true) None None (Some 300) None
    (Some true) (Some (Some "static")) (Some None) (Some (Some "relax"))
    (Some None) (Some (Some "uuid_relax")) (Some (Some "uuid_static")).

Definition empty_data : DisplacementData := mkDisplacementData [] [] [] [].

(** A path through a label that has no coordinates. *)
Definition broken_kpath : KPath :=
  mkKPath (<["G" := Demo.zero3]> ∅) [["G"; "X"]].

(** The same environment, with another result of [KPathSeek]. *)
Definition with_seekpath (kpath : KPath) (E : Env) : Env :=
  {| VaspToTHz := VaspToTHz E;
     omegaToTHz := omegaToTHz E;
     get_phonopy_structure := get_phonopy_structure E;
     get_pmg_structure := get_pmg_structure E;
     phonopy_supercell := phonopy_supercell E;
     phonopy_primitive := phonopy_primitive E;
     phonopy_primitive_matrix := phonopy_primitive_matrix E;
     generate_displacements := generate_displacements E;
     np_round16 := np_round16 E;
     symmetrize_borns_and_epsilon := symmetrize_borns_and_epsilon E;
     shell := shell E;
     symmetrize_force_constants := symmetrize_force_constants E;
     HighSymmKpath := HighSymmKpath E;
     KPathSeek := λ _ _, kpath;
     get_band_qpoints_and_path_connections := get_band_qpoints_and_path_connections E;
     band_frequencies := band_frequencies E;
     estimate_maximum_cutoff := estimate_maximum_cutoff E;
     cluster_space_check := cluster_space_check E;
     ForceConstants_from_arrays := ForceConstants_from_arrays E;
     extract_parameters := extract_parameters E;
     enforce_rotational_sum_rules := enforce_rotational_sum_rules E;
     fcp_get_force_constants := fcp_get_force_constants E;
     automatic_density := automatic_density E;
     total_dos := total_dos E;
     helmholtz_free_energy := helmholtz_free_energy E;
     entropy := entropy E;
     internal_energy := internal_energy E;
     cv := cv E;
     thermal_displacement_matrices := thermal_displacement_matrices E |}.

End Examples.

(** Every sample of the dataset has [natoms] rows. *)
Definition well_shaped (natoms : nat) (d : DisplacementData) : Prop :=
  Forall (λ s : matrix, length s = natoms) (forces d) ∧
  Forall (λ s, length (cart_coords s) = natoms) (displaced_structures d).

(** * Vocabulary of the properties *)

Local Open Scope list_scope.

(** [emits Φ m]: whatever the initial world, [m] only appends events to
    the log, and the appended events satisfy [Φ]. *)
Definition emits {A} (Φ : list event → Prop) (m : M A) : Prop :=
  ∀ w, ∃ evs, log (snd (m w)) = log w ++ evs ∧ Φ evs.

(** Number of events satisfying a boolean test. *)
Definition count_events (c : event → bool) (evs : list event) : nat :=
  length (filter (λ e, c e = true) evs).

(** At most [n] of the events pass the test. *)
Definition at_most (c : event → bool) (n : nat) (evs : list event) : Prop :=
  (count_events c evs ≤ n)%nat.

(** Every event satisfies [P]; no event passes the test [c]. *)
Definition all_events (P : event → Prop) (evs : list event) : Prop := Forall P evs.

Definition none_of (c : event → bool) (evs : list event) : Prop :=
  all_events (λ e, c e = false) evs.

(** The test no event passes: [none_of any_event] constrains nothing. *)
Definition any_event (e : event) : bool := false.

(** A [subprocess.call] of the solver (lines 474-477 and 587-590). *)
Definition is_solver_invocation (e : event) : bool :=
  match e with
  | EvSubprocess _ _ => true
  | _ => false
  end.

(** The [Phonopy] object a computation was run on. *)
Definition ev_phonon (e : event) : option Phonopy :=
  match e with
  | EvRunBandStructure p _ _ | EvRunMesh p _ _ _ => Some p
  | _ => None
  end.

(** The exceptions numpy raises on ragged or mismatched sample arrays. *)
Definition numpy_error (e : exn) : Prop :=
  e = ValueError inhomogeneous_msg ∨ e = ValueError broadcast_msg ∨ e = IndexError index_msg.

(** [run_total_dos] (line 650) and [run_band_structure] (lines 508, 552, 616). *)
Definition is_total_dos (e : event) : bool :=
  match e with
  | EvRunTotalDos => true
  | _ => false
  end.

Definition is_band_structure (e : event) : bool :=
  match e with
  | EvRunBandStructure _ _ _ => true
  | _ => false
  end.

(** Number of points of [np.arange(start, stop, step)] for a positive step. *)
Definition grid_length (start stop step : Z) : nat :=
  Z.to_nat (- ((- (stop - start)) `div` step)).

(** [nac] is the correction built from the supplied Born charges for a
    vasp calculation whose symmetrized Born charges are not all close to
    zero. *)
Definition nac_justified (E : Env) (i : Inputs) (nac : NacParams) : Prop :=
  ∃ born_ eps phonon,
    born i = Some born_ ∧ epsilon_static i = Some eps ∧ code i = "vasp" ∧
    length (cart_coords (structure i)) = length born_ ∧
    let sym := symmetrize_borns_and_epsilon E phonon born_ eps (symprec i)
                 (default true (kw_symmetrize_born (kwargs i))) in
    nac = mkNac (fst sym) (snd sym) f_nac_factor ∧
    Exists (λ x, isclose0 x = false) (concat (map Matrix3D_list (fst sym))).

(** The events performed on a [Phonopy] object carry the correction [N]. *)
Definition nac_inv (N : option NacParams) (e : event) : Prop :=
  ∀ p, ev_phonon e = Some p → nac_params p = N.

(** [keeps P R m]: the events appended by [m] all satisfy [P] and a
    returned value satisfies [R]. *)
Definition keeps {A} (P : event → Prop) (R : A → Prop) (m : M A) : Prop :=
  ∀ w, ∃ evs, log (snd (m w)) = log w ++ evs ∧ Forall P evs ∧
              ∀ a, fst (m w) = inr a → R a.

(** The hiphive pass writes FORCE_CONSTANTS_new. *)
Definition is_hiphive_pass (e : event) : bool :=
  match e with
  | EvWrite f => bool_decide (f = "FORCE_CONSTANTS_new")
  | _ => false
  end.

(** The refit pass runs the fit command [-f] with the reduced cutoff [--c2]. *)
Definition is_refit_pass (e : event) : bool :=
  match e with
  | EvSubprocess cmd _ => bool_decide (W "-f" ∈ cmd) && bool_decide (W "--c2" ∈ cmd)
  | _ => false
  end.

(** The cluster space of the hiphive pass (lines 532-534). *)
Definition hiphive_cluster_space (E : Env) (prim supercell : PhonopyAtoms)
  : Res ClusterSpace :=
  maximum_cutoff ← estimate_maximum_cutoff E supercell;
  new_ClusterSpace E prim [PrimFloat.sub maximum_cutoff f_0_01].

(** The force constants hiphive rebuilds from the array read from
    FORCE_CONSTANTS (lines 537-545). *)
Definition hiphive_force_constants (E : Env) (cs : ClusterSpace) (supercell : PhonopyAtoms)
    (fc2_array : fc_array) : Res fc_array :=
  fcs ← ForceConstants_from_arrays E supercell fc2_array;
  parameters ← extract_parameters E fcs cs;
  parameters_rot ←
    enforce_rotational_sum_rules E cs parameters ["Huang"; "Born-Huang"] f_1e_6;
  fcp_get_force_constants E cs parameters_rot supercell.

(** [e] is an exception raised by one of the hiphive routines of the
    hiphive pass. *)
Definition raised_by_hiphive (E : Env) (e : exn) : Prop :=
  (∃ prim supercell, hiphive_cluster_space E prim supercell = inl e) ∨
  (∃ cs supercell fc2_array, hiphive_force_constants E cs supercell fc2_array = inl e).

(** The exceptions that stop a run inside a corrective pass: FORCE_CONSTANTS
    cannot be read (lines 537 and 592), or a hiphive routine raises. *)
Definition corrective_pass_error (E : Env) (e : exn) : Prop :=
  e = FileNotFoundError "FORCE_CONSTANTS" ∨ e = ParseError "FORCE_CONSTANTS" ∨
  raised_by_hiphive E e.

(** How far a run gets: it fails before the first band structure, or it
    reaches the total density of states after every band structure, or it
    is stopped inside a corrective pass. *)
Definition progress (E : Env) (evs : list event) (r : Res PhononBSDOSDoc) : Prop :=
  (none_of is_band_structure evs ∧ ∃ e, r = inl e) ∨
  (∃ pre post, evs = pre ++ post ∧ EvRunTotalDos ∈ post ∧
               none_of is_band_structure post) ∨
  (∃ e, r = inl e ∧ corrective_pass_error E e).

(** Every run of [m] appends events that show such progress. *)
Definition progresses (E : Env) (m : M PhononBSDOSDoc) : Prop :=
  ∀ w, ∃ evs, log (snd (m w)) = log w ++ evs ∧ progress E evs (fst (m w)).

(** The first three stages of [from_forces_born] (lines 284-445): the
    phonon object with its displacements and its non-analytic correction,
    the number of samples of the working dataset, and the symmetrized Born
    charges and dielectric tensor. *)
Definition preparation (E : Env) (i : Inputs)
  : M (Phonopy * nat * option (list Matrix3D) * option Matrix3D) :=
  '(phonon, cell) ← make_phonopy E i;
  '(phonon, num_har) ← accumulate_dataset E i phonon cell;
  '(phonon, borns, epsilon) ← lift (attach_born E i phonon);
  mret (phonon, num_har, borns, epsilon).

(** [from_forces_born] up to the detection of imaginary modes (lines
    284-527): the phonon object of the primary fit, the cells read back
    from POSCAR and SPOSCAR, the path, the first band structure and the
    variable [imaginary_modes]. *)
Definition detection (E : Env) (i : Inputs)
  : M (Phonopy * PhonopyAtoms * PhonopyAtoms * nat * option (list Matrix3D)
       * option Matrix3D * BandPath * PhononBandStructureSymmLine * bool) :=
  '(phonon, num_har, borns, epsilon) ← preparation E i;
  '(phonon, prim, supercell) ← primary_fit E i phonon num_har;
  '(p, bs_symm_line, imaginary_modes) ← initial_bands E i phonon;
  mret (phonon, prim, supercell, num_har, borns, epsilon, p, bs_symm_line, imaginary_modes).

(** The working directory left by solver processes run one after the other,
    the first one in [files].  The exit statuses play no part in it. *)
Definition solver_directory (E : Env) (cmds : list pheasy_command)
    (files : gmap string artifact) : gmap string artifact :=
  fold_left (λ files cmd, snd (shell E cmd files)) cmds files.

(** The environment [E] with a solver that leaves the same working
    directories and exits with the statuses given by [status]. *)
Definition with_exit_status (status : pheasy_command → gmap string artifact → Z) (E : Env)
  : Env :=
  {| VaspToTHz := VaspToTHz E;
     omegaToTHz := omegaToTHz E;
     get_phonopy_structure := get_phonopy_structure E;
     get_pmg_structure := get_pmg_structure E;
     phonopy_supercell := phonopy_supercell E;
     phonopy_primitive := phonopy_primitive E;
     phonopy_primitive_matrix := phonopy_primitive_matrix E;
     generate_displacements := generate_displacements E;
     np_round16 := np_round16 E;
     symmetrize_borns_and_epsilon := symmetrize_borns_and_epsilon E;
     shell := λ cmd files, (status cmd files, snd (shell E cmd files));
     symmetrize_force_constants := symmetrize_force_constants E;
     HighSymmKpath := HighSymmKpath E;
     KPathSeek := KPathSeek E;
     get_band_qpoints_and_path_connections := get_band_qpoints_and_path_connections E;
     band_frequencies := band_frequencies E;
     estimate_maximum_cutoff := estimate_maximum_cutoff E;
     cluster_space_check := cluster_space_check E;
     ForceConstants_from_arrays := ForceConstants_from_arrays E;
     extract_parameters := extract_parameters E;
     enforce_rotational_sum_rules := enforce_rotational_sum_rules E;
     fcp_get_force_constants := fcp_get_force_constants E;
     automatic_density := automatic_density E;
     total_dos := total_dos E;
     helmholtz_free_energy := helmholtz_free_energy E;
     entropy := entropy E;
     internal_energy := internal_energy E;
     cv := cv E;
     thermal_displacement_matrices := thermal_displacement_matrices E |}.

(** [m] and [m'] return the same result and leave the same working
    directory whenever they start in the same working directory. *)
Definition same_outcome {A} (m m' : M A) : Prop :=
  ∀ w w', fs w = fs w' →
    fst (m w) = fst (m' w') ∧ fs (snd (m w)) = fs (snd (m' w')).

(** The arguments a [Phonopy] object is constructed with (lines 304-311);
    the pipeline later assigns its displacements, its force constants and
    its non-analytic correction only. *)
Definition construction (p : Phonopy)
  : PhonopyAtoms * smatrix * primitive_spec * float * float * bool :=
  (unitcell p, ph_supercell_matrix p, ph_primitive_matrix p, ph_factor p, ph_symprec p,
   ph_is_symmetry p).

(** Numbers of hiphive passes, refits, band structures and solver processes. *)
Definition pass_counts (evs : list event) : nat * nat * nat * nat :=
  (count_events is_hiphive_pass evs, count_events is_refit_pass evs,
   count_events is_band_structure evs, count_events is_solver_invocation evs).



(** * Properties *)

(** ** The monad *)

Lemma bind_unfold {A B} (m : M A) (f : A → M B) (w : World) :
  (m ≫= f) w = match m w with
               | (inl e, w') => (inl e, w')
               | (inr a, w') => f a w'
               end.
Proof. reflexivity. Qed.

Lemma lift_unfold {A} (r : Res A) (w : World) : lift r w = (r, w).
Proof. reflexivity. Qed.

Lemma res_bind_unfold {A B} (r : Res A) (f : A → Res B) :
  (r ≫= f) = match r with inl e => inl e | inr a => f a end.
Proof. reflexivity. Qed.

Lemma res_mapM_map {A B} (f : A → Res B) (g : A → B) (l : list A) :
  Forall (λ x, f x = inr (g x)) l → res_mapM f l = inr (map g l).
Proof.
  induction 1 as [|x l Hx _ IH]; simpl; [reflexivity|].
  now rewrite Hx, IH.
Qed.

(** ** The dataset (lines 321-358) *)

Lemma np_array_homogeneous (n : nat) (samples : list matrix) :
  Forall (λ s : matrix, length s = n) samples → np_array samples = inr samples.
Proof.
  intros H. destruct samples as [|s rest]; [reflexivity|].
  apply Forall_cons in H as [Hs Hrest]. simpl.
  replace (forallb _ rest) with true; [reflexivity|].
  symmetry. apply forallb_forall. intros t Ht.
  rewrite Forall_forall in Hrest. apply list_elem_of_In, Hrest in Ht.
  rewrite Ht, Hs. apply Nat.eqb_refl.
Qed.

Lemma last_sample_nonempty (n : nat) (samples : list matrix) :
  (0 < n)%nat → samples ≠ [] → Forall (λ s : matrix, length s = n) samples →
  ∃ baseline, last samples = Some baseline ∧ length baseline = n ∧
              last_sample samples = inr baseline.
Proof.
  intros Hn Hne Hall.
  destruct (last samples) as [b|] eqn:Hlast.
  - assert (Hb : length b = n).
    { rewrite Forall_forall in Hall. apply Hall.
      apply last_Some in Hlast as [l' ->]. set_solver. }
    exists b. unfold last_sample. rewrite Hlast.
    destruct b; [simpl in Hb; lia|]. auto.
  - apply last_None in Hlast. contradiction.
Qed.

Lemma rows_sub_same_length (a b : matrix) :
  length a = length b → rows_sub a b = inr (zip_with vsub a b).
Proof. intros H. unfold rows_sub. now rewrite H, Nat.eqb_refl. Qed.

Lemma lookup_removelast {A} (l : list A) (k : nat) :
  (k < pred (length l))%nat → removelast l !! k = l !! k.
Proof.
  intros Hk. rewrite removelast_firstn_len.
  change (@firstn A) with (@take A). now rewrite lookup_take_lt.
Qed.

Lemma lookup_map {A B} (f : A → B) (l : list A) (k : nat) :
  map f l !! k = f <$> l !! k.
Proof. revert k. induction l as [|x l IH]; intros [|k]; simpl; auto. Qed.

Lemma length_removelast {A} (l : list A) : length (removelast l) = pred (length l).
Proof.
  rewrite removelast_firstn_len. change (@firstn A) with (@take A).
  rewrite length_take. lia.
Qed.

(** C1 (as amended).  On a well-shaped, non-empty dataset the final sample
    is used as the zero-displacement baseline exactly when the nominal
    displacement scheme has at least one displacement ([1 <= f_disp_n1]),
    whatever the number of incoming samples: its forces are subtracted from
    every sample and the last sample of the forces and of the displacements
    is dropped.  When the nominal scheme is empty the forces are used
    unmodified and the raw positions serve as displacements. *)
Theorem C1_baseline_rule (E : Env) (f_disp_n1 : nat) (ref_positions : matrix)
    (d : DisplacementData) :
  (0 < length ref_positions)%nat →
  well_shaped (length ref_positions) d →
  forces d ≠ [] → displaced_structures d ≠ [] →
  ((f_disp_n1 < 1)%nat →
     accumulate E f_disp_n1 ref_positions d
     = inr (map cart_coords (displaced_structures d), forces d)) ∧
  ((1 ≤ f_disp_n1)%nat →
     ∃ disps fs baseline,
       accumulate E f_disp_n1 ref_positions d = inr (disps, fs) ∧
       last (forces d) = Some baseline ∧
       length fs = pred (length (forces d)) ∧
       length disps = pred (length (displaced_structures d)) ∧
       (∀ k s, (k < length fs)%nat → forces d !! k = Some s →
               fs !! k = Some (zip_with vsub s baseline)) ∧
       (∀ k s, (k < length disps)%nat → displaced_structures d !! k = Some s →
               disps !! k = Some (map (vmap (np_round16 E))
                                    (zip_with vsub (cart_coords s) ref_positions)))).
Proof.
  intros Hn [Hf Hd] Hfne Hdne.
  assert (Hd' : Forall (λ s : matrix, length s = length ref_positions)
                  (map cart_coords (displaced_structures d))).
  { rewrite Forall_map. exact Hd. }
  split; intros Hnom; unfold accumulate.
  - apply Nat.ltb_lt in Hnom. rewrite Hnom.
    rewrite (np_array_homogeneous _ _ Hf), res_bind_unfold.
    now rewrite (np_array_homogeneous _ _ Hd'), res_bind_unfold.
  - assert (Hnom' : (f_disp_n1 <? 1)%nat = false) by (apply Nat.ltb_ge; lia).
    rewrite Hnom'.
    destruct (last_sample_nonempty _ _ Hn Hfne Hf) as (b & Hlast & Hb & Hls).
    rewrite (np_array_homogeneous _ _ Hf), res_bind_unfold, Hls, res_bind_unfold.
    rewrite (np_array_homogeneous _ _ Hd'), res_bind_unfold.
    set (g := λ s : matrix, zip_with vsub s ref_positions).
    assert (Hmap : res_mapM (λ s, rows_sub s ref_positions)
                     (map cart_coords (displaced_structures d))
                   = inr (map g (map cart_coords (displaced_structures d)))).
    { apply res_mapM_map. eapply Forall_impl; [exact Hd'|].
      intros s Hs. now apply rows_sub_same_length. }
    destruct (map cart_coords (displaced_structures d)) as [|c cs] eqn:Hcs.
    { destruct (displaced_structures d); [contradiction|discriminate]. }
    rewrite Hmap, res_bind_unfold. rewrite <- Hcs. clear Hmap.
    eexists _, _, b. split; [reflexivity|]. split; [exact Hlast|].
    split; [now rewrite length_removelast, length_map|].
    split; [now rewrite length_removelast, !length_map|].
    split.
    + intros k s Hk Hks. rewrite length_removelast, length_map in Hk.
      rewrite lookup_removelast by now rewrite length_map.
      rewrite lookup_map. unfold matrix in *. now rewrite Hks.
    + intros k s Hk Hks. rewrite length_removelast, !length_map in Hk.
      rewrite lookup_removelast by now rewrite !length_map.
      rewrite !lookup_map. unfold matrix in *. now rewrite Hks.
Qed.

(** Witness of [C1_baseline_rule]: two incoming samples, nominal count one. *)
Lemma C1_baseline_rule_witness :
  ∃ disps fs,
    accumulate (Demo.env 0 1 1 1) 1 Demo.cell_positions Demo.demo_data = inr (disps, fs) ∧
    length fs = 1%nat.
Proof.
  destruct (C1_baseline_rule (Demo.env 0 1 1 1) 1 Demo.cell_positions Demo.demo_data)
    as [_ H].
  - simpl; lia.
  - split; repeat constructor.
  - discriminate.
  - discriminate.
  - destruct (H ltac:(lia)) as (disps & fs & b & Hacc & _ & Hlen & _).
    exists disps, fs. split; [exact Hacc | exact Hlen].
Defined.

(** C1 (as stated) fails.  With one incoming sample and a nominal scheme of
    one displacement the count does not exceed the nominal count by one, yet
    the sample is consumed as the baseline and the working dataset is empty
    (also in the pickled artifact of a full run); with one incoming sample
    and an empty nominal scheme the count exceeds it by exactly one, yet the
    dataset is used unmodified. *)
Lemma C1_counterexample :
  length (forces Demo.one_sample_data) = 1%nat ∧
  length (generate_displacements (Demo.env 0 1 1 1)
            (mkPhonopy (mkAtoms [] None) (Demo.diag 1) PrimAuto 0%float 0%float true [] None None)
            f_0_01) = 1%nat ∧
  accumulate (Demo.env 0 1 1 1) 1 Demo.cell_positions Demo.one_sample_data = inr ([], []) ∧
  accumulate (Demo.env 0 1 1 1) 0 Demo.cell_positions Demo.one_sample_data
  = inr (map cart_coords (displaced_structures Demo.one_sample_data),
         forces Demo.one_sample_data) ∧
  fs (snd (from_forces_born (Demo.env 0 1 1 1)
             (mkInputs Demo.demo_structure (Demo.diag 1) f_0_01 true f_1e_6
                (Some "conventional") "seekpath" "forcefields" "mp-149"
                Demo.one_sample_data None None None Demo.demo_kwargs)
             Demo.w0)) !! "force_matrix.pkl" = Some (APickle []).
Proof. repeat split; vm_compute; reflexivity. Qed.

(** ** Events appended to the log *)

Lemma count_events_app c a b :
  count_events c (a ++ b) = (count_events c a + count_events c b)%nat.
Proof. unfold count_events. now rewrite filter_app, length_app. Qed.

Lemma none_of_at_most c evs : none_of c evs ↔ at_most c 0 evs.
Proof.
  unfold none_of, all_events, at_most, count_events. induction evs as [|e evs IH]; simpl.
  - split; [lia | constructor].
  - rewrite Forall_cons, IH, filter_cons. destruct (c e) eqn:He.
    + rewrite decide_True by reflexivity. simpl. split; [intros [? _]; discriminate | lia].
    + rewrite decide_False by discriminate. split; [intros [_ ?]; lia | auto].
Qed.

Lemma emits_weaken {A} (Φ Ψ : list event → Prop) (m : M A) :
  (∀ evs, Φ evs → Ψ evs) → emits Φ m → emits Ψ m.
Proof. intros H Hm w. destruct (Hm w) as (evs & ? & ?). eauto. Qed.

Lemma emits_and {A} (Φ Ψ : list event → Prop) (m : M A) :
  emits Φ m → emits Ψ m → emits (λ evs, Φ evs ∧ Ψ evs) m.
Proof.
  intros H1 H2 w. destruct (H1 w) as (e1 & Hl1 & ?), (H2 w) as (e2 & Hl2 & ?).
  rewrite Hl1 in Hl2. apply app_inv_head in Hl2 as ->. eauto.
Qed.

Lemma emits_bind {A B} (Φ Ψ : list event → Prop) (m : M A) (f : A → M B) :
  Ψ [] → emits Φ m → (∀ a, emits Ψ (f a)) →
  emits (λ evs, ∃ e1 e2, evs = e1 ++ e2 ∧ Φ e1 ∧ Ψ e2) (m ≫= f).
Proof.
  intros Hnil Hm Hf w. rewrite bind_unfold.
  destruct (Hm w) as (e1 & Hlog1 & H1).
  destruct (m w) as [[e|a] w1]; simpl in *.
  - exists e1. split; [exact Hlog1|]. exists e1, []. now rewrite app_nil_r.
  - destruct (Hf a w1) as (e2 & Hlog2 & H2).
    exists (e1 ++ e2). split; [now rewrite Hlog2, Hlog1, app_assoc|]. eauto.
Qed.

Lemma emits_bind_at_most {A B} c n k (m : M A) (f : A → M B) :
  emits (at_most c n) m → (∀ a, emits (at_most c k) (f a)) →
  emits (at_most c (n + k)) (m ≫= f).
Proof.
  intros Hm Hf.
  eapply emits_weaken;
    [|apply (emits_bind (at_most c n) (at_most c k) m f); [|exact Hm|exact Hf]].
  - intros evs (e1 & e2 & -> & H1 & H2). unfold at_most in *.
    rewrite count_events_app. lia.
  - unfold at_most, count_events. simpl. lia.
Qed.

Lemma emits_bind_all {A B} P (m : M A) (f : A → M B) :
  emits (all_events P) m → (∀ a, emits (all_events P) (f a)) →
  emits (all_events P) (m ≫= f).
Proof.
  intros Hm Hf.
  eapply emits_weaken;
    [|apply (emits_bind (all_events P) (all_events P) m f); [|exact Hm|exact Hf]].
  - intros evs (e1 & e2 & -> & H1 & H2). now apply Forall_app.
  - constructor.
Qed.

Lemma emits_nothing {A} (Φ : list event → Prop) (m : M A) :
  Φ [] → (∀ w, log (snd (m w)) = log w) → emits Φ m.
Proof. intros H Hm w. exists []. now rewrite app_nil_r. Qed.

Lemma emits_one {A} (Φ : list event → Prop) (m : M A) (e : event) :
  Φ [e] → (∀ w, log (snd (m w)) = log w ++ [e]) → emits Φ m.
Proof. intros H Hm w. exists [e]. auto. Qed.

Lemma emits_ret {A} P (a : A) : emits (all_events P) (mret a : M A).
Proof. apply emits_nothing; [constructor | reflexivity]. Qed.

Lemma emits_raise {A} P (e : exn) : emits (all_events P) (raise e : M A).
Proof. apply emits_nothing; [constructor | reflexivity]. Qed.

Lemma emits_lift {A} P (r : Res A) : emits (all_events P) (lift r).
Proof. apply emits_nothing; [constructor | reflexivity]. Qed.

Lemma emits_read_file P f : emits (all_events P) (read_file f).
Proof.
  apply emits_nothing; [constructor|]. intros w. unfold read_file.
  now destruct (fs w !! f).
Qed.

Lemma emits_emit (P : event → Prop) e : P e → emits (all_events P) (emit e).
Proof. intros H. apply (emits_one _ _ e); [repeat constructor; exact H | reflexivity]. Qed.

Lemma emits_write_file (P : event → Prop) f a :
  P (EvWrite f) → emits (all_events P) (write_file f a).
Proof.
  intros H. apply (emits_one _ _ (EvWrite f)); [repeat constructor; exact H | reflexivity].
Qed.

Lemma emits_save_plot (P : event → Prop) f :
  P (EvSavePlot f) → emits (all_events P) (save_plot f).
Proof.
  intros H. apply (emits_one _ _ (EvSavePlot f)); [repeat constructor; exact H | reflexivity].
Qed.

Lemma emits_subprocess_call E (P : event → Prop) cmd :
  (∀ status, P (EvSubprocess cmd status)) →
  emits (all_events P) (subprocess_call E cmd).
Proof.
  intros H w. eexists [_]. split; [reflexivity|]. repeat constructor. apply H.
Qed.

Lemma emits_M_iter {A} P (f : A → M unit) (l : list A) :
  (∀ x, emits (all_events P) (f x)) → emits (all_events P) (M_iter f l).
Proof.
  intros Hf. induction l as [|x l IH]; simpl.
  - apply emits_ret.
  - apply emits_bind_all; [apply Hf | intros _; exact IH].
Qed.

(** Proof search for [emits (all_events P) m] on the programs of the
    pipeline; [tac] proves [P e] for the events met. *)
Ltac emits_all tac :=
  unfold none_of;
  repeat first
    [ apply emits_ret | apply emits_raise | apply emits_lift | apply emits_read_file
    | apply emits_emit; tac
    | apply emits_write_file; tac
    | apply emits_save_plot; tac
    | apply emits_subprocess_call; intros; tac
    | apply emits_M_iter; intros
    | apply emits_bind_all; [|intros]
    | match goal with
      | |- emits _ (match ?x with _ => _ end) => destruct x
      end
    | progress unfold fit_and_document, make_phonopy, accumulate_dataset, primary_fit,
        initial_bands,
        hiphive_pass, refit_pass, dos_and_document, thermal_displacements,
        run_band_structure, read_structure, parse_FORCE_CONSTANTS,
        get_ph_bs_symm_line, get_ph_dos ].

Ltac emits_none := emits_all ltac:(reflexivity).

(** Every part of the pipeline only appends to the log. *)
Lemma emits_any {A} (m : M A) (w : World) :
  emits (none_of any_event) m → ∃ evs, log (snd (m w)) = log w ++ evs.
Proof. intros H. destruct (H w) as (evs & ? & _). eauto. Qed.

(** ** Construction of the Phonopy object (lines 284-311) *)

Lemma make_phonopy_run E i w :
  make_phonopy E i w =
  match get_factor E (code i) with
  | inl e => (inl e, w)
  | inr factor =>
      match check_magnetic_moments (get_phonopy_structure E (structure i))
              (primitive_matrix_of i) with
      | inl e => (inl e, w)
      | inr cell =>
          let phonon :=
            mkPhonopy cell (supercell_matrix i) (primitive_matrix_of i) factor
              (symprec i) (sym_reduce i) [] None None in
          (inr (phonon, cell), mkWorld (fs w) (log w ++ [EvPhonopy phonon]))
      end
  end.
Proof.
  unfold make_phonopy. rewrite bind_unfold, lift_unfold.
  destruct (get_factor E (code i)); [reflexivity|].
  rewrite bind_unfold, lift_unfold.
  destruct (check_magnetic_moments _ _); reflexivity.
Qed.

Lemma get_factor_known E c :
  c ∈ ["forcefields"; "vasp"; "aims"] → ∃ factor, get_factor E c = inr factor.
Proof.
  intros Hc. unfold get_factor.
  destruct (decide (c ∈ ["forcefields"; "vasp"])); [eauto|].
  destruct (decide (c = "aims")) as [|Hn']; [eauto|].
  exfalso. rewrite !elem_of_cons in Hc.
  destruct Hc as [->|[->|[->|Hc]]].
  - apply n. rewrite !elem_of_cons. auto.
  - apply n. rewrite !elem_of_cons. auto.
  - now apply Hn'.
  - now apply elem_of_nil in Hc.
Qed.

Lemma get_factor_error E c e :
  get_factor E c = inl e → e = ValueError (factor_msg c).
Proof.
  unfold get_factor. repeat case_decide; intros Heq; now inversion Heq.
Qed.

Lemma existsb_Exists {A} (f : A → bool) (l : list A) :
  existsb f l = true ↔ Exists (λ x, f x = true) l.
Proof.
  rewrite existsb_exists, Exists_exists. split; intros (x & Hx & ?); exists x.
  - split; [now apply list_elem_of_In | assumption].
  - split; [now apply list_elem_of_In | assumption].
Qed.

Lemma existsb_false_Forall {A} (f : A → bool) (l : list A) :
  existsb f l = false ↔ Forall (λ x, f x = false) l.
Proof.
  induction l as [|x l IH]; simpl.
  - split; [constructor | reflexivity].
  - rewrite orb_false_iff, Forall_cons, IH. reflexivity.
Qed.

(** C9.  When the cell carries magnetic moments and
    [use_symmetrized_structure] is not ['primitive']: if some moment is
    nonzero the pipeline raises a [ValueError] and the world is untouched,
    so no [Phonopy] object has been constructed (the message is the one
    about magnetic moments as soon as the code name is a known one); if
    every moment is zero (and the code name is known) the moments are
    dropped and the first thing the pipeline does is to construct the
    [Phonopy] object on the cell without moments. *)
Theorem C9_magnetic_moments (E : Env) (i : Inputs) (w : World) (moments : list float) :
  magnetic_moments (get_phonopy_structure E (structure i)) = Some moments →
  use_symmetrized_structure i ≠ Some "primitive" →
  (Exists (λ m, PrimFloat.eqb m 0%float = false) moments →
     ∃ msg, from_forces_born E i w = (inl (ValueError msg), w) ∧
            (code i ∈ ["forcefields"; "vasp"; "aims"] → msg = magnetic_msg)) ∧
  (Forall (λ m, PrimFloat.eqb m 0%float = true) moments →
   code i ∈ ["forcefields"; "vasp"; "aims"] →
     ∃ phonon evs,
       log (snd (from_forces_born E i w)) = log w ++ EvPhonopy phonon :: evs ∧
       unitcell phonon
       = mkAtoms (positions (get_phonopy_structure E (structure i))) None).
Proof.
  intros Hmom Hprim.
  assert (Hpm : primitive_matrix_of i = PrimAuto).
  { unfold primitive_matrix_of. now rewrite decide_False. }
  split.
  - intros Hex.
    assert (Hchk : check_magnetic_moments (get_phonopy_structure E (structure i))
                     (primitive_matrix_of i) = inl (ValueError magnetic_msg)).
    { unfold check_magnetic_moments. rewrite Hmom, Hpm.
      replace (existsb _ moments) with true; [reflexivity|].
      symmetry. apply existsb_Exists. eapply Exists_impl; [exact Hex|].
      simpl. intros m ->. reflexivity. }
    unfold from_forces_born. rewrite bind_unfold, make_phonopy_run, Hchk.
    destruct (get_factor E (code i)) as [e|factor] eqn:Hf.
    + pose proof (get_factor_error _ _ _ Hf) as ->. eexists. split; [reflexivity|].
      intros Hc. apply (get_factor_known E) in Hc as [factor Hc].
      rewrite Hf in Hc. discriminate.
    + eexists. split; [reflexivity|]. reflexivity.
  - intros Hall Hc. destruct (get_factor_known E _ Hc) as [factor Hf].
    assert (Hchk : check_magnetic_moments (get_phonopy_structure E (structure i))
                     (primitive_matrix_of i)
                   = inr (mkAtoms (positions (get_phonopy_structure E (structure i))) None)).
    { unfold check_magnetic_moments. rewrite Hmom, Hpm.
      replace (existsb _ moments) with false; [reflexivity|].
      symmetry. apply existsb_false_Forall. eapply Forall_impl; [exact Hall|].
      simpl. intros m ->. reflexivity. }
    unfold from_forces_born. rewrite bind_unfold, make_phonopy_run, Hf, Hchk.
    cbv beta iota zeta.
    match goal with
    | |- context [snd (?k ?w1)] =>
        destruct (emits_any k w1) as [evs Hevs]; [emits_none|]
    end.
    eexists _, evs.
    split; [rewrite Hevs; simpl; rewrite <- app_assoc; reflexivity | reflexivity].
Qed.

(** Witness of [C9_magnetic_moments]: moments [0, 1.5] are rejected,
    moments [0, 0] are dropped. *)
Lemma C9_magnetic_moments_witness :
  (∃ msg, from_forces_born (Demo.with_magnetic_moments [0%float; 1.5%float] (Demo.env 0 1 1 1))
            Demo.demo_inputs Demo.w0 = (inl (ValueError msg), Demo.w0) ∧ msg = magnetic_msg) ∧
  (∃ phonon evs,
     log (snd (from_forces_born (Demo.with_magnetic_moments [0%float; 0%float] (Demo.env 0 1 1 1))
                 Demo.demo_inputs Demo.w0)) = EvPhonopy phonon :: evs ∧
     magnetic_moments (unitcell phonon) = None).
Proof.
  split.
  - destruct (C9_magnetic_moments
                (Demo.with_magnetic_moments [0%float; 1.5%float] (Demo.env 0 1 1 1))
                Demo.demo_inputs Demo.w0 [0%float; 1.5%float] eq_refl) as [H _].
    + discriminate.
    + destruct H as (msg & Hrun & Hmsg).
      * apply Exists_cons_tl, Exists_cons_hd. reflexivity.
      * exists msg. split; [exact Hrun|]. apply Hmsg. vm_compute. repeat constructor.
  - destruct (C9_magnetic_moments
                (Demo.with_magnetic_moments [0%float; 0%float] (Demo.env 0 1 1 1))
                Demo.demo_inputs Demo.w0 [0%float; 0%float] eq_refl) as [_ H].
    + discriminate.
    + destruct H as (phonon & evs & Hlog & Hcell).
      * repeat constructor.
      * vm_compute. repeat constructor.
      * exists phonon, evs. split; [exact Hlog|]. now rewrite Hcell.
Defined.

(** ** Born charges (lines 421-445) *)

Lemma attach_born_mismatch E i phonon born_ eps :
  born i = Some born_ → epsilon_static i = Some eps →
  length (cart_coords (structure i)) ≠ length born_ →
  attach_born E i phonon = inl (ValueError born_mismatch_msg).
Proof.
  intros Hb He Hlen. unfold attach_born. rewrite Hb, He.
  apply Nat.eqb_neq in Hlen. now rewrite Hlen.
Qed.

Lemma make_phonopy_no_solver E i : emits (none_of is_solver_invocation) (make_phonopy E i).
Proof. emits_none. Qed.

Lemma accumulate_dataset_no_solver E i phonon cell :
  emits (none_of is_solver_invocation) (accumulate_dataset E i phonon cell).
Proof. emits_none. Qed.

(** C3.  When Born charges and a dielectric tensor are supplied and the
    number of Born charges differs from the number of atoms, the pipeline
    fails, and no solver process has been started by then.  Whenever the
    steps that precede the check (construction of the Phonopy object,
    dataset) complete, the exception is the [ValueError] that reports the
    mismatch, raised in the world those steps left. *)
Theorem C3_born_mismatch (E : Env) (i : Inputs) (w : World)
    (born_ : list Matrix3D) (eps : Matrix3D) :
  born i = Some born_ → epsilon_static i = Some eps →
  length (cart_coords (structure i)) ≠ length born_ →
  ∃ e evs,
    fst (from_forces_born E i w) = inl e ∧
    log (snd (from_forces_born E i w)) = log w ++ evs ∧
    none_of is_solver_invocation evs ∧
    (∀ phonon cell w1 phonon' num_har w2,
       make_phonopy E i w = (inr (phonon, cell), w1) →
       accumulate_dataset E i phonon cell w1 = (inr (phonon', num_har), w2) →
       from_forces_born E i w = (inl (ValueError born_mismatch_msg), w2)).
Proof.
  intros Hb He Hlen.
  pose proof (attach_born_mismatch E i) as Hborn.
  destruct (make_phonopy_no_solver E i w) as (evs1 & Hl1 & Hn1).
  unfold from_forces_born. rewrite bind_unfold.
  destruct (make_phonopy E i w) as [[e1|[ph cell]] w1] eqn:H1; simpl in Hl1.
  - exists e1, evs1. repeat split; auto. intros; discriminate.
  - cbv beta iota. rewrite bind_unfold.
    destruct (accumulate_dataset_no_solver E i ph cell w1) as (evs2 & Hl2 & Hn2).
    destruct (accumulate_dataset E i ph cell w1) as [[e2|[ph' n]] w2] eqn:H2;
      simpl in Hl2; rewrite Hl1, <- app_assoc in Hl2.
    + exists e2, (evs1 ++ evs2). repeat split; auto.
      * now apply Forall_app.
      * intros ? ? ? ? ? ? Heq. inversion Heq; subst. rewrite H2. discriminate.
    + cbv beta iota. rewrite bind_unfold, lift_unfold.
      rewrite (Hborn ph' born_ eps Hb He Hlen).
      exists (ValueError born_mismatch_msg), (evs1 ++ evs2). repeat split; auto.
      * now apply Forall_app.
      * intros ? ? ? ? ? ? Heq. inversion Heq; subst. rewrite H2.
        intros Heq2. now inversion Heq2.
Qed.

(** Witness of [C3_born_mismatch]: one Born charge for a cell of two atoms. *)
Lemma C3_born_mismatch_witness :
  fst (from_forces_born (Demo.env 0 1 1 1) (Demo.born_inputs "vasp" [Demo.unit3]) Demo.w0)
  = inl (ValueError born_mismatch_msg) ∧
  none_of is_solver_invocation
    (log (snd (from_forces_born (Demo.env 0 1 1 1) (Demo.born_inputs "vasp" [Demo.unit3])
                 Demo.w0))).
Proof.
  destruct (C3_born_mismatch (Demo.env 0 1 1 1) (Demo.born_inputs "vasp" [Demo.unit3])
              Demo.w0 [Demo.unit3] Demo.unit3 eq_refl eq_refl)
    as (e & evs & He & Hlog & Hnone & Hmsg).
  - simpl. lia.
  - split.
    + erewrite Hmsg; [reflexivity | vm_compute; reflexivity | vm_compute; reflexivity].
    + rewrite Hlog. exact Hnone.
Defined.

(** ** Inversion of runs *)

(** Unfolds the monadic primitives in [H]. *)
Ltac msimpl_in H :=
  cbv beta iota zeta delta
    [mbind M_bind M_bind_def mret M_ret M_ret_def raise lift emit write_file save_plot
     subprocess_call] in H;
  cbn [fs log fst snd] in H.

(** Case analysis on the tests met in [H], pruning impossible branches. *)
Ltac mcase H :=
  repeat match type of H with
    | context [match ?x with _ => _ end] =>
        lazymatch x with
        | context [match _ with _ => _ end] => fail
        | _ => idtac
        end;
        destruct x eqn:?; cbv beta iota zeta in H; cbn [fs log fst snd] in H;
        try discriminate H
    end.

(** Successful primary fit (lines 454-490). *)
Lemma primary_fit_inr E i ph n w ph' prim sc w' :
  primary_fit E i ph n w = (inr (ph', prim, sc), w') →
  let ph1 := set_displacements (generate_displacements E ph f_0_01) ph in
  ∃ fc s1 s2 s3 s4 fs4,
    ph' = set_force_constants (symmetrize_force_constants E ph1 fc) ph1 ∧
    fs w !! "POSCAR" = Some (AStructure prim) ∧
    fs w !! "SPOSCAR" = Some (AStructure sc) ∧
    fs4 !! "FORCE_CONSTANTS" = Some (AForceConstants fc) ∧
    (∃ files, fs4 = snd (shell E (pheasy_cmd_4 (supercell_matrix i) n
                                    (length (displacements ph1))) files)) ∧
    fs w' = <["phonopy.yaml" := APhonopyYaml ph']> fs4 ∧
    log w' = log w ++
      [EvSubprocess (pheasy_cmd_1 (supercell_matrix i)) s1;
       EvSubprocess (pheasy_cmd_2 (supercell_matrix i)) s2;
       EvSubprocess (pheasy_cmd_3 (supercell_matrix i) n) s3;
       EvSubprocess (pheasy_cmd_4 (supercell_matrix i) n (length (displacements ph1))) s4;
       EvWrite "phonopy.yaml"].
Proof.
  intros H. unfold primary_fit, read_structure, parse_FORCE_CONSTANTS, read_file in H.
  msimpl_in H. mcase H. simplify_eq.
  cbn [fs log]. eexists _, _, _, _, _, _.
  repeat split; try reflexivity; try eassumption.
  - eexists. reflexivity.
  - rewrite <- ?app_assoc. reflexivity.
Qed.

Ltac msimpl :=
  cbv beta iota zeta delta
    [mbind M_bind M_bind_def mret M_ret M_ret_def raise lift emit write_file save_plot
     subprocess_call];
  cbn [fs log fst snd].

(** The dataset stage (lines 317-416). *)
Lemma accumulate_dataset_run E i ph cell w :
  let ph1 := set_displacements (generate_displacements E ph (displacement i)) ph in
  let supercell := phonopy_supercell E (unitcell ph) (ph_supercell_matrix ph) in
  let fs2 := <["SPOSCAR" := AStructure supercell]> (<["POSCAR" := AStructure cell]> (fs w)) in
  accumulate_dataset E i ph cell w =
  match accumulate E (length (displacements ph1)) (positions supercell) (displacement_data i) with
  | inl e => (inl e, mkWorld fs2 (log w ++ [EvWrite "POSCAR"; EvWrite "SPOSCAR"]))
  | inr (set_of_disps_m, set_of_forces_a) =>
      (inr (ph1, length set_of_disps_m),
       mkWorld (<["force_matrix.pkl" := APickle set_of_forces_a]>
                  (<["disp_matrix.pkl" := APickle set_of_disps_m]> fs2))
         (log w ++ [EvWrite "POSCAR"; EvWrite "SPOSCAR"; EvWrite "disp_matrix.pkl";
                    EvWrite "force_matrix.pkl"]))
  end.
Proof.
  unfold accumulate_dataset. msimpl.
  destruct (accumulate _ _ _ _) as [e|[disps fs_]];
    cbn [fs log]; rewrite <- ?app_assoc; reflexivity.
Qed.

(** Failed primary fit: either a structure file cannot be read back, before
    any solver process, or the four solver processes have run and
    FORCE_CONSTANTS cannot be parsed. *)
Lemma primary_fit_inl E i ph n w e w' :
  primary_fit E i ph n w = (inl e, w') →
  (w' = w ∧ ∃ f, f ∈ ["POSCAR"; "SPOSCAR"] ∧ (e = FileNotFoundError f ∨ e = ParseError f)) ∨
  ((e = FileNotFoundError "FORCE_CONSTANTS" ∨ e = ParseError "FORCE_CONSTANTS") ∧
   ∃ c1 s1 c2 s2 c3 s3 c4 s4,
     log w' = log w ++ [EvSubprocess c1 s1; EvSubprocess c2 s2; EvSubprocess c3 s3;
                        EvSubprocess c4 s4]).
Proof.
  intros H. unfold primary_fit, read_structure, parse_FORCE_CONSTANTS, read_file in H.
  msimpl_in H. mcase H; simplify_eq;
    first
      [ left; split; [reflexivity|];
        first
          [ exists "POSCAR"; split;
            [rewrite !elem_of_cons; auto | first [left; reflexivity | right; reflexivity]]
          | exists "SPOSCAR"; split;
            [rewrite !elem_of_cons; auto
            | first [left; reflexivity | right; reflexivity]] ]
      | right; split; [first [left; reflexivity | right; reflexivity]|];
        eexists _, _, _, _, _, _, _, _; cbn [log]; rewrite <- ?app_assoc; reflexivity ].
Qed.

(** One band-structure computation never fails. *)
Lemma run_band_structure_run E i ph p a b w :
  let freqs := band_frequencies E ph (qpoints p) (connections p) a b in
  let plot := default "phonon_band_structure.pdf" (kw_filename_bs (kwargs i)) in
  run_band_structure E i ph p a b w =
  (inr (mkBS freqs (kpath_dict p) (bool_decide (born i ≠ None))),
   mkWorld (<[plot := AFigure]> (<["phonon_band_structure.yaml" := ABandYaml freqs]> (fs w)))
     (log w ++ [EvRunBandStructure ph a b; EvWrite "phonon_band_structure.yaml";
                EvSavePlot plot])).
Proof.
  unfold run_band_structure, get_ph_bs_symm_line, read_file. msimpl.
  rewrite lookup_insert_eq. msimpl. cbn [fs log]. rewrite <- ?app_assoc. reflexivity.
Qed.

(** The band structure of the primary fit (lines 493-527). *)
Lemma initial_bands_run E i ph w :
  let eig := default false (kw_band_structure_eigenvectors (kwargs i)) in
  initial_bands E i ph w =
  match band_path E i ph with
  | inl e => (inl e, w)
  | inr p =>
      let bs := mkBS (band_frequencies E ph (qpoints p) (connections p) eig eig)
                  (kpath_dict p) (bool_decide (born i ≠ None)) in
      (inr (p, bs, has_imaginary_freq bs (tol_imaginary_modes i)),
       snd (run_band_structure E i ph p eig eig w))
  end.
Proof.
  unfold initial_bands. rewrite bind_unfold, lift_unfold.
  destruct (band_path E i ph) as [e|p]; [reflexivity|].
  rewrite bind_unfold, run_band_structure_run. reflexivity.
Qed.

Lemma res_mapM_inl {A B} (f : A → Res B) (l : list A) (e : exn) :
  res_mapM f l = inl e → ∃ x, x ∈ l ∧ f x = inl e.
Proof.
  induction l as [|x l IH]; simpl; [discriminate|].
  destruct (f x) as [e1|y] eqn:Hx.
  - intros [= ->]. exists x. split; [rewrite elem_of_cons; auto | exact Hx].
  - destruct (res_mapM f l) as [e2|ys]; [|discriminate].
    intros [= ->]. destruct (IH eq_refl) as (x' & Hin & Hx').
    exists x'. split; [rewrite elem_of_cons; auto | exact Hx'].
Qed.

Lemma get_kpath_error E structure_ scheme symprec_ e :
  get_kpath E structure_ scheme symprec_ = inl e →
  e = ValueError (kpath_msg scheme) ∨ ∃ label, e = KeyError label.
Proof.
  unfold get_kpath. rewrite res_bind_unfold.
  set (lk := λ kp : KPath, res_mapM (res_mapM (λ label : string,
         match kp_kpoints kp !! label with
         | Some q => inr q
         | None => inl (KeyError label)
         end)) (kp_path kp)).
  assert (Hlk : ∀ kp e', lk kp = inl e' → ∃ label, e' = KeyError label).
  { intros kp e' Hm. apply res_mapM_inl in Hm as (x & _ & Hx).
    apply res_mapM_inl in Hx as (label & _ & Hl).
    destruct (_ !! label); [discriminate|]. inversion Hl. eauto. }
  repeat case_decide; rewrite ?res_bind_unfold; intros Hq.
  - right. fold (lk (HighSymmKpath E structure_ scheme symprec_)) in Hq.
    destruct (lk _) as [e'|path] eqn:Hm; [|discriminate].
    inversion Hq; subst. eauto.
  - right. fold (lk (KPathSeek E structure_ symprec_)) in Hq.
    destruct (lk _) as [e'|path] eqn:Hm; [|discriminate].
    inversion Hq; subst. eauto.
  - left. now inversion Hq.
Qed.

Lemma band_path_error E i ph e :
  band_path E i ph = inl e →
  e = ValueError (kpath_msg (kpath_scheme i)) ∨ ∃ label, e = KeyError label.
Proof.
  unfold band_path. rewrite res_bind_unfold.
  destruct (get_kpath _ _ _ _) as [e'|[d c]] eqn:Hk.
  - intros [= ->]. eapply get_kpath_error, Hk.
  - destruct (get_band_qpoints_and_path_connections _ _ _). discriminate.
Qed.

(** ** Errors of the steps before path resolution *)

Lemma np_array_error samples e : np_array samples = inl e → e = ValueError inhomogeneous_msg.
Proof.
  unfold np_array. destruct samples; [discriminate|].
  destruct (forallb _ _); [discriminate|]. now intros [= <-].
Qed.

Lemma rows_sub_error a b e : rows_sub a b = inl e → e = ValueError broadcast_msg.
Proof.
  unfold rows_sub. destruct (Nat.eqb _ _); [discriminate|].
  destruct a as [|x [|x' a]], b as [|y [|y' b]]; try discriminate; now intros [= <-].
Qed.

Lemma accumulate_error E n ref d e : accumulate E n ref d = inl e → numpy_error e.
Proof.
  unfold accumulate, numpy_error. intros H.
  destruct (n <? 1)%nat.
  - rewrite res_bind_unfold in H.
    destruct (np_array (forces d)) eqn:H1;
      [apply np_array_error in H1; inversion H; subst; auto|].
    rewrite res_bind_unfold in H.
    destruct (np_array (map cart_coords (displaced_structures d))) eqn:H2;
      [apply np_array_error in H2; inversion H; subst; auto | discriminate].
  - rewrite res_bind_unfold in H.
    destruct (np_array (forces d)) eqn:H1;
      [apply np_array_error in H1; inversion H; subst; auto|].
    rewrite res_bind_unfold in H.
    destruct (last_sample l) eqn:H2.
    { unfold last_sample in H2. inversion H; subst.
      destruct (last l) as [[|]|]; inversion H2; auto. }
    rewrite res_bind_unfold in H.
    destruct (np_array (map cart_coords (displaced_structures d))) as [|l0] eqn:H3;
      [apply np_array_error in H3; inversion H; subst; auto|].
    rewrite res_bind_unfold in H.
    destruct l0 as [|c cs]; [inversion H; auto|].
    destruct (res_mapM _ (c :: cs)) eqn:H4; [|discriminate].
    inversion H; subst. apply res_mapM_inl in H4 as (x & _ & Hx).
    apply rows_sub_error in Hx. auto.
Qed.

Lemma attach_born_error E i ph e :
  attach_born E i ph = inl e → e = ValueError born_mismatch_msg.
Proof.
  unfold attach_born. destruct (born i), (epsilon_static i); try discriminate.
  destruct (Nat.eqb _ _); [|now intros [= <-]].
  destruct (symmetrize_borns_and_epsilon _ _ _ _ _ _). discriminate.
Qed.

Lemma get_kpath_unknown E structure_ scheme symprec_ :
  scheme ∉ ["setyawan_curtarolo"; "latimer_munro"; "hinuma"; "seekpath"] →
  get_kpath E structure_ scheme symprec_ = inl (ValueError (kpath_msg scheme)).
Proof.
  intros Hs. unfold get_kpath. rewrite res_bind_unfold.
  rewrite decide_False.
  - rewrite decide_False; [reflexivity|].
    intros ->. apply Hs. rewrite !elem_of_cons. auto.
  - intros Hin. apply Hs. rewrite !elem_of_cons in *. tauto.
Qed.

Lemma kpath_msg_distinct scheme e :
  e = ValueError (factor_msg scheme) ∨ e = ValueError magnetic_msg ∨
  e = ValueError born_mismatch_msg ∨ numpy_error e ∨
  (∃ f, e = FileNotFoundError f ∨ e = ParseError f) →
  ∀ s, e ≠ ValueError (kpath_msg s).
Proof.
  unfold numpy_error.
  intros [->|[->|[->|[[->|[->| ->]]|[f [->| ->]]]]]] s; try discriminate;
    intros [= Heq]; discriminate Heq.
Qed.

Lemma band_path_unknown E i ph :
  kpath_scheme i ∉ ["setyawan_curtarolo"; "latimer_munro"; "hinuma"; "seekpath"] →
  band_path E i ph = inl (ValueError (kpath_msg (kpath_scheme i))).
Proof.
  intros Hs. unfold band_path. now rewrite (get_kpath_unknown _ _ _ _ Hs).
Qed.

(** C7 (as amended).  For an unrecognized path-scheme name [get_kpath]
    raises a [ValueError].  The pipeline then fails; when the exception is
    the one of path resolution, the structure files, the pickled dataset and
    [phonopy.yaml] have been written, the four solver processes of the
    primary fit have run and a parsed FORCE_CONSTANTS lies in the working
    directory. *)
Theorem C7_unknown_path_scheme (E : Env) (i : Inputs) (w : World) :
  kpath_scheme i ∉ ["setyawan_curtarolo"; "latimer_munro"; "hinuma"; "seekpath"] →
  (∀ structure_ symprec_,
     get_kpath E structure_ (kpath_scheme i) symprec_
     = inl (ValueError (kpath_msg (kpath_scheme i)))) ∧
  ∃ e evs,
    fst (from_forces_born E i w) = inl e ∧
    log (snd (from_forces_born E i w)) = log w ++ evs ∧
    (e = ValueError (kpath_msg (kpath_scheme i)) →
       (∀ f, f ∈ ["POSCAR"; "SPOSCAR"; "disp_matrix.pkl"; "force_matrix.pkl"; "phonopy.yaml"] →
             EvWrite f ∈ evs) ∧
       count_events is_solver_invocation evs = 4%nat ∧
       ∃ fc, fs (snd (from_forces_born E i w)) !! "FORCE_CONSTANTS"
             = Some (AForceConstants fc)).
Proof.
  intros Hs. split; [intros; now apply get_kpath_unknown|].
  unfold from_forces_born. rewrite bind_unfold, make_phonopy_run.
  destruct (get_factor E (code i)) as [e1|factor] eqn:Hf.
  { exists e1, []. cbn [fst snd]. rewrite app_nil_r.
    split; [reflexivity|]. split; [reflexivity|].
    intros Heq; exfalso; apply get_factor_error in Hf;
      eapply (kpath_msg_distinct (code i) e1); [left; exact Hf | exact Heq]. }
  destruct (check_magnetic_moments _ _) as [e1|cell] eqn:Hm.
  { exists e1, []. cbn [fst snd]. rewrite app_nil_r.
    split; [reflexivity|]. split; [reflexivity|].
    intros Heq; exfalso;
      eapply (kpath_msg_distinct (code i) e1); [right; left | exact Heq].
    unfold check_magnetic_moments in Hm;
      destruct (magnetic_moments _), (primitive_matrix_of i); try discriminate;
      destruct (existsb _ _); now inversion Hm. }
  cbv beta iota zeta. rewrite bind_unfold, accumulate_dataset_run. cbv zeta.
  destruct (accumulate _ _ _ _) as [e2|[disps frcs]] eqn:Ha.
  { eexists e2, _. cbn [fst snd log]. rewrite <- app_assoc.
    split; [reflexivity|]. split; [reflexivity|].
    intros Heq; exfalso; apply accumulate_error in Ha.
    eapply (kpath_msg_distinct (code i) e2); [do 3 right; left; exact Ha | exact Heq]. }
  cbv beta iota zeta. rewrite bind_unfold, lift_unfold.
  destruct (attach_born _ _ _) as [e3|[[ph3 borns] epsilon]] eqn:Hb.
  { eexists e3, _. cbn [fst snd log]. rewrite <- app_assoc.
    split; [reflexivity|]. split; [reflexivity|].
    intros Heq; exfalso; apply attach_born_error in Hb.
    eapply (kpath_msg_distinct (code i) e3); [do 2 right; left; exact Hb | exact Heq]. }
  cbv beta iota zeta. unfold fit_and_document. rewrite bind_unfold.
  match goal with
  | |- context [primary_fit E i ph3 ?n ?w3] =>
      destruct (primary_fit E i ph3 n w3) as [[e4|[[ph4 prim] sc]] w4] eqn:H4
  end.
  { apply primary_fit_inl in H4 as [[-> (f & _ & Hf4)]|[He4 (c1 & s1 & c2 & s2 & c3 & s3 & c4 & s4 & Hl4)]].
    - eexists e4, _. cbn [fst snd log]. rewrite <- app_assoc.
      split; [reflexivity|]. split; [reflexivity|].
      intros Heq; exfalso.
      eapply (kpath_msg_distinct (code i) e4); [do 4 right; exists f; exact Hf4 | exact Heq].
    - eexists e4, _. cbn [fst snd log] in *. rewrite Hl4, <- !app_assoc.
      split; [reflexivity|]. split; [reflexivity|].
      intros Heq; exfalso.
      eapply (kpath_msg_distinct (code i) e4);
        [do 4 right; exists "FORCE_CONSTANTS"; exact He4 | exact Heq]. }
  cbv beta iota zeta. rewrite bind_unfold, initial_bands_run. cbv zeta.
  rewrite (band_path_unknown E i ph4 Hs).
  apply primary_fit_inr in H4
    as (fc & s1 & s2 & s3 & s4 & fs4 & _ & _ & _ & Hfc & _ & Hfs & Hl4).
  cbn [fs log] in Hl4.
  eexists _, _. cbn [fst snd]. rewrite Hl4, <- !app_assoc.
  split; [reflexivity|]. split; [reflexivity|]. intros _.
  split; [|split].
  - intros f Hin. rewrite !elem_of_cons in Hin. cbn [app]. rewrite !elem_of_cons.
    destruct Hin as [->|[->|[->|[->|[->|Hin]]]]]; [tauto..|].
    now apply elem_of_nil in Hin.
  - reflexivity.
  - exists fc. rewrite Hfs, lookup_insert_ne; [exact Hfc | discriminate].
Qed.

(** Witness of [C7_unknown_path_scheme]: the scheme name ["foo"]. *)
Lemma C7_unknown_path_scheme_witness :
  fst (from_forces_born (Demo.env 0 1 1 1) (Demo.scheme_inputs "foo") Demo.w0)
  = inl (ValueError (kpath_msg "foo")) ∧
  EvWrite "POSCAR" ∈ log (snd (from_forces_born (Demo.env 0 1 1 1)
                                 (Demo.scheme_inputs "foo") Demo.w0)).
Proof.
  destruct (C7_unknown_path_scheme (Demo.env 0 1 1 1) (Demo.scheme_inputs "foo") Demo.w0)
    as [_ (e & evs & He & Hlog & Himp)].
  - intros Hin. apply (bool_decide_pack _) in Hin. vm_compute in Hin. exact Hin.
  - assert (Hrun : fst (from_forces_born (Demo.env 0 1 1 1) (Demo.scheme_inputs "foo") Demo.w0)
                   = inl (ValueError (kpath_msg "foo"))) by (vm_compute; reflexivity).
    split; [exact Hrun|].
    rewrite Hrun in He. injection He as <-.
    destruct (Himp eq_refl) as (Hw & _ & _).
    rewrite Hlog. apply elem_of_app. right. apply Hw. rewrite !elem_of_cons. auto.
Defined.

(** C7 (as stated) fails.  With the unrecognized scheme name ["foo"] the
    pipeline, started in an empty working directory, raises the exception
    of path resolution, and by then the structure files, the dataset
    artifacts and the force constants are in the working directory. *)
Lemma C7_counterexample :
  let run := from_forces_born (Demo.env 0 1 1 1) (Demo.scheme_inputs "foo") Demo.w0 in
  fs Demo.w0 = ∅ ∧
  fst run = inl (ValueError (kpath_msg "foo")) ∧
  Forall (λ f, fs (snd run) !! f ≠ None)
    ["POSCAR"; "SPOSCAR"; "disp_matrix.pkl"; "force_matrix.pkl"; "FORCE_CONSTANTS";
     "phonopy.yaml"].
Proof.
  cbv zeta. split; [reflexivity|]. split; [vm_compute; reflexivity|].
  repeat constructor; vm_compute; discriminate.
Qed.

(** ** The primary fit (lines 454-490) *)

Lemma none_of_not_Exists c evs :
  none_of c evs → ¬ Exists (λ e, c e = true) evs.
Proof.
  unfold none_of, all_events. rewrite Forall_forall, Exists_exists.
  intros H (e & Hin & He). rewrite (H e Hin) in He. discriminate.
Qed.

(** ** The hiphive pass (lines 530-568) *)

Lemma hiphive_pass_false E i ph prim sc p bs w :
  hiphive_pass E i ph prim sc p bs false w = (inr (ph, bs, false, false), w).
Proof. reflexivity. Qed.

(** The pass once it has started: the cluster space, the array read from
    FORCE_CONSTANTS, the rebuilt force constants, the band structure. *)
Lemma hiphive_pass_true E i ph prim sc p bs w :
  hiphive_pass E i ph prim sc p bs true w =
  match hiphive_cluster_space E prim sc with
  | inl e => (inl e, w)
  | inr cs =>
      match fs w !! "FORCE_CONSTANTS" with
      | None => (inl (FileNotFoundError "FORCE_CONSTANTS"), w)
      | Some (AForceConstants fc) =>
          match hiphive_force_constants E cs sc fc with
          | inl e => (inl e, w)
          | inr fcs =>
              let ph' := set_force_constants (symmetrize_force_constants E ph fcs) ph in
              let freqs := band_frequencies E ph' (qpoints p) (connections p) true false in
              let bs' := mkBS freqs (kpath_dict p) (bool_decide (born i ≠ None)) in
              let plot := default "phonon_band_structure.pdf" (kw_filename_bs (kwargs i)) in
              (inr (ph', bs', true, has_imaginary_freq bs' (tol_imaginary_modes i)),
               mkWorld
                 (<[plot := AFigure]>
                    (<["phonon_band_structure.yaml" := ABandYaml freqs]>
                       (<["FORCE_CONSTANTS_new" := AForceConstants fcs]> (fs w))))
                 (log w ++ [EvWrite "FORCE_CONSTANTS_new"; EvRunBandStructure ph' true false;
                            EvWrite "phonon_band_structure.yaml"; EvSavePlot plot]))
          end
      | Some _ => (inl (ParseError "FORCE_CONSTANTS"), w)
      end
  end.
Proof.
  unfold hiphive_pass, hiphive_cluster_space, hiphive_force_constants, new_ClusterSpace,
    read_phonopy, parse_FORCE_CONSTANTS, read_file.
  rewrite bind_unfold, lift_unfold, res_bind_unfold.
  destruct (estimate_maximum_cutoff E sc) as [e|maximum_cutoff]; [reflexivity|].
  cbv beta iota zeta. rewrite bind_unfold, lift_unfold, res_bind_unfold.
  destruct (cluster_space_check E prim _) as [e|[]]; [reflexivity|].
  cbv beta iota. change (mret (mkClusterSpace prim [PrimFloat.sub maximum_cutoff f_0_01]))
    with (inr (mkClusterSpace prim [PrimFloat.sub maximum_cutoff f_0_01]) : Res ClusterSpace).
  cbv beta iota. rewrite !bind_unfold.
  destruct (fs w !! "FORCE_CONSTANTS") as [[]|]; try reflexivity.
  msimpl. rewrite res_bind_unfold.
  destruct (ForceConstants_from_arrays E sc fc) as [e|fcs]; [reflexivity|].
  cbv beta iota. rewrite res_bind_unfold.
  destruct (extract_parameters E fcs _) as [e|parameters]; [reflexivity|].
  cbv beta iota. rewrite res_bind_unfold.
  destruct (enforce_rotational_sum_rules E _ parameters _ _) as [e|parameters_rot];
    [reflexivity|].
  cbv beta iota.
  destruct (fcp_get_force_constants E _ parameters_rot sc) as [e|fcs_new]; [reflexivity|].
  cbv beta iota. rewrite lookup_insert_eq. cbv beta iota.
  rewrite run_band_structure_run. cbv beta iota zeta. cbn [fs log].
  rewrite <- ?app_assoc. reflexivity.
Qed.

(** ** The refit with the reduced cutoff (lines 570-633) *)

Lemma refit_pass_false E i ph n bs im w :
  refit_pass E i ph n bs im false w = (inr (ph, bs, im), w).
Proof. reflexivity. Qed.

Lemma refit_pass_true_inr E i ph n bs im w ph' bs' im' w' :
  refit_pass E i ph n bs im true w = (inr (ph', bs', im'), w') →
  let ph1 := set_displacements (generate_displacements E ph f_0_01) ph in
  ∃ fc p s1 s2 s3 s4,
    ph' = set_force_constants (symmetrize_force_constants E ph1 fc) ph1 ∧
    band_path E i ph' = inr p ∧
    bs' = mkBS (band_frequencies E ph' (qpoints p) (connections p) true false)
            (kpath_dict p) (bool_decide (born i ≠ None)) ∧
    im' = has_imaginary_freq bs' (tol_imaginary_modes i) ∧
    log w' = log w ++
      [EvSubprocess (pheasy_cmd_11 (supercell_matrix i)) s1;
       EvSubprocess (pheasy_cmd_12 (supercell_matrix i)) s2;
       EvSubprocess (pheasy_cmd_13 (supercell_matrix i) n) s3;
       EvSubprocess (pheasy_cmd_14 (supercell_matrix i) n (length (displacements ph1))) s4;
       EvWrite "phonopy.yaml";
       EvRunBandStructure ph' true false;
       EvWrite "phonon_band_structure.yaml";
       EvSavePlot (default "phonon_band_structure.pdf" (kw_filename_bs (kwargs i)))].
Proof.
  intros H. unfold refit_pass, parse_FORCE_CONSTANTS, read_file in H.
  msimpl_in H.
  destruct (_ !! "FORCE_CONSTANTS") as [[]|] eqn:Hfc in H; try discriminate H.
  cbv beta iota zeta in H. cbn [fs log] in H.
  destruct (band_path E i _) as [e|p] eqn:Hp in H; [discriminate H|].
  rewrite run_band_structure_run in H. cbv beta iota zeta in H. cbn [fs log] in H.
  inversion H; subst; clear H. cbn [log].
  eexists _, p, _, _, _, _. repeat split; try reflexivity; try exact Hp.
  rewrite <- ?app_assoc. reflexivity.
Qed.

Lemma refit_pass_true_inl E i ph n bs im w e w' :
  refit_pass E i ph n bs im true w = (inl e, w') →
  (e = FileNotFoundError "FORCE_CONSTANTS" ∨ e = ParseError "FORCE_CONSTANTS") ∨
  ∃ fc, band_path E i
          (set_force_constants fc
             (set_displacements (generate_displacements E ph f_0_01) ph)) = inl e.
Proof.
  intros H. unfold refit_pass, parse_FORCE_CONSTANTS, read_file in H.
  msimpl_in H.
  destruct (_ !! "FORCE_CONSTANTS") as [[]|] eqn:Hfc in H;
    cbv beta iota zeta in H; cbn [fs log] in H;
    try (left; right; now inversion H); try (left; left; now inversion H).
  destruct (band_path E i _) as [e'|p] eqn:Hp in H.
  - right. inversion H; subst. eauto.
  - rewrite run_band_structure_run in H. discriminate H.
Qed.

(** The path of the band structure only depends on the cell. *)
Lemma band_path_set_force_constants E i fc ph :
  band_path E i (set_force_constants fc ph) = band_path E i ph.
Proof. reflexivity. Qed.

Lemma band_path_set_displacements E i d ph :
  band_path E i (set_displacements d ph) = band_path E i ph.
Proof. reflexivity. Qed.

(** ** The complete run *)

Lemma from_forces_born_inr E i w doc w' :
  from_forces_born E i w = (inr doc, w') →
  ∃ ph1 cell w1 ph2 n w2 ph3 borns eps ph4 prim sc w4 p bs5 im5 w5
    ph6 bs6 im6 imh w6 ph7 bs7 im7 w7,
    make_phonopy E i w = (inr (ph1, cell), w1) ∧
    accumulate_dataset E i ph1 cell w1 = (inr (ph2, n), w2) ∧
    attach_born E i ph2 = inr (ph3, borns, eps) ∧
    primary_fit E i ph3 n w2 = (inr (ph4, prim, sc), w4) ∧
    initial_bands E i ph4 w4 = (inr (p, bs5, im5), w5) ∧
    hiphive_pass E i ph4 prim sc p bs5 im5 w5 = (inr (ph6, bs6, im6, imh), w6) ∧
    refit_pass E i ph6 n bs6 im6 imh w6 = (inr (ph7, bs7, im7), w7) ∧
    dos_and_document E i ph7 borns eps bs7 im7 w7 = (inr doc, w').
Proof.
  unfold from_forces_born. intros H.
  rewrite bind_unfold in H.
  destruct (make_phonopy E i w) as [[?|[ph1 cell]] w1] eqn:H1; [discriminate|].
  cbv beta iota in H. rewrite bind_unfold in H.
  destruct (accumulate_dataset E i ph1 cell w1) as [[?|[ph2 n]] w2] eqn:H2; [discriminate|].
  cbv beta iota in H. rewrite bind_unfold, lift_unfold in H.
  destruct (attach_born E i ph2) as [?|[[ph3 borns] eps]] eqn:H3; [discriminate|].
  cbv beta iota in H. unfold fit_and_document in H. rewrite bind_unfold in H.
  destruct (primary_fit E i ph3 n w2) as [[?|[[ph4 prim] sc]] w4] eqn:H4; [discriminate|].
  cbv beta iota in H. rewrite bind_unfold in H.
  destruct (initial_bands E i ph4 w4) as [[?|[[p bs5] im5]] w5] eqn:H5; [discriminate|].
  cbv beta iota in H. rewrite bind_unfold in H.
  destruct (hiphive_pass E i ph4 prim sc p bs5 im5 w5)
    as [[?|[[[ph6 bs6] im6] imh]] w6] eqn:H6; [discriminate|].
  cbv beta iota in H. rewrite bind_unfold in H.
  destruct (refit_pass E i ph6 n bs6 im6 imh w6)
    as [[?|[[ph7 bs7] im7]] w7] eqn:H7; [discriminate|].
  cbv beta iota in H.
  exists ph1, cell, w1, ph2, n, w2, ph3, borns, eps, ph4, prim, sc, w4, p, bs5, im5, w5,
    ph6, bs6, im6, imh, w6, ph7, bs7, im7, w7.
  repeat split; assumption.
Qed.

(** ** Density of states and the document (lines 636-780) *)

Lemma dos_and_document_inr E i ph borns eps bs im w doc w' :
  dos_and_document E i ph borns eps bs im w = (inr doc, w') →
  let primitive := get_pmg_structure E (primitive_of E ph) in
  let mesh := automatic_density E primitive (default 7000 (kw_kpoint_density_dos (kwargs i))) in
  let dos := total_dos E ph mesh in
  doc_born doc = borns ∧ doc_epsilon_static doc = eps ∧
  phonon_bandstructure doc = bs ∧ has_imaginary_modes doc = im ∧
  phonon_dos doc = dos ∧
  ∃ series,
    thermodynamics E (kwargs i) dos primitive = inr series ∧
    temperatures doc = ts_temperatures series ∧
    free_energies doc = ts_free_energies series ∧
    entropies doc = ts_entropies series ∧
    internal_energies doc = ts_internal_energies series ∧
    heat_capacities doc = ts_heat_capacities series.
Proof.
  intros H. unfold dos_and_document, get_ph_dos, read_file in H.
  msimpl_in H.
  destruct (default false (kw_band_structure_eigenvectors (kwargs i)));
    cbv beta iota zeta in H; cbn [fs log fst snd] in H;
    rewrite lookup_insert_eq in H; cbv beta iota zeta in H; cbn [fs log fst snd] in H;
    (destruct (thermodynamics E (kwargs i) _ _) as [?|series] eqn:Hth in H;
     [discriminate H|]);
    mcase H; inversion H; subst; clear H; cbn;
    (repeat split; try reflexivity); exists series; repeat split; try reflexivity;
    exact Hth.
Qed.

(** Whatever its arguments and its outcome, the last stage computes the
    total density of states, and no band structure any more. *)
Lemma dos_and_document_runs_dos E i ph borns eps bs im :
  emits (λ evs, EvRunTotalDos ∈ evs ∧ none_of is_band_structure evs)
    (dos_and_document E i ph borns eps bs im).
Proof.
  apply emits_and; [|emits_none].
  unfold dos_and_document. cbv zeta. intros w.
  rewrite bind_unfold.
  destruct (default false (kw_band_structure_eigenvectors (kwargs i))).
  - unfold write_file at 1. cbv beta iota.
    do 2 (rewrite bind_unfold; unfold emit at 1; cbv beta iota).
    match goal with
    | |- context [snd (?k ?w2)] => destruct (emits_any k w2) as [evs Hevs]; [emits_none|]
    end.
    eexists. split; [rewrite Hevs; cbn [log]; rewrite <- ?app_assoc; reflexivity|].
    cbn [app]. rewrite !elem_of_cons. auto.
  - change ((mret () : M ()) w) with (inr () : Res (), w). cbv beta iota.
    do 2 (rewrite bind_unfold; unfold emit at 1; cbv beta iota).
    match goal with
    | |- context [snd (?k ?w2)] => destruct (emits_any k w2) as [evs Hevs]; [emits_none|]
    end.
    eexists. split; [rewrite Hevs; cbn [log]; rewrite <- ?app_assoc; reflexivity|].
    cbn [app]. rewrite !elem_of_cons. auto.
Qed.

(** ** The temperature grid (lines 661-687) *)

Lemma np_arange_inr start stop step :
  step ≠ 0 →
  np_arange start stop step
  = inr (map (λ k : nat, start + Z.of_nat k * step) (seq 0 (grid_length start stop step))).
Proof.
  intros Hs. unfold np_arange. apply Z.eqb_neq in Hs. now rewrite Hs.
Qed.

Lemma np_arange_inl start stop step e :
  np_arange start stop step = inl e → step = 0.
Proof.
  unfold np_arange. destruct (step =? 0) eqn:Hs; [|discriminate].
  intros _. now apply Z.eqb_eq.
Qed.

Lemma lookup_map_seq {A} (f : nat → A) (n j : nat) (x : A) :
  map f (seq 0 n) !! j = Some x ↔ (j < n)%nat ∧ x = f j.
Proof.
  rewrite lookup_map. split.
  - intros H. apply fmap_Some in H as (k & Hk & ->).
    apply lookup_seq in Hk as [-> ?]. auto.
  - intros [Hj ->]. apply fmap_Some. exists j. split; [|reflexivity].
    apply lookup_seq. auto.
Qed.

Lemma grid_length_lt start stop step (j : nat) :
  0 < step →
  (j < grid_length start stop step)%nat ↔ start + Z.of_nat j * step < stop.
Proof.
  intros Hs. unfold grid_length.
  assert (Hdm := Z.div_mod (- (stop - start)) step ltac:(lia)).
  assert (Hr := Z.mod_pos_bound (- (stop - start)) step Hs).
  set (q := (- (stop - start)) `div` step) in *.
  set (r := (- (stop - start)) `mod` step) in *.
  split; intros H.
  - assert (Z.of_nat j < - q) by lia. nia.
  - assert (Z.of_nat j < - q) by nia. lia.
Qed.

Lemma thermodynamics_inr E k dos primitive series :
  thermodynamics E k dos primitive = inr series →
  let temps := map (λ j : nat, default 0 (kw_tmin k) + Z.of_nat j * default 10 (kw_tstep k))
                 (seq 0 (grid_length (default 0 (kw_tmin k)) (default 500 (kw_tmax k))
                           (default 10 (kw_tstep k)))) in
  default 10 (kw_tstep k) ≠ 0 ∧
  series = mkSeries temps
             (map (λ temp, helmholtz_free_energy E dos temp primitive) temps)
             (map (λ temp, entropy E dos temp primitive) temps)
             (map (λ temp, internal_energy E dos temp primitive) temps)
             (map (λ temp, cv E dos temp primitive) temps).
Proof.
  unfold thermodynamics. rewrite res_bind_unfold.
  destruct (np_arange _ _ _) as [e|temps] eqn:Ha; [discriminate|].
  intros [= <-].
  destruct (decide (default 10 (kw_tstep k) = 0)) as [Hz|Hnz].
  - unfold np_arange in Ha. rewrite Hz in Ha. discriminate.
  - rewrite (np_arange_inr _ _ _ Hnz) in Ha. inversion Ha; subst. auto.
Qed.

(** C8.  The thermodynamic stage succeeds for every nonzero stride.  In
    every document returned, the four arrays have the length of the
    temperature list, position [j] of each array is the quantity evaluated
    at the [j]-th temperature [t_min + j * t_step]; for a positive stride the
    temperatures are exactly the points [t_min + j * t_step] of the half-open
    interval [[t_min, t_max)]; the defaults are 0, 500 and 10. *)
Theorem C8_thermodynamic_grid (E : Env) (i : Inputs) :
  let t_min := default 0 (kw_tmin (kwargs i)) in
  let t_max := default 500 (kw_tmax (kwargs i)) in
  let t_step := default 10 (kw_tstep (kwargs i)) in
  (∀ dos primitive, t_step ≠ 0 →
     ∃ series, thermodynamics E (kwargs i) dos primitive = inr series) ∧
  ∀ w doc, fst (from_forces_born E i w) = inr doc →
    length (free_energies doc) = length (temperatures doc) ∧
    length (entropies doc) = length (temperatures doc) ∧
    length (internal_energies doc) = length (temperatures doc) ∧
    length (heat_capacities doc) = length (temperatures doc) ∧
    (∃ primitive,
       ∀ (j : nat) t, temperatures doc !! j = Some t →
         t = t_min + Z.of_nat j * t_step ∧
         free_energies doc !! j
         = Some (helmholtz_free_energy E (phonon_dos doc) t primitive) ∧
         entropies doc !! j = Some (entropy E (phonon_dos doc) t primitive) ∧
         internal_energies doc !! j
         = Some (internal_energy E (phonon_dos doc) t primitive) ∧
         heat_capacities doc !! j = Some (cv E (phonon_dos doc) t primitive)) ∧
    (0 < t_step →
       ∀ t, t ∈ temperatures doc ↔
            t_min ≤ t < t_max ∧ ∃ j : nat, t = t_min + Z.of_nat j * t_step) ∧
    (kw_tmin (kwargs i) = None → kw_tmax (kwargs i) = None → kw_tstep (kwargs i) = None →
       temperatures doc = map (λ j : nat, Z.of_nat j * 10) (seq 0 50)).
Proof.
  cbv zeta. split.
  - intros dos primitive Hs. unfold thermodynamics.
    rewrite (np_arange_inr _ _ _ Hs), res_bind_unfold. eauto.
  - intros w doc Hrun.
    destruct (from_forces_born E i w) as [r w'] eqn:Hffb. cbn [fst] in Hrun. subst r.
    apply from_forces_born_inr in Hffb
      as (ph1 & cell & w1 & ph2 & n & w2 & ph3 & borns & eps & ph4 & prim & sc & w4 & p &
          bs5 & im5 & w5 & ph6 & bs6 & im6 & imh & w6 & ph7 & bs7 & im7 & w7 &
          _ & _ & _ & _ & _ & _ & _ & Hdoc).
    apply dos_and_document_inr in Hdoc
      as (_ & _ & _ & _ & Hdos & series & Hth & -> & -> & -> & -> & ->).
    apply thermodynamics_inr in Hth as [Hnz ->]. cbn.
    rewrite !length_map.
    split; [reflexivity|]. split; [reflexivity|]. split; [reflexivity|].
    split; [reflexivity|]. split; [|split].
    + exists (get_pmg_structure E (primitive_of E ph7)). intros j t Hj.
      pose proof Hj as Hj'. apply lookup_map_seq in Hj' as [_ ->].
      split; [reflexivity|]. rewrite Hdos.
      rewrite !(lookup_map _ (map _ _)), Hj. repeat split; reflexivity.
    + intros Hpos t. rewrite list_elem_of_lookup. split.
      * intros [j Hj]. apply lookup_map_seq in Hj as [Hlt ->].
        apply grid_length_lt in Hlt; [|exact Hpos].
        split; [nia|]. eauto.
      * intros [[Hlo Hhi] [j ->]]. exists j. apply lookup_map_seq.
        split; [|reflexivity]. apply grid_length_lt; [exact Hpos | exact Hhi].
    + intros -> -> ->. vm_compute. reflexivity.
Qed.

(** Witness of [C8_thermodynamic_grid]: the default grid. *)
Lemma C8_thermodynamic_grid_witness :
  (∃ series, thermodynamics (Demo.env 0 1 1 1) Demo.demo_kwargs (mkDos [] []) Demo.demo_structure
             = inr series) ∧
  ∃ doc, fst (from_forces_born (Demo.env 0 1 1 1) Demo.demo_inputs Demo.w0) = inr doc ∧
         length (free_energies doc) = 50%nat ∧
         temperatures doc !! 49%nat = Some 490.
Proof.
  destruct (C8_thermodynamic_grid (Demo.env 0 1 1 1) Demo.demo_inputs) as [H1 H2].
  split.
  - apply H1. vm_compute. discriminate.
  - assert (Hrun : ∃ doc, fst (from_forces_born (Demo.env 0 1 1 1) Demo.demo_inputs Demo.w0)
                          = inr doc) by (vm_compute; eexists; reflexivity).
    destruct Hrun as [doc Hdoc]. exists doc. split; [exact Hdoc|].
    destruct (H2 Demo.w0 doc Hdoc) as (L1 & _ & _ & _ & _ & _ & Hdef).
    rewrite L1, (Hdef eq_refl eq_refl eq_refl). split; reflexivity.
Defined.

(** ** The flag [has_imaginary_modes] *)

(** C5 (failing input).  The primary fit is unstable (lowest branch -1) and
    the hiphive pass repairs it (lowest branch 1): the document carries the
    repaired band structure, which has no frequency below [-1e-5], and yet
    [has_imaginary_modes] is true. *)
Theorem C5_flag_stale_after_hiphive_pass :
  ∃ doc,
    fst (from_forces_born (Demo.env 0 (-1) 1 1) Demo.demo_inputs Demo.w0) = inr doc ∧
    bands (phonon_bandstructure doc) = [[1%float; 1%float]; [1%float; 2%float]] ∧
    has_imaginary_freq (phonon_bandstructure doc) f_1e_5 = false ∧
    has_imaginary_modes doc = true.
Proof.
  eexists. split; [vm_compute; reflexivity|]. repeat split.
Qed.

(** ** The non-analytic correction (lines 421-445) *)

Lemma forallb_false_Exists {A} (f : A → bool) (l : list A) :
  forallb f l = false → Exists (λ x, f x = false) l.
Proof.
  induction l as [|x l IH]; simpl; [discriminate|].
  destruct (f x) eqn:Hx; simpl; [intros H; right; auto | intros _; left; exact Hx].
Qed.

Lemma attach_born_inr E i ph ph' borns eps :
  attach_born E i ph = inr (ph', borns, eps) →
  let sym b e := symmetrize_borns_and_epsilon E ph b e (symprec i)
                   (default true (kw_symmetrize_born (kwargs i))) in
  (nac_params ph' = nac_params ph ∨
   ∃ nac, nac_params ph' = Some nac ∧ nac_justified E i nac) ∧
  (code i ≠ "vasp" → ph' = ph) ∧
  (∀ b e, born i = Some b → epsilon_static i = Some e →
          borns = Some (fst (sym b e)) ∧ eps = Some (snd (sym b e)) ∧
          (code i = "vasp" →
           Exists (λ x, isclose0 x = false) (concat (map Matrix3D_list (fst (sym b e)))) →
           nac_params ph' = Some (mkNac (fst (sym b e)) (snd (sym b e)) f_nac_factor))) ∧
  (born i = None ∨ epsilon_static i = None → ph' = ph ∧ borns = None ∧ eps = None).
Proof.
  unfold attach_born. intros H. cbv zeta.
  destruct (born i) as [b|] eqn:Hb, (epsilon_static i) as [e|] eqn:He;
    try (inversion H; subst; repeat split; auto; try discriminate;
         intros [?|?]; discriminate).
  destruct (Nat.eqb _ _) eqn:Hlen; [|discriminate].
  apply Nat.eqb_eq in Hlen.
  destruct (symmetrize_borns_and_epsilon E ph b e (symprec i) _) as [bs ep] eqn:Hsym.
  destruct (decide (code i = "vasp")) as [Hc|Hc].
  - destruct (forallb isclose0 _) eqn:Hclose; inversion H; subst; clear H.
    + split; [left; reflexivity|]. split; [reflexivity|]. split; [|intros [?|?]; discriminate].
      intros b' e' [= <-] [= <-]. rewrite Hsym. cbn [fst snd].
      repeat split. intros _ Hex. exfalso.
      apply Exists_exists in Hex as (x & Hin & Hx).
      rewrite forallb_forall in Hclose. apply list_elem_of_In, Hclose in Hin. congruence.
    + apply forallb_false_Exists in Hclose.
      split; [|split; [intros; contradiction|split; [|intros [?|?]; discriminate]]].
      * right. eexists. split; [reflexivity|].
        exists b, e, ph. rewrite Hb, He, Hsym. cbn [fst snd]. repeat split; auto.
      * intros b' e' [= <-] [= <-]. rewrite Hsym. cbn [fst snd]. repeat split.
  - inversion H; subst; clear H.
    split; [left; reflexivity|]. split; [reflexivity|]. split; [|intros [?|?]; discriminate].
    intros b' e' [= <-] [= <-]. rewrite Hsym. cbn [fst snd]. repeat split.
    intros; contradiction.
Qed.

Lemma keeps_intro {A} (P : event → Prop) (R : A → Prop) (m : M A) :
  emits (all_events P) m → (∀ w a w', m w = (inr a, w') → R a) → keeps P R m.
Proof.
  intros He Hr w. destruct (He w) as (evs & Hl & Hp). exists evs.
  split; [exact Hl|]. split; [exact Hp|].
  intros a Ha. destruct (m w) as [r w'] eqn:Hm. cbn in Ha. subst r. eauto.
Qed.

Lemma keeps_bind {A B} (P : event → Prop) (R : A → Prop) (R' : B → Prop)
    (m : M A) (f : A → M B) :
  keeps P R m → (∀ a, R a → keeps P R' (f a)) → keeps P R' (m ≫= f).
Proof.
  intros Hm Hf w. rewrite bind_unfold.
  destruct (Hm w) as (e1 & Hl1 & Hp1 & Hr1).
  destruct (m w) as [[e|a] w1]; cbn [fst snd] in *.
  - exists e1. split; [exact Hl1|]. split; [exact Hp1|]. intros; discriminate.
  - destruct (Hf a (Hr1 a eq_refl) w1) as (e2 & Hl2 & Hp2 & Hr2).
    exists (e1 ++ e2). split; [now rewrite Hl2, Hl1, app_assoc|].
    split; [now apply Forall_app | exact Hr2].
Qed.

Ltac nac_leaf :=
  unfold nac_inv; cbn [ev_phonon]; intros ? Hp;
  first [discriminate Hp | injection Hp as <-; cbn; assumption].

Lemma primary_fit_nac E i ph n N :
  nac_params ph = N →
  keeps (nac_inv N) (λ '(ph', _, _), nac_params ph' = N) (primary_fit E i ph n).
Proof.
  intros HN. apply keeps_intro; [emits_all nac_leaf|].
  intros w [[ph' prim] sc] w' H.
  apply primary_fit_inr in H as (fc & _ & _ & _ & _ & _ & -> & _). exact HN.
Qed.

Lemma initial_bands_nac E i ph N :
  nac_params ph = N → keeps (nac_inv N) (λ _, True) (initial_bands E i ph).
Proof. intros HN. apply keeps_intro; [emits_all nac_leaf | auto]. Qed.

Lemma hiphive_pass_nac E i ph prim sc p bs im N :
  nac_params ph = N →
  keeps (nac_inv N) (λ '(ph', _, _, _), nac_params ph' = N)
    (hiphive_pass E i ph prim sc p bs im).
Proof.
  intros HN. apply keeps_intro; [emits_all nac_leaf|].
  intros w [[[ph' bs'] a] b] w'. destruct im.
  - rewrite hiphive_pass_true.
    destruct (hiphive_cluster_space E prim sc) as [?|cs]; [discriminate|].
    destruct (fs w !! "FORCE_CONSTANTS") as [[]|]; try discriminate.
    destruct (hiphive_force_constants E cs sc fc) as [?|fcs]; [discriminate|].
    cbv zeta. intros [= <- _ _ _ _]. exact HN.
  - rewrite hiphive_pass_false. intros [= <- _ _ _ _]. exact HN.
Qed.

Lemma refit_pass_nac E i ph n bs im imh N :
  nac_params ph = N →
  keeps (nac_inv N) (λ '(ph', _, _), nac_params ph' = N) (refit_pass E i ph n bs im imh).
Proof.
  intros HN. apply keeps_intro; [emits_all nac_leaf|].
  intros w [[ph' bs'] a] w'. destruct imh.
  - intros H. apply refit_pass_true_inr in H as (fc & p & _ & _ & _ & _ & -> & _). exact HN.
  - rewrite refit_pass_false. intros [= <- _ _ _]. exact HN.
Qed.

Lemma dos_and_document_nac E i ph borns eps bs im N :
  nac_params ph = N →
  keeps (nac_inv N) (λ doc, doc_born doc = borns ∧ doc_epsilon_static doc = eps)
    (dos_and_document E i ph borns eps bs im).
Proof.
  intros HN. apply keeps_intro; [emits_all nac_leaf|].
  intros w doc w' H. apply dos_and_document_inr in H as (? & ? & _). auto.
Qed.

Lemma fit_and_document_nac E i ph n borns eps N :
  nac_params ph = N →
  keeps (nac_inv N) (λ doc, doc_born doc = borns ∧ doc_epsilon_static doc = eps)
    (fit_and_document E i ph n borns eps).
Proof.
  intros HN. unfold fit_and_document.
  eapply keeps_bind; [apply primary_fit_nac, HN|]. intros [[ph4 prim] sc] H4.
  eapply keeps_bind; [apply initial_bands_nac, H4|]. intros [[p bs5] im5] _.
  eapply keeps_bind; [apply hiphive_pass_nac, H4|]. intros [[[ph6 bs6] im6] imh] H6.
  eapply keeps_bind; [apply refit_pass_nac, H6|]. intros [[ph7 bs7] im7] H7.
  apply dos_and_document_nac, H7.
Qed.

(** C10.  All band-structure and mesh computations of a run are performed
    with one and the same correction [N] attached to the phonon object.  A
    correction is attached only when Born charges and a dielectric tensor
    are supplied, the code is ["vasp"] and some symmetrized Born charge is
    not close to zero (and it is attached in that case).  For every other
    code no correction is ever attached, while a returned document stores
    the symmetrized Born charges and dielectric tensor. *)
Theorem C10_nac_only_for_vasp (E : Env) (i : Inputs) (w : World) :
  ∃ evs N,
    log (snd (from_forces_born E i w)) = log w ++ evs ∧
    Forall (nac_inv N) evs ∧
    (∀ nac, N = Some nac → nac_justified E i nac) ∧
    (code i ≠ "vasp" → N = None) ∧
    (∀ doc b e,
       fst (from_forces_born E i w) = inr doc →
       born i = Some b → epsilon_static i = Some e →
       ∃ phonon,
         let sym := symmetrize_borns_and_epsilon E phonon b e (symprec i)
                      (default true (kw_symmetrize_born (kwargs i))) in
         doc_born doc = Some (fst sym) ∧ doc_epsilon_static doc = Some (snd sym) ∧
         (code i = "vasp" →
          Exists (λ x, isclose0 x = false) (concat (map Matrix3D_list (fst sym))) →
          N = Some (mkNac (fst sym) (snd sym) f_nac_factor))).
Proof.
  unfold from_forces_born. rewrite bind_unfold, make_phonopy_run.
  destruct (get_factor E (code i)) as [e1|factor].
  { exists [], None. cbn [fst snd]. rewrite app_nil_r.
    repeat split; try constructor; try discriminate. }
  destruct (check_magnetic_moments _ _) as [e1|cell].
  { exists [], None. cbn [fst snd]. rewrite app_nil_r.
    repeat split; try constructor; try discriminate. }
  cbv beta iota zeta. rewrite bind_unfold, accumulate_dataset_run. cbv zeta.
  destruct (accumulate _ _ _ _) as [e2|[disps frcs]].
  { eexists _, None. cbn [fst snd log]. rewrite <- app_assoc.
    split; [reflexivity|]. split; [repeat constructor; nac_leaf|].
    repeat split; try discriminate. }
  cbv beta iota zeta. rewrite bind_unfold, lift_unfold.
  match goal with
  | |- context [attach_born E i ?ph2] =>
      destruct (attach_born E i ph2) as [e3|[[ph3 borns] eps]] eqn:Hb
  end.
  { eexists _, None. cbn [fst snd log]. rewrite <- app_assoc.
    split; [reflexivity|]. split; [repeat constructor; nac_leaf|].
    repeat split; try discriminate. }
  cbv beta iota zeta.
  apply attach_born_inr in Hb as (Hnac & Hother & Hsym & _). cbn in Hnac.
  match goal with
  | |- context [fit_and_document E i ph3 ?n borns eps ?w3] =>
      set (w3' := w3);
      destruct (fit_and_document_nac E i ph3 n borns eps (nac_params ph3) eq_refl w3')
        as (evs4 & Hl4 & HF4 & HR4)
  end.
  eexists _, (nac_params ph3).
  split; [rewrite Hl4; unfold w3'; cbn [log]; rewrite <- !app_assoc; reflexivity|].
  split; [|split; [|split]].
  - cbn [app]. rewrite !Forall_cons. repeat split; try nac_leaf. exact HF4.
  - intros nac HN. destruct Hnac as [Hnone|(nac' & Hsome & Hj)]; [congruence|].
    rewrite HN in Hsome. now injection Hsome as <-.
  - intros Hc. now rewrite (Hother Hc).
  - intros doc b e Hdoc Hb' He'. destruct (HR4 doc Hdoc) as [Hdb Hde].
    destruct (Hsym b e Hb' He') as (-> & -> & Hvasp).
    eexists. cbv zeta. split; [exact Hdb|]. split; [exact Hde|]. exact Hvasp.
Qed.

(** Witness of [C10_nac_only_for_vasp]: Born charges supplied to a
    force-field calculation are stored and never applied. *)
Lemma C10_nac_only_for_vasp_witness :
  let run := from_forces_born (Demo.env 0 1 1 1)
               (Demo.born_inputs "forcefields" [Demo.unit3; Demo.unit3]) Demo.w0 in
  ∃ doc, fst run = inr doc ∧
         doc_born doc = Some [Demo.unit3; Demo.unit3] ∧
         Forall (nac_inv None) (log (snd run)).
Proof.
  cbv zeta.
  destruct (C10_nac_only_for_vasp (Demo.env 0 1 1 1)
              (Demo.born_inputs "forcefields" [Demo.unit3; Demo.unit3]) Demo.w0)
    as (evs & N & Hlog & HF & _ & Hother & Hdoc).
  assert (Hrun : ∃ doc, fst (from_forces_born (Demo.env 0 1 1 1)
                               (Demo.born_inputs "forcefields" [Demo.unit3; Demo.unit3])
                               Demo.w0) = inr doc)
    by (vm_compute; eexists; reflexivity).
  destruct Hrun as [doc Hrun]. exists doc. split; [exact Hrun|].
  destruct (Hdoc doc _ _ Hrun eq_refl eq_refl) as (phonon & Hb & _).
  split; [exact Hb|].
  rewrite Hlog. rewrite <- (Hother ltac:(discriminate)). exact HF.
Defined.

(** ** At most two corrective passes (lines 530-633) *)

Lemma count_events_nil c : count_events c [] = 0%nat.
Proof. reflexivity. Qed.

Lemma count_events_cons c e l :
  count_events c (e :: l) = ((if c e then 1 else 0) + count_events c l)%nat.
Proof.
  unfold count_events. rewrite filter_cons. destruct (c e).
  - now rewrite decide_True.
  - now rewrite decide_False.
Qed.

Lemma emits_none_at_most {A} c n (m : M A) : emits (none_of c) m → emits (at_most c n) m.
Proof.
  apply emits_weaken. intros evs H. apply none_of_at_most in H.
  unfold at_most in *. lia.
Qed.

Lemma pipeline_at_most E i c n5 n6 n7 :
  emits (none_of c) (make_phonopy E i) →
  (∀ ph cell, emits (none_of c) (accumulate_dataset E i ph cell)) →
  (∀ ph n, emits (none_of c) (primary_fit E i ph n)) →
  (∀ ph, emits (at_most c n5) (initial_bands E i ph)) →
  (∀ ph prim sc p bs im, emits (at_most c n6) (hiphive_pass E i ph prim sc p bs im)) →
  (∀ ph n bs im imh, emits (at_most c n7) (refit_pass E i ph n bs im imh)) →
  (∀ ph borns eps bs im, emits (none_of c) (dos_and_document E i ph borns eps bs im)) →
  emits (at_most c (n5 + n6 + n7)) (from_forces_born E i).
Proof.
  intros H1 H2 H4 H5 H6 H7 H8. unfold from_forces_born, fit_and_document.
  apply (emits_weaken (at_most c (0 + (0 + (0 + (0 + (n5 + (n6 + (n7 + 0))))))))).
  { intros evs. unfold at_most. lia. }
  apply emits_bind_at_most; [now apply emits_none_at_most|]. intros [ph1 cell].
  apply emits_bind_at_most; [now apply emits_none_at_most|]. intros [ph2 n].
  apply emits_bind_at_most; [apply emits_none_at_most, emits_lift|].
  intros [[ph3 borns] eps].
  apply emits_bind_at_most; [now apply emits_none_at_most|]. intros [[ph4 prim] sc].
  apply emits_bind_at_most; [apply H5|]. intros [[p bs5] im5].
  apply emits_bind_at_most; [apply H6|]. intros [[[ph6 bs6] im6] imh].
  apply emits_bind_at_most; [apply H7|]. intros [[ph7 bs7] im7].
  now apply emits_none_at_most.
Qed.

(** The events of the refit pass. *)
Lemma refit_pass_true_log E i ph n bs im w :
  let ph1 := set_displacements (generate_displacements E ph f_0_01) ph in
  ∃ s1 s2 s3 s4 rest,
    log (snd (refit_pass E i ph n bs im true w)) = log w ++
      [EvSubprocess (pheasy_cmd_11 (supercell_matrix i)) s1;
       EvSubprocess (pheasy_cmd_12 (supercell_matrix i)) s2;
       EvSubprocess (pheasy_cmd_13 (supercell_matrix i) n) s3;
       EvSubprocess (pheasy_cmd_14 (supercell_matrix i) n (length (displacements ph1))) s4]
      ++ rest ∧
    (rest = [] ∨ rest = [EvWrite "phonopy.yaml"] ∨
     ∃ ph', rest = [EvWrite "phonopy.yaml"; EvRunBandStructure ph' true false;
                    EvWrite "phonon_band_structure.yaml";
                    EvSavePlot (default "phonon_band_structure.pdf"
                                  (kw_filename_bs (kwargs i)))]).
Proof.
  cbv zeta. unfold refit_pass, parse_FORCE_CONSTANTS, read_file. msimpl.
  destruct (_ !! "FORCE_CONSTANTS") as [[]|] eqn:Hfc;
    cbv beta iota zeta; cbn [fs log fst snd];
    try (eexists _, _, _, _, []; split; [rewrite <- ?app_assoc; reflexivity | auto]).
  destruct (band_path E i _) as [e'|p] eqn:Hp.
  - eexists _, _, _, _, _. split; [rewrite <- ?app_assoc; reflexivity | auto].
  - rewrite run_band_structure_run. cbv beta iota zeta. cbn [fs log fst snd].
    eexists _, _, _, _, _. split; [rewrite <- ?app_assoc; reflexivity|].
    right. right. eexists. reflexivity.
Qed.

(** Evaluates the tests [bool_decide P] of the goal. *)
Ltac eval_bool_decide :=
  repeat match goal with
    | |- context [bool_decide ?P] =>
        let b := eval vm_compute in (bool_decide P) in
        change (bool_decide P) with b
    end.

Ltac count_leaf :=
  intros; try (unfold pheasy_cmd_4, pheasy_cmd_14; destruct (_ <? _)%nat);
  cbn [is_hiphive_pass is_refit_pass is_band_structure]; eval_bool_decide; reflexivity.

Ltac count_explicit :=
  unfold at_most;
  rewrite ?count_events_app, ?count_events_cons, ?count_events_nil;
  try (unfold pheasy_cmd_14; destruct (_ <? _)%nat);
  cbn [is_hiphive_pass is_refit_pass is_band_structure]; eval_bool_decide; cbn; lia.

Lemma initial_bands_counts E i ph :
  emits (λ evs, at_most is_band_structure 1 evs ∧ none_of is_hiphive_pass evs ∧
                none_of is_refit_pass evs) (initial_bands E i ph).
Proof.
  apply emits_and; [|apply emits_and; emits_all count_leaf].
  intros w. rewrite initial_bands_run. cbv zeta.
  destruct (band_path E i ph).
  - exists []. rewrite app_nil_r. split; [reflexivity | count_explicit].
  - rewrite run_band_structure_run. cbv zeta. cbn [snd log].
    eexists. split; [reflexivity | count_explicit].
Qed.

Lemma hiphive_pass_counts E i ph prim sc p bs im :
  emits (λ evs, at_most is_band_structure 1 evs ∧ at_most is_hiphive_pass 1 evs ∧
                none_of is_refit_pass evs) (hiphive_pass E i ph prim sc p bs im).
Proof.
  apply emits_and; [|apply emits_and; [|emits_all count_leaf]].
  - intros w. destruct im.
    + rewrite hiphive_pass_true.
      destruct (hiphive_cluster_space E prim sc) as [?|cs];
        [exists []; rewrite app_nil_r; split; [reflexivity | count_explicit]|].
      destruct (fs w !! "FORCE_CONSTANTS") as [[]|];
        try (exists []; rewrite app_nil_r; split; [reflexivity | count_explicit]).
      destruct (hiphive_force_constants E cs sc fc) as [?|fcs];
        [exists []; rewrite app_nil_r; split; [reflexivity | count_explicit]|].
      cbv zeta. cbn [snd log]. eexists. split; [reflexivity | count_explicit].
    + exists []. rewrite app_nil_r. split; [reflexivity | count_explicit].
  - intros w. destruct im.
    + rewrite hiphive_pass_true.
      destruct (hiphive_cluster_space E prim sc) as [?|cs];
        [exists []; rewrite app_nil_r; split; [reflexivity | count_explicit]|].
      destruct (fs w !! "FORCE_CONSTANTS") as [[]|];
        try (exists []; rewrite app_nil_r; split; [reflexivity | count_explicit]).
      destruct (hiphive_force_constants E cs sc fc) as [?|fcs];
        [exists []; rewrite app_nil_r; split; [reflexivity | count_explicit]|].
      cbv zeta. cbn [snd log]. eexists. split; [reflexivity | count_explicit].
    + exists []. rewrite app_nil_r. split; [reflexivity | count_explicit].
Qed.

Lemma refit_pass_counts E i ph n bs im imh :
  emits (λ evs, at_most is_band_structure 1 evs ∧ none_of is_hiphive_pass evs ∧
                at_most is_refit_pass 1 evs) (refit_pass E i ph n bs im imh).
Proof.
  apply emits_and; [|apply emits_and; [emits_all count_leaf|]].
  - intros w. destruct imh.
    + destruct (refit_pass_true_log E i ph n bs im w)
        as (s1 & s2 & s3 & s4 & rest & Hl & [->|[->|[ph' ->]]]);
        eexists; (split; [exact Hl | count_explicit]).
    + exists []. rewrite app_nil_r. split; [reflexivity | count_explicit].
  - intros w. destruct imh.
    + destruct (refit_pass_true_log E i ph n bs im w)
        as (s1 & s2 & s3 & s4 & rest & Hl & [->|[->|[ph' ->]]]);
        eexists; (split; [exact Hl | count_explicit]).
    + exists []. rewrite app_nil_r. split; [reflexivity | count_explicit].
Qed.

Lemma from_forces_born_counts E i :
  emits (λ evs, at_most is_hiphive_pass 1 evs ∧ at_most is_refit_pass 1 evs ∧
                at_most is_band_structure 3 evs) (from_forces_born E i).
Proof.
  apply emits_and; [|apply emits_and].
  - apply (pipeline_at_most E i is_hiphive_pass 0 1 0); intros;
      try solve [emits_all count_leaf].
    + apply emits_none_at_most.
      eapply emits_weaken; [|apply initial_bands_counts]. now intros evs (_ & ? & _).
    + eapply emits_weaken; [|apply hiphive_pass_counts]. now intros evs (_ & ? & _).
    + apply emits_none_at_most.
      eapply emits_weaken; [|apply refit_pass_counts]. now intros evs (_ & ? & _).
  - apply (pipeline_at_most E i is_refit_pass 0 0 1); intros;
      try solve [emits_all count_leaf].
    + apply emits_none_at_most.
      eapply emits_weaken; [|apply initial_bands_counts]. now intros evs (_ & _ & ?).
    + apply emits_none_at_most.
      eapply emits_weaken; [|apply hiphive_pass_counts]. now intros evs (_ & _ & ?).
    + eapply emits_weaken; [|apply refit_pass_counts]. now intros evs (_ & _ & ?).
  - apply (pipeline_at_most E i is_band_structure 1 1 1); intros;
      try solve [emits_all count_leaf].
    + eapply emits_weaken; [|apply initial_bands_counts]. now intros evs (? & _).
    + eapply emits_weaken; [|apply hiphive_pass_counts]. now intros evs (? & _).
    + eapply emits_weaken; [|apply refit_pass_counts]. now intros evs (? & _).
Qed.

(** A hiphive pass that fails has written nothing. *)
Lemma hiphive_pass_inl E i ph prim sc p bs im w e w' :
  hiphive_pass E i ph prim sc p bs im w = (inl e, w') →
  corrective_pass_error E e ∧ w' = w.
Proof.
  unfold corrective_pass_error, raised_by_hiphive.
  destruct im; [|rewrite hiphive_pass_false; discriminate].
  rewrite hiphive_pass_true.
  destruct (hiphive_cluster_space E prim sc) as [e1|cs] eqn:Hcs.
  { intros [= <- <-]. eauto 10. }
  destruct (fs w !! "FORCE_CONSTANTS") as [[]|]; try (intros [= <- <-]; now auto).
  destruct (hiphive_force_constants E cs sc fc) as [e2|fcs] eqn:Hfcs.
  { intros [= <- <-]. eauto 10. }
  discriminate.
Qed.

Lemma hiphive_pass_band_path E i ph prim sc p bs im w ph' bs' a b w' :
  hiphive_pass E i ph prim sc p bs im w = (inr (ph', bs', a, b), w') →
  band_path E i ph' = band_path E i ph.
Proof.
  destruct im; [|rewrite hiphive_pass_false; now intros [= <- _ _ _ _]].
  rewrite hiphive_pass_true.
  destruct (hiphive_cluster_space E prim sc) as [?|cs]; [discriminate|].
  destruct (fs w !! "FORCE_CONSTANTS") as [[]|]; try discriminate.
  destruct (hiphive_force_constants E cs sc fc) as [?|fcs]; [discriminate|].
  cbv zeta. intros H. inversion H; subst. reflexivity.
Qed.

Lemma progresses_bind {A} E (m : M A) (f : A → M PhononBSDOSDoc) :
  emits (none_of is_band_structure) m → (∀ a, progresses E (f a)) → progresses E (m ≫= f).
Proof.
  intros Hm Hf w. rewrite bind_unfold.
  destruct (Hm w) as (e1 & Hl1 & Hn1).
  destruct (m w) as [[e|a] w1]; cbn [fst snd] in *.
  - exists e1. split; [exact Hl1|]. left. eauto.
  - destruct (Hf a w1) as (e2 & Hl2 & Hp).
    exists (e1 ++ e2). split; [now rewrite Hl2, Hl1, app_assoc|].
    destruct Hp as [[Hn2 He]|[(pre & post & -> & Hin & Hn)|Herr]].
    + left. split; [now apply Forall_app | exact He].
    + right. left. exists (e1 ++ pre), post. rewrite app_assoc. auto.
    + right. right. exact Herr.
Qed.

Lemma after_detection_progresses E i ph4 n borns eps prim sc p w4 :
  band_path E i ph4 = inr p →
  let eig := default false (kw_band_structure_eigenvectors (kwargs i)) in
  let bs5 := mkBS (band_frequencies E ph4 (qpoints p) (connections p) eig eig)
               (kpath_dict p) (bool_decide (born i ≠ None)) in
  let m : M PhononBSDOSDoc :=
    '(phonon, bs_symm_line, imaginary_modes, imaginary_modes_hiphive) ←
      hiphive_pass E i ph4 prim sc p bs5 (has_imaginary_freq bs5 (tol_imaginary_modes i));
    '(phonon, bs_symm_line, imaginary_modes) ←
      refit_pass E i phonon n bs_symm_line imaginary_modes imaginary_modes_hiphive;
    dos_and_document E i phonon borns eps bs_symm_line imaginary_modes in
  ∃ evs, log (snd (m w4)) = log w4 ++ evs ∧
         ((∃ pre post, evs = pre ++ post ∧ EvRunTotalDos ∈ post ∧
                       none_of is_band_structure post) ∨
          (∃ e, fst (m w4) = inl e ∧ corrective_pass_error E e)).
Proof.
  intros Hp. cbv zeta. rewrite bind_unfold.
  set (bs5 := mkBS _ _ _). set (im5 := has_imaginary_freq bs5 _).
  destruct (emits_any (hiphive_pass E i ph4 prim sc p bs5 im5) w4) as [evs6 Hl6];
    [emits_none|].
  destruct (hiphive_pass E i ph4 prim sc p bs5 im5 w4)
    as [[e|[[[ph6 bs6] im6] imh]] w6] eqn:H6; cbn [fst snd] in Hl6.
  { apply hiphive_pass_inl in H6 as [He _]. exists evs6. cbv beta iota. cbn [fst snd].
    split; [exact Hl6|]. right. eauto. }
  apply hiphive_pass_band_path in H6. rewrite Hp in H6.
  cbv beta iota. rewrite bind_unfold.
  destruct (emits_any (refit_pass E i ph6 n bs6 im6 imh) w6) as [evs7 Hl7]; [emits_none|].
  destruct (refit_pass E i ph6 n bs6 im6 imh w6) as [[e|[[ph7 bs7] im7]] w7] eqn:H7;
    cbn [fst snd] in Hl7.
  { exists (evs6 ++ evs7). cbv beta iota. cbn [fst snd].
    split; [now rewrite Hl7, Hl6, app_assoc|].
    right. exists e. split; [reflexivity|].
    destruct imh; [|rewrite refit_pass_false in H7; discriminate].
    unfold corrective_pass_error.
    apply refit_pass_true_inl in H7 as [[-> | ->]|[fc Hbp]]; auto.
    rewrite band_path_set_force_constants, band_path_set_displacements, H6 in Hbp.
    discriminate. }
  cbv beta iota.
  destruct (dos_and_document_runs_dos E i ph7 borns eps bs7 im7 w7)
    as (evs8 & Hl8 & Hin & Hn).
  exists (evs6 ++ evs7 ++ evs8).
  split; [now rewrite Hl8, Hl7, Hl6, <- !app_assoc|].
  left. exists (evs6 ++ evs7), evs8. rewrite <- app_assoc. auto.
Qed.

Lemma fit_and_document_progresses E i ph n borns eps :
  progresses E (fit_and_document E i ph n borns eps).
Proof.
  unfold fit_and_document.
  apply progresses_bind; [emits_all count_leaf|]. intros [[ph4 prim] sc] w4.
  rewrite bind_unfold, initial_bands_run. cbv zeta.
  destruct (band_path E i ph4) as [e|p] eqn:Hp.
  { exists []. rewrite app_nil_r. split; [reflexivity|]. left. split; [constructor|eauto]. }
  rewrite run_band_structure_run. cbv beta iota zeta. cbn [snd].
  match goal with
  | |- context [log (snd (?m ?w5))] =>
      destruct (after_detection_progresses E i ph4 n borns eps prim sc p w5 Hp)
        as (evs & Hl & Hprog)
  end.
  cbv zeta in Hl, Hprog. cbn [log] in Hl.
  eexists. split; [rewrite Hl, <- app_assoc; reflexivity|].
  destruct Hprog as [(pre & post & -> & Hin & Hn)|Herr].
  - right. left. eexists (_ ++ pre), post. rewrite <- app_assoc. auto.
  - right. right. exact Herr.
Qed.

Lemma from_forces_born_progresses E i : progresses E (from_forces_born E i).
Proof.
  unfold from_forces_born.
  apply progresses_bind; [emits_all count_leaf|]. intros [ph1 cell].
  apply progresses_bind; [emits_all count_leaf|]. intros [ph2 n].
  apply progresses_bind; [emits_all count_leaf|]. intros [[ph3 borns] eps].
  apply fit_and_document_progresses.
Qed.

(** C2 (as amended).  Whatever the inputs and the environment, a run
    performs at most one hiphive pass and at most one refit with the reduced
    cutoff, hence at most three band-structure computations.  It either
    fails before the first band structure, or reaches the total density of
    states after the last band structure (in particular whenever a document
    is returned), or is stopped inside a corrective pass by an exception
    that nothing catches: FORCE_CONSTANTS cannot be read, or a hiphive
    routine raises. *)
Theorem C2_at_most_two_corrective_passes (E : Env) (i : Inputs) (w : World) :
  ∃ evs,
    log (snd (from_forces_born E i w)) = log w ++ evs ∧
    at_most is_hiphive_pass 1 evs ∧
    at_most is_refit_pass 1 evs ∧
    at_most is_band_structure 3 evs ∧
    progress E evs (fst (from_forces_born E i w)) ∧
    (∀ doc, fst (from_forces_born E i w) = inr doc →
            ∃ pre post, evs = pre ++ post ∧ EvRunTotalDos ∈ post ∧
                        none_of is_band_structure post).
Proof.
  destruct (from_forces_born_counts E i w) as (evs & Hl & H1 & H2 & H3).
  destruct (from_forces_born_progresses E i w) as (evs' & Hl' & Hp).
  rewrite Hl in Hl'. apply app_inv_head in Hl' as <-.
  exists evs. repeat split; auto.
  intros doc Hdoc. rewrite Hdoc in Hp.
  destruct Hp as [[_ [e He]]|[Hdos|(e & He & _)]]; try discriminate. exact Hdos.
Qed.

(** Witness of [C2_at_most_two_corrective_passes]: neither pass repairs the
    spectrum; the run goes on to the density of states after at most three
    band structures and returns its document. *)
Lemma C2_at_most_two_corrective_passes_witness :
  let run := from_forces_born (Demo.env 0 (-1) (-1) (-1)) Demo.demo_inputs Demo.w0 in
  ∃ doc pre post,
    fst run = inr doc ∧
    log (snd run) = log Demo.w0 ++ pre ++ post ∧
    at_most is_band_structure 3 (pre ++ post) ∧
    EvRunTotalDos ∈ post ∧ none_of is_band_structure post.
Proof.
  cbv zeta.
  destruct (C2_at_most_two_corrective_passes (Demo.env 0 (-1) (-1) (-1))
              Demo.demo_inputs Demo.w0)
    as (evs & Hlog & _ & _ & H3 & _ & Hdoc).
  assert (Hrun : ∃ doc, fst (from_forces_born (Demo.env 0 (-1) (-1) (-1))
                               Demo.demo_inputs Demo.w0) = inr doc)
    by (vm_compute; eexists; reflexivity).
  destruct Hrun as [doc Hrun].
  destruct (Hdoc doc Hrun) as (pre & post & -> & Hin & Hn).
  exists doc, pre, post. auto.
Defined.

(** C2 (as stated) fails: the pipeline does not always reach the density
    of states.  First run: the unstable spectrum survives the hiphive pass
    and the refit leaves no force constants behind; the run stops with the
    read error after two band structures.  Second run: the constructor of
    the cluster space raises; the run stops inside the hiphive pass after
    one band structure.  In both the density of states is never computed. *)
Lemma C2_counterexample :
  let run := from_forces_born (Demo.with_shell Demo.refit_loses_output (Demo.env 0 (-1) (-1) 1))
               Demo.demo_inputs Demo.w0 in
  let run' := from_forces_born
                (Demo.with_cluster_space_check (λ _ _, inl (ValueError "cutoff"))
                   (Demo.env 0 (-1) 1 1))
                Demo.demo_inputs Demo.w0 in
  fst run = inl (FileNotFoundError "FORCE_CONSTANTS") ∧
  count_events is_hiphive_pass (log (snd run)) = 1%nat ∧
  count_events is_refit_pass (log (snd run)) = 1%nat ∧
  count_events is_band_structure (log (snd run)) = 2%nat ∧
  count_events is_total_dos (log (snd run)) = 0%nat ∧
  fst run' = inl (ValueError "cutoff") ∧
  count_events is_band_structure (log (snd run')) = 1%nat ∧
  count_events is_total_dos (log (snd run')) = 0%nat.
Proof.
  cbv zeta. repeat split; vm_compute; reflexivity.
Qed.

(** The three ways through the corrective passes, in the concrete
    environment: the hiphive pass repairs the spectrum (two band
    structures, no refit); the refit repairs it (three band structures);
    neither does, and the document is still returned, flagged unstable. *)
Lemma corrective_passes_examples :
  let passes E :=
    let run := from_forces_born E Demo.demo_inputs Demo.w0 in
    (count_events is_hiphive_pass (log (snd run)),
     count_events is_refit_pass (log (snd run)),
     count_events is_band_structure (log (snd run)),
     count_events is_total_dos (log (snd run)),
     match fst run with inr doc => Some (has_imaginary_modes doc) | inl _ => None end) in
  passes (Demo.env 0 1 1 1) = (0, 0, 1, 1, Some false)%nat ∧
  passes (Demo.env 0 (-1) 1 1) = (1, 0, 2, 1, Some true)%nat ∧
  passes (Demo.env 0 (-1) (-1) 1) = (1, 1, 3, 1, Some false)%nat ∧
  passes (Demo.env 0 (-1) (-1) (-1)) = (1, 1, 3, 1, Some true)%nat.
Proof. cbv zeta. repeat split; vm_compute; reflexivity. Qed.

(** ** The stages before the corrective passes *)

Lemma preparation_inr E i w ph n borns eps w2 :
  preparation E i w = (inr (ph, n, borns, eps), w2) →
  ∃ ph1 cell w1 ph2,
    make_phonopy E i w = (inr (ph1, cell), w1) ∧
    accumulate_dataset E i ph1 cell w1 = (inr (ph2, n), w2) ∧
    attach_born E i ph2 = inr (ph, borns, eps).
Proof.
  unfold preparation. intros H. rewrite bind_unfold in H.
  destruct (make_phonopy E i w) as [[?|[ph1 cell]] w1] eqn:H1; [discriminate|].
  cbv beta iota in H. rewrite bind_unfold in H.
  destruct (accumulate_dataset E i ph1 cell w1) as [[?|[ph2 n']] w2'] eqn:H2; [discriminate|].
  cbv beta iota in H. rewrite bind_unfold, lift_unfold in H.
  destruct (attach_born E i ph2) as [?|[[ph3 borns'] eps']] eqn:H3; [discriminate|].
  cbv beta iota in H. injection H as <- <- <- <- <-.
  exists ph1, cell, w1, ph2. auto.
Qed.

Lemma from_forces_born_preparation E i w :
  from_forces_born E i w =
  match preparation E i w with
  | (inl e, w') => (inl e, w')
  | (inr (ph, n, borns, eps), w2) => fit_and_document E i ph n borns eps w2
  end.
Proof.
  unfold from_forces_born, preparation. rewrite !bind_unfold.
  destruct (make_phonopy E i w) as [[?|[ph1 cell]] w1]; [reflexivity|].
  cbv beta iota. rewrite !bind_unfold.
  destruct (accumulate_dataset E i ph1 cell w1) as [[?|[ph2 n]] w2]; [reflexivity|].
  cbv beta iota. rewrite !bind_unfold, !lift_unfold.
  destruct (attach_born E i ph2) as [?|[[ph3 borns] eps]]; reflexivity.
Qed.

(** The structure files read back by the primary fit are the ones the
    dataset stage has written. *)
Lemma preparation_files E i w ph n borns eps w2 :
  preparation E i w = (inr (ph, n, borns, eps), w2) →
  ∃ cell pre,
    check_magnetic_moments (get_phonopy_structure E (structure i)) (primitive_matrix_of i)
    = inr cell ∧
    fs w2 !! "POSCAR" = Some (AStructure cell) ∧
    fs w2 !! "SPOSCAR"
    = Some (AStructure (phonopy_supercell E cell (supercell_matrix i))) ∧
    log w2 = log w ++ pre ∧ none_of is_hiphive_pass pre ∧ none_of is_band_structure pre ∧
    none_of is_solver_invocation pre.
Proof.
  intros H. apply preparation_inr in H as (ph1 & cell & w1 & ph2 & H1 & H2 & _).
  rewrite make_phonopy_run in H1.
  destruct (get_factor E (code i)) as [?|factor]; [discriminate|].
  destruct (check_magnetic_moments _ _) as [?|cell'] eqn:Hm; [discriminate|].
  cbv zeta in H1. injection H1 as <- <- <-.
  rewrite accumulate_dataset_run in H2. cbv zeta in H2.
  destruct (accumulate _ _ _ _) as [?|[disps frcs]]; [discriminate|].
  injection H2 as _ _ <-. cbn [fs log unitcell ph_supercell_matrix].
  eexists cell', _. split; [reflexivity|].
  split; [now rewrite !lookup_insert_ne, lookup_insert_eq by discriminate|].
  split; [now rewrite !lookup_insert_ne, lookup_insert_eq by discriminate|].
  split; [rewrite <- app_assoc; reflexivity|].
  repeat split; repeat constructor.
Qed.

(** The primary fit, started in a directory that holds the two structure
    files: the outcome is read off the directory the fourth solver process
    leaves. *)
Lemma primary_fit_run E i ph n w prim sc :
  fs w !! "POSCAR" = Some (AStructure prim) →
  fs w !! "SPOSCAR" = Some (AStructure sc) →
  let m := supercell_matrix i in
  let ph1 := set_displacements (generate_displacements E ph f_0_01) ph in
  let c4 := pheasy_cmd_4 m n (length (generate_displacements E ph f_0_01)) in
  let r1 := shell E (pheasy_cmd_1 m) (fs w) in
  let r2 := shell E (pheasy_cmd_2 m) (snd r1) in
  let r3 := shell E (pheasy_cmd_3 m n) (snd r2) in
  let r4 := shell E c4 (snd r3) in
  let evs := [EvSubprocess (pheasy_cmd_1 m) (fst r1); EvSubprocess (pheasy_cmd_2 m) (fst r2);
              EvSubprocess (pheasy_cmd_3 m n) (fst r3); EvSubprocess c4 (fst r4)] in
  snd r4 = solver_directory E [pheasy_cmd_1 m; pheasy_cmd_2 m; pheasy_cmd_3 m n; c4] (fs w) ∧
  primary_fit E i ph n w =
  match snd r4 !! "FORCE_CONSTANTS" with
  | None => (inl (FileNotFoundError "FORCE_CONSTANTS"), mkWorld (snd r4) (log w ++ evs))
  | Some (AForceConstants fc) =>
      let ph' := set_force_constants (symmetrize_force_constants E ph1 fc) ph1 in
      (inr (ph', prim, sc),
       mkWorld (<["phonopy.yaml" := APhonopyYaml ph']> (snd r4))
         (log w ++ evs ++ [EvWrite "phonopy.yaml"]))
  | Some _ => (inl (ParseError "FORCE_CONSTANTS"), mkWorld (snd r4) (log w ++ evs))
  end.
Proof.
  intros Hp Hs. cbv zeta. split; [reflexivity|].
  unfold primary_fit, read_structure, parse_FORCE_CONSTANTS, read_file. msimpl.
  rewrite Hp. cbv beta iota. rewrite Hs. cbv beta iota. cbn [fs log displacements set_displacements].
  destruct (_ !! "FORCE_CONSTANTS") as [[]|]; cbv beta iota; cbn [fs log];
    rewrite <- ?app_assoc; reflexivity.
Qed.

Lemma detection_inr E i w ph4 prim sc n borns eps p bs im w5 :
  detection E i w = (inr (ph4, prim, sc, n, borns, eps, p, bs, im), w5) →
  ∃ ph3 w2 w4,
    preparation E i w = (inr (ph3, n, borns, eps), w2) ∧
    primary_fit E i ph3 n w2 = (inr (ph4, prim, sc), w4) ∧
    initial_bands E i ph4 w4 = (inr (p, bs, im), w5).
Proof.
  unfold detection. intros H. rewrite bind_unfold in H.
  destruct (preparation E i w) as [[?|[[[ph3 n'] borns'] eps']] w2] eqn:H1; [discriminate|].
  cbv beta iota in H. rewrite bind_unfold in H.
  destruct (primary_fit E i ph3 n' w2) as [[?|[[ph4' prim'] sc']] w4] eqn:H4; [discriminate|].
  cbv beta iota in H. rewrite bind_unfold in H.
  destruct (initial_bands E i ph4' w4) as [[?|[[p' bs'] im']] w5'] eqn:H5; [discriminate|].
  cbv beta iota in H. injection H as <- <- <- <- <- <- <- <- <- <-.
  exists ph3, w2, w4. auto.
Qed.

Lemma from_forces_born_detection E i w :
  from_forces_born E i w =
  match detection E i w with
  | (inl e, w') => (inl e, w')
  | (inr (ph, prim, sc, n, borns, eps, p, bs, im), w5) =>
      ('(phonon, bs_symm_line, imaginary_modes, imaginary_modes_hiphive) ←
         hiphive_pass E i ph prim sc p bs im;
       '(phonon, bs_symm_line, imaginary_modes) ←
         refit_pass E i phonon n bs_symm_line imaginary_modes imaginary_modes_hiphive;
       dos_and_document E i phonon borns eps bs_symm_line imaginary_modes) w5
  end.
Proof.
  rewrite from_forces_born_preparation. unfold detection. rewrite bind_unfold.
  destruct (preparation E i w) as [[?|[[[ph3 n] borns] eps]] w2]; [reflexivity|].
  cbv beta iota. unfold fit_and_document. rewrite !bind_unfold.
  destruct (primary_fit E i ph3 n w2) as [[?|[[ph4 prim] sc]] w4]; [reflexivity|].
  cbv beta iota. rewrite !bind_unfold.
  destruct (initial_bands E i ph4 w4) as [[?|[[p bs] im]] w5]; reflexivity.
Qed.

Lemma after_hiphive_no_pass E i ph n borns eps bs im imh :
  emits (none_of is_hiphive_pass)
    ('(phonon, bs_symm_line, imaginary_modes) ← refit_pass E i ph n bs im imh;
     dos_and_document E i phonon borns eps bs_symm_line imaginary_modes).
Proof. emits_all count_leaf. Qed.

(** C6 (as amended).  Consider a run that has reached the detection of
    imaginary modes.  The cell [prim] handed to hiphive is the unit cell of
    the [Phonopy] object, read back from POSCAR (not a primitive cell), and
    [supercell] is its supercell; the flag is [has_imaginary_freq] of the
    first band structure; FORCE_CONSTANTS still holds the array the primary
    fit has parsed (unless the plot was saved under that name); no hiphive
    pass has run so far.  Without imaginary modes no hiphive pass runs and
    no further band structure is computed.  With imaginary modes, and as
    long as each hiphive routine returns, the pass takes
    [estimate_maximum_cutoff(supercell) - 0.01] as the single (pairwise)
    cutoff of a cluster space on [prim], reads FORCE_CONSTANTS as force
    constants of the supercell, extracts the parameters from these force
    constants (the displacement/force dataset is not read), enforces the
    Huang and Born-Huang sum rules with [alpha = 1e-6], rebuilds the force
    constants of the supercell, writes them to FORCE_CONSTANTS_new, and
    computes the band structure of the phonon object carrying them with
    eigenvectors; this happens once. *)
Theorem C6_hiphive_pass (E : Env) (i : Inputs) (w w5 : World) (phonon : Phonopy)
    (prim supercell : PhonopyAtoms) (num_har : nat) (borns : option (list Matrix3D))
    (epsilon : option Matrix3D) (p : BandPath) (bs_symm_line : PhononBandStructureSymmLine)
    (imaginary_modes : bool) :
  detection E i w
  = (inr (phonon, prim, supercell, num_har, borns, epsilon, p, bs_symm_line, imaginary_modes),
     w5) →
  let run := from_forces_born E i w in
  let plot := default "phonon_band_structure.pdf" (kw_filename_bs (kwargs i)) in
  check_magnetic_moments (get_phonopy_structure E (structure i)) (primitive_matrix_of i)
  = inr prim ∧
  supercell = phonopy_supercell E prim (supercell_matrix i) ∧
  imaginary_modes = has_imaginary_freq bs_symm_line (tol_imaginary_modes i) ∧
  (∃ fc0 phonon0,
     force_constants phonon = Some (symmetrize_force_constants E phonon0 fc0) ∧
     (plot ≠ "FORCE_CONSTANTS" → fs w5 !! "FORCE_CONSTANTS" = Some (AForceConstants fc0))) ∧
  (∃ pre, log w5 = log w ++ pre ∧ none_of is_hiphive_pass pre) ∧
  (imaginary_modes = false →
   ∃ rest, log (snd run) = log w5 ++ rest ∧ none_of is_hiphive_pass rest ∧
           none_of is_band_structure rest) ∧
  (imaginary_modes = true →
   ∀ maximum_cutoff fc2_array fcs parameters parameters_rot fcs_new,
     estimate_maximum_cutoff E supercell = inr maximum_cutoff →
     let cutoffs := [PrimFloat.sub maximum_cutoff f_0_01] in
     let cs := mkClusterSpace prim cutoffs in
     cluster_space_check E prim cutoffs = inr tt →
     fs w5 !! "FORCE_CONSTANTS" = Some (AForceConstants fc2_array) →
     ForceConstants_from_arrays E supercell fc2_array = inr fcs →
     extract_parameters E fcs cs = inr parameters →
     enforce_rotational_sum_rules E cs parameters ["Huang"; "Born-Huang"] f_1e_6
     = inr parameters_rot →
     fcp_get_force_constants E cs parameters_rot supercell = inr fcs_new →
     let phonon' :=
       set_force_constants (symmetrize_force_constants E phonon fcs_new) phonon in
     ∃ rest,
       log (snd run)
       = log w5 ++ [EvWrite "FORCE_CONSTANTS_new"; EvRunBandStructure phonon' true false;
                    EvWrite "phonon_band_structure.yaml"; EvSavePlot plot] ++ rest ∧
       none_of is_hiphive_pass rest).
Proof.
  intros Hdet. cbv zeta.
  pose proof (detection_inr _ _ _ _ _ _ _ _ _ _ _ _ _ Hdet) as (ph3 & w2 & w4 & Hprep & H4 & H5).
  destruct (preparation_files _ _ _ _ _ _ _ _ Hprep)
    as (cell & pre2 & Hcell & Hpos & Hspos & Hl2 & Hn2 & _).
  pose proof (primary_fit_inr _ _ _ _ _ _ _ _ _ H4)
    as (fc & s1 & s2 & s3 & s4 & fs4 & Hph4 & Hp' & Hs' & Hfc & _ & Hfs4 & Hl4).
  rewrite Hpos in Hp'. injection Hp' as <-.
  rewrite Hspos in Hs'. injection Hs' as <-.
  rewrite initial_bands_run in H5. cbv zeta in H5.
  destruct (band_path E i phonon) as [?|p'] eqn:Hbp; [discriminate|].
  rewrite run_band_structure_run in H5. cbv zeta in H5. cbn [snd] in H5.
  injection H5 as <- <- <- <-.
  split; [exact Hcell|]. split; [reflexivity|]. split; [reflexivity|].
  split.
  { eexists fc, _. split; [rewrite Hph4; reflexivity|].
    intros Hplot. cbn [fs]. rewrite lookup_insert_ne by (intros Heq; apply Hplot; now rewrite Heq).
    rewrite lookup_insert_ne by discriminate. rewrite Hfs4.
    rewrite lookup_insert_ne by discriminate. exact Hfc. }
  split.
  { eexists. cbn [log]. rewrite Hl4, Hl2, <- !app_assoc. split; [reflexivity|].
    apply Forall_app. split; [exact Hn2|]. repeat constructor; count_leaf. }
  rewrite from_forces_born_detection, Hdet. cbv beta iota.
  split.
  - intros Him. rewrite Him. rewrite bind_unfold, hiphive_pass_false. cbv beta iota.
    rewrite bind_unfold, refit_pass_false. cbv beta iota.
    match goal with
    | |- context [dos_and_document E i ?a ?b ?c ?d ?e ?w] =>
        destruct (dos_and_document_runs_dos E i a b c d e w) as (rest & Hl & _ & Hn);
        destruct (emits_any (dos_and_document E i a b c d e) w) as [rest' Hl'];
        [emits_none|];
        assert (Hh : emits (none_of is_hiphive_pass) (dos_and_document E i a b c d e))
          by (emits_all count_leaf);
        destruct (Hh w) as (rest'' & Hl'' & Hn'')
    end.
    rewrite Hl in Hl''. apply app_inv_head in Hl'' as <-.
    exists rest. auto.
  - intros Him maximum_cutoff fc2_array fcs parameters parameters_rot fcs_new
      Hmax Hcheck Hfile Harr Hext Henf Hfcp.
    rewrite Him. rewrite bind_unfold, hiphive_pass_true.
    unfold hiphive_cluster_space, new_ClusterSpace.
    rewrite Hmax, !res_bind_unfold, Hcheck. cbv beta iota.
    change (mret (mkClusterSpace cell [PrimFloat.sub maximum_cutoff f_0_01]))
      with (inr (mkClusterSpace cell [PrimFloat.sub maximum_cutoff f_0_01])
            : Res ClusterSpace).
    cbv beta iota. rewrite Hfile. cbv beta iota.
    unfold hiphive_force_constants.
    repeat (rewrite ?res_bind_unfold;
            first [rewrite Harr | rewrite Hext | rewrite Henf | rewrite Hfcp];
            cbv beta iota).
    cbv beta iota zeta.
    match goal with
    | |- context [snd (?k ?w6)] =>
        match k with
        | context [refit_pass E i ?ph ?n ?bs ?im ?imh] =>
            destruct (after_hiphive_no_pass E i ph n borns epsilon bs im imh w6)
              as (rest & Hl & Hn)
        end
    end.
    exists rest. split; [|exact Hn].
    rewrite Hl. cbn [log]. rewrite <- !app_assoc. reflexivity.
Qed.

(** Witness of [C6_hiphive_pass]: the primary fit is unstable (leading
    entry -1) and hiphive rebuilds force constants with leading entry 1. *)
Lemma C6_hiphive_pass_witness :
  let run := from_forces_born (Demo.env 0 (-1) 1 1) Demo.demo_inputs Demo.w0 in
  ∃ pre phonon' rest,
    log (snd run)
    = pre ++ [EvWrite "FORCE_CONSTANTS_new"; EvRunBandStructure phonon' true false;
              EvWrite "phonon_band_structure.yaml"; EvSavePlot "phonon_band_structure.pdf"]
          ++ rest ∧
    force_constants phonon' = Some (Demo.fc_of 1).
Proof.
  cbv zeta.
  destruct (detection (Demo.env 0 (-1) 1 1) Demo.demo_inputs Demo.w0)
    as [[e|[[[[[[[[phonon prim] supercell] num_har] borns] epsilon] p] bs] im]] w5] eqn:Hdet;
    [vm_compute in Hdet; discriminate Hdet|].
  pose proof Hdet as Hval. vm_compute in Hval.
  injection Hval as Hphonon _ _ _ _ _ _ _ Him Hw5.
  destruct (C6_hiphive_pass _ _ _ _ _ _ _ _ _ _ _ _ _ Hdet)
    as (_ & _ & _ & _ & _ & _ & Hpass).
  destruct (Hpass (eq_sym Him) 5%float (Demo.fc_of (-1)) (Demo.fc_of (-1)) [(-1)%float]
              [1%float] (Demo.fc_of 1) eq_refl eq_refl)
    as (rest & Hlog & _); try reflexivity.
  { rewrite <- Hw5. vm_compute. reflexivity. }
  eexists _, _, rest. split; [exact Hlog | reflexivity].
Defined.

(** C6 (as stated) fails: the parameterization is not fitted from the
    dataset.  With a sum-rule correction that leaves the parameters alone,
    FORCE_CONSTANTS_new follows the FORCE_CONSTANTS of the primary fit: two
    datasets (different pickles) with the same FORCE_CONSTANTS give the same
    file, one dataset with two different FORCE_CONSTANTS gives two
    different files. *)
Lemma C6_counterexample :
  let E lead := Demo.with_hiphive (λ parameters, parameters) (Demo.env 0 lead 1 1) in
  let file name (lead : float) data :=
    fs (snd (from_forces_born (E lead) (Demo.data_inputs data) Demo.w0)) !! name in
  file "FORCE_CONSTANTS_new" (-1)%float Demo.demo_data
  = Some (AForceConstants (Demo.fc_of (-1))) ∧
  file "FORCE_CONSTANTS_new" (-1)%float Demo.three_sample_data
  = Some (AForceConstants (Demo.fc_of (-1))) ∧
  file "FORCE_CONSTANTS_new" (-2)%float Demo.demo_data
  = Some (AForceConstants (Demo.fc_of (-2))) ∧
  file "force_matrix.pkl" (-1)%float Demo.demo_data
  = file "force_matrix.pkl" (-2)%float Demo.demo_data ∧
  file "force_matrix.pkl" (-1)%float Demo.demo_data
  ≠ file "force_matrix.pkl" (-1)%float Demo.three_sample_data ∧
  PrimFloat.eqb (-1) (-2) = false.
Proof.
  cbv zeta. repeat split; try (vm_compute; reflexivity).
  vm_compute. discriminate.
Qed.

(** ** The exit status of the solver *)

Lemma same_outcome_bind {A B} (m m' : M A) (f f' : A → M B) :
  same_outcome m m' → (∀ a, same_outcome (f a) (f' a)) →
  same_outcome (m ≫= f) (m' ≫= f').
Proof.
  intros Hm Hf w w' Hw. rewrite !bind_unfold.
  destruct (Hm w w' Hw) as [H1 H2].
  destruct (m w) as [[e|a] w1], (m' w') as [[e'|a'] w1']; cbn [fst snd] in *;
    try discriminate.
  - injection H1 as ->. auto.
  - injection H1 as ->. apply Hf, H2.
Qed.

Lemma same_outcome_ret {A} (a : A) : same_outcome (mret a : M A) (mret a).
Proof. intros w w' Hw. auto. Qed.

Lemma same_outcome_raise {A} (e : exn) : same_outcome (raise e : M A) (raise e).
Proof. intros w w' Hw. auto. Qed.

Lemma same_outcome_lift {A} (r : Res A) : same_outcome (lift r) (lift r).
Proof. intros w w' Hw. auto. Qed.

Lemma same_outcome_read_file f : same_outcome (read_file f) (read_file f).
Proof. intros w w' Hw. unfold read_file. rewrite Hw. now destruct (fs w' !! f). Qed.

Lemma same_outcome_emit e e' : same_outcome (emit e) (emit e').
Proof. intros w w' Hw. auto. Qed.

Lemma same_outcome_write_file f a : same_outcome (write_file f a) (write_file f a).
Proof. intros w w' Hw. unfold write_file. cbn. now rewrite Hw. Qed.

Lemma same_outcome_save_plot f : same_outcome (save_plot f) (save_plot f).
Proof. intros w w' Hw. unfold save_plot. cbn. now rewrite Hw. Qed.

Lemma same_outcome_subprocess_call {B} E status cmd (k k' : M B) :
  same_outcome k k' →
  same_outcome (subprocess_call E cmd ≫= λ _, k)
    (subprocess_call (with_exit_status status E) cmd ≫= λ _, k').
Proof.
  intros Hk w w' Hw. rewrite !bind_unfold. unfold subprocess_call. cbv beta iota.
  apply Hk. cbn. now rewrite Hw.
Qed.

Lemma same_outcome_M_iter {A} (f : A → M unit) (l : list A) :
  (∀ x, same_outcome (f x) (f x)) → same_outcome (M_iter f l) (M_iter f l).
Proof.
  intros Hf. induction l as [|x l IH]; simpl.
  - apply same_outcome_ret.
  - apply same_outcome_bind; [apply Hf | intros _; exact IH].
Qed.

(** Proof search for [same_outcome m m'] on the programs of the pipeline
    run in an environment and in the same environment with other exit
    statuses. *)
Ltac same_all :=
  repeat first
    [ apply same_outcome_ret | apply same_outcome_raise | apply same_outcome_lift
    | apply same_outcome_read_file | apply same_outcome_emit
    | apply same_outcome_write_file | apply same_outcome_save_plot
    | apply same_outcome_subprocess_call
    | apply same_outcome_M_iter; intros
    | apply same_outcome_bind; [|intros]
    | match goal with
      | |- same_outcome (match ?x with _ => _ end) (match ?y with _ => _ end) =>
          change y with x; destruct x
      end
    | progress cbv zeta
    | progress unfold from_forces_born, fit_and_document, make_phonopy, accumulate_dataset,
        primary_fit, initial_bands, hiphive_pass, refit_pass, dos_and_document,
        thermal_displacements, run_band_structure, read_structure, read_phonopy,
        parse_FORCE_CONSTANTS, get_ph_bs_symm_line, get_ph_dos ].

Lemma from_forces_born_same_outcome E status i :
  same_outcome (from_forces_born E i) (from_forces_born (with_exit_status status E) i).
Proof. same_all. Qed.

(** C4 (as amended).  The exit statuses of the solver processes are
    ignored: a solver that leaves the same working directories with other
    exit statuses gives the same result (document or exception) and the
    same final directory.  Once the stages before the primary fit have
    completed, the four solver processes run, and the outcome is decided by
    the FORCE_CONSTANTS entry of the directory the fourth process leaves:
    if it is missing or malformed the run stops there with the exception of
    [parse_FORCE_CONSTANTS] and no document; if it is readable the primary
    fit completes, whatever the exit statuses, and the run goes on with
    [phonopy.yaml]. *)
Theorem C4_unreadable_output_fatal (E : Env) (i : Inputs) (w : World) :
  (∀ status,
     let run' := from_forces_born (with_exit_status status E) i w in
     fst run' = fst (from_forces_born E i w) ∧
     fs (snd run') = fs (snd (from_forces_born E i w))) ∧
  ∀ phonon num_har borns epsilon w2,
    preparation E i w = (inr (phonon, num_har, borns, epsilon), w2) →
    let m := supercell_matrix i in
    let cmds := [pheasy_cmd_1 m; pheasy_cmd_2 m; pheasy_cmd_3 m num_har;
                 pheasy_cmd_4 m num_har (length (generate_displacements E phonon f_0_01))] in
    let directory := solver_directory E cmds (fs w2) in
    let run := from_forces_born E i w in
    ∃ statuses rest,
      length statuses = 4%nat ∧
      log (snd run) = log w2 ++ zip_with EvSubprocess cmds statuses ++ rest ∧
      match directory !! "FORCE_CONSTANTS" with
      | Some (AForceConstants fc) => ∃ rest', rest = EvWrite "phonopy.yaml" :: rest'
      | Some _ =>
          fst run = inl (ParseError "FORCE_CONSTANTS") ∧ fs (snd run) = directory ∧ rest = []
      | None =>
          fst run = inl (FileNotFoundError "FORCE_CONSTANTS") ∧ fs (snd run) = directory ∧
          rest = []
      end.
Proof.
  split.
  { intros status. cbv zeta.
    destruct (from_forces_born_same_outcome E status i w w eq_refl) as [H1 H2]. auto. }
  intros phonon num_har borns epsilon w2 Hprep. cbv zeta.
  destruct (preparation_files _ _ _ _ _ _ _ _ Hprep)
    as (cell & pre & _ & Hpos & Hspos & _).
  rewrite from_forces_born_preparation, Hprep. cbv beta iota.
  unfold fit_and_document. rewrite bind_unfold.
  destruct (primary_fit_run E i phonon num_har w2 _ _ Hpos Hspos) as [Hdir Hrun].
  cbv zeta in Hdir, Hrun. rewrite Hrun, <- Hdir. clear Hrun Hdir.
  set (r1 := shell E (pheasy_cmd_1 (supercell_matrix i)) (fs w2)).
  set (r2 := shell E (pheasy_cmd_2 (supercell_matrix i)) (snd r1)).
  set (r3 := shell E (pheasy_cmd_3 (supercell_matrix i) num_har) (snd r2)).
  set (r4 := shell E _ (snd r3)).
  exists [fst r1; fst r2; fst r3; fst r4].
  destruct (snd r4 !! "FORCE_CONSTANTS") as [[]|] eqn:Hfc;
    try (exists []; cbn [fst snd log fs zip_with]; rewrite app_nil_r; now auto).
  cbv beta iota zeta.
  match goal with
  | |- context [snd (?k ?w4)] =>
      destruct (emits_any k w4) as [rest' Hrest]; [emits_none|]
  end.
  exists (EvWrite "phonopy.yaml" :: rest'). split; [reflexivity|].
  split; [|eauto]. rewrite Hrest. cbn [log zip_with]. rewrite <- !app_assoc. reflexivity.
Qed.

(** Witness of [C4_unreadable_output_fatal]: a solver that writes nothing,
    started in an empty working directory. *)
Lemma C4_unreadable_output_fatal_witness :
  let E := Demo.with_shell (λ _ files, (0, files)) (Demo.env 0 1 1 1) in
  fs Demo.w0 = ∅ ∧
  fst (from_forces_born E Demo.demo_inputs Demo.w0)
  = inl (FileNotFoundError "FORCE_CONSTANTS") ∧
  count_events is_solver_invocation (log (snd (from_forces_born E Demo.demo_inputs Demo.w0)))
  = 4%nat.
Proof.
  cbv zeta. split; [reflexivity|].
  set (E := Demo.with_shell (λ _ files, (0, files)) (Demo.env 0 1 1 1)).
  destruct (preparation E Demo.demo_inputs Demo.w0)
    as [[e|[[[phonon num_har] borns] epsilon]] w2] eqn:Hprep;
    [vm_compute in Hprep; discriminate Hprep|].
  destruct (C4_unreadable_output_fatal E Demo.demo_inputs Demo.w0) as [_ H].
  destruct (H _ _ _ _ _ Hprep) as (statuses & rest & Hlen & Hlog & Hcase).
  assert (Hdir : solver_directory E
                   [pheasy_cmd_1 (supercell_matrix Demo.demo_inputs);
                    pheasy_cmd_2 (supercell_matrix Demo.demo_inputs);
                    pheasy_cmd_3 (supercell_matrix Demo.demo_inputs) num_har;
                    pheasy_cmd_4 (supercell_matrix Demo.demo_inputs) num_har
                      (length (generate_displacements E phonon f_0_01))] (fs w2)
                 !! "FORCE_CONSTANTS" = None).
  { vm_compute in Hprep. injection Hprep as _ _ _ _ <-. vm_compute. reflexivity. }
  rewrite Hdir in Hcase. destruct Hcase as (Hfst & _ & _).
  split; [exact Hfst|]. vm_compute. reflexivity.
Defined.

(** C4 (as stated) fails.  Every solver process of the run exits with
    status 1 and the pipeline still returns a document. *)
Lemma C4_counterexample :
  let run := from_forces_born (Demo.env 1 1 1 1) Demo.demo_inputs Demo.w0 in
  count_events is_solver_invocation (log (snd run)) = 4%nat ∧
  Forall (λ ev, ∀ cmd status, ev = EvSubprocess cmd status → status = 1) (log (snd run)) ∧
  ∃ doc, fst run = inr doc.
Proof.
  cbv zeta. split; [vm_compute; reflexivity|]. split.
  - vm_compute. repeat constructor; intros cmd status Heq; now inversion Heq.
  - vm_compute. eexists. reflexivity.
Qed.

(** * Further properties of the pipeline *)

Lemma kwargs_item_inr {A} key (v : option A) a : kwargs_item key v = inr a → v = Some a.
Proof. destruct v; simpl; congruence. Qed.

Lemma py_div_inr a b c :
  py_div a b = inr c → PrimFloat.eqb b 0%float = false ∧ c = PrimFloat.div a b.
Proof. unfold py_div. destruct (PrimFloat.eqb b 0); [discriminate|]. now intros [= <-]. Qed.

(** The pure part of the thermal displacement stage. *)
Lemma thermal_displacements_run E k ph mesh w :
  thermal_displacements E k ph mesh w =
  if default false (kw_create_thermal_displacements k) then
    let freq_min := default 0%float (kw_freq_min_thermal_displacements k) in
    let t_min := default 0 (kw_tmin_thermal_displacements k) in
    let t_max := default 500 (kw_tmax_thermal_displacements k) in
    let t_step := default 100 (kw_tstep_thermal_displacements k) in
    let w1 := mkWorld (fs w) (log w ++ [EvRunMesh ph mesh true false;
                                       EvRunThermalDisplacements t_min t_max t_step freq_min]) in
    match np_arange t_min t_max t_step with
    | inl e => (inl e, w1)
    | inr temps =>
        let mats := thermal_displacement_matrices E ph mesh t_min t_max t_step freq_min in
        (inr (Some (mkThermalDisplacementData freq_min (snd mats) (fst mats) temps)),
         snd (M_iter (λ temp, write_file ("tdispmat_" ++ pretty temp ++ "K.cif") ACif)
                temps w1))
    end
  else (inr None, w).
Proof.
  unfold thermal_displacements.
  destruct (default false (kw_create_thermal_displacements k)); [|reflexivity].
  msimpl. rewrite <- app_assoc. cbn [app].
  destruct (np_arange _ _ _) as [e|temps]; [reflexivity|].
  cbv beta iota.
  set (it := M_iter _ temps _).
  assert (Hit : fst it = inr tt).
  { subst it. generalize (mkWorld (fs w)
      (log w ++ [EvRunMesh ph mesh true false;
                 EvRunThermalDisplacements (default 0 (kw_tmin_thermal_displacements k))
                   (default 500 (kw_tmax_thermal_displacements k))
                   (default 100 (kw_tstep_thermal_displacements k))
                   (default 0%float (kw_freq_min_thermal_displacements k))])).
    induction temps as [|t temps IH]; intros w0; [reflexivity|].
    cbn [M_iter]. msimpl. apply IH. }
  destruct it as [[e|[]] w2]; cbn [fst] in Hit; [discriminate|].
  destruct (thermal_displacement_matrices _ _ _ _ _ _ _). reflexivity.
Qed.

(** Every field of a returned document (lines 724-780); the thermal
    displacement stage is the last one to touch the world. *)
Lemma dos_and_document_fields E i ph borns eps bs im w doc w' :
  dos_and_document E i ph borns eps bs im w = (inr doc, w') →
  let k := kwargs i in
  let primitive := get_pmg_structure E (primitive_of E ph) in
  let mesh := automatic_density E primitive (default 7000 (kw_kpoint_density_dos k)) in
  ∃ store static_dir born_dir optimization_dir born_uuid optimization_uuid static_uuid
    formula_units energy thermal w1,
    kw_store_force_constants k = Some store ∧
    kw_static_run_job_dir k = Some static_dir ∧
    kw_born_run_job_dir k = Some born_dir ∧
    kw_optimization_run_job_dir k = Some optimization_dir ∧
    kw_born_run_uuid k = Some born_uuid ∧
    kw_optimization_run_uuid k = Some optimization_uuid ∧
    kw_static_run_uuid k = Some static_uuid ∧
    py_div (num_atoms (structure i)) (reduced_num_atoms (structure i)) = inr formula_units ∧
    match total_dft_energy i with
    | Some e => ∃ e', py_div e formula_units = inr e' ∧ energy = Some e'
    | None => energy = None
    end ∧
    thermal_displacements E k ph mesh w1 = (inr thermal, w') ∧
    log w1 = log w ++
      (if default false (kw_band_structure_eigenvectors k)
       then [EvWrite "phonon_website.json"] else []) ++
      [EvRunMesh ph mesh false true; EvRunTotalDos; EvWrite "phonon_dos.yaml";
       EvSavePlot (default "phonon_dos.pdf" (kw_filename_dos k))] ∧
    doc_structure doc = structure i ∧
    doc_total_dft_energy doc = energy ∧
    doc_force_constants doc = (if store : bool then force_constants ph else None) ∧
    doc_supercell_matrix doc = ph_supercell_matrix ph ∧
    doc_primitive_matrix doc
    = phonopy_primitive_matrix E (unitcell ph) (ph_primitive_matrix ph) (ph_symprec ph) ∧
    doc_code doc = code i ∧ doc_mp_id doc = mp_id i ∧
    thermal_displacement_data doc = thermal ∧
    jobdirs doc = mkJobDirs (dirs (displacement_data i)) static_dir born_dir optimization_dir ∧
    doc_uuids doc = mkUUIDs (uuids (displacement_data i)) born_uuid optimization_uuid
                      static_uuid ∧
    phonopy_settings doc
    = mkSettings (default 101 (kw_npoints_band k)) (kpath_scheme i)
        (default 7000 (kw_kpoint_density_dos k)).
Proof.
  intros H. cbv zeta. unfold dos_and_document, get_ph_dos, read_file in H.
  msimpl_in H.
  destruct (default false (kw_band_structure_eigenvectors (kwargs i))) eqn:Heig;
    rewrite ?Heig in H;
    cbv beta iota zeta in H; cbn [fs log fst snd] in H;
    rewrite lookup_insert_eq in H; cbv beta iota zeta in H; cbn [fs log fst snd] in H;
    (destruct (thermodynamics E (kwargs i) _ _) as [?|series] eqn:Hth in H;
     [discriminate H|]);
    mcase H.
  all: inversion H; subst; clear H; cbn.
  all: repeat match goal with
         | Hk : kwargs_item _ _ = inr _ |- _ => apply kwargs_item_inr in Hk
         end.
  all: try match goal with
         | Hx : total_dft_energy _ = _ |- _ => rewrite Hx
         end.
  all: try match goal with
         | Hx : Res_bind _ _ _ (py_div ?a ?b) = inr _ |- _ =>
             destruct (py_div a b) eqn:Hdiv; [discriminate Hx | injection Hx as <-]
         end.
  all: eexists _, _, _, _, _, _, _, _, _, _, _;
    repeat split; try eassumption; try reflexivity; eauto.
  all: try (cbn [log app]; rewrite <- ?app_assoc; reflexivity).
  all: match goal with
       | Hx : _ = inr ?o |- ?o = None => now inversion Hx
       end.
Qed.

Lemma attach_born_construction E i ph ph' borns eps :
  attach_born E i ph = inr (ph', borns, eps) →
  construction ph' = construction ph ∧ force_constants ph' = force_constants ph.
Proof.
  unfold attach_born. intros H.
  destruct (born i), (epsilon_static i); try (inversion H; subst; auto; fail).
  destruct (Nat.eqb _ _); [|discriminate].
  destruct (symmetrize_borns_and_epsilon _ _ _ _ _ _).
  destruct (decide _); [destruct (forallb _ _)|]; inversion H; subst; auto.
Qed.

Lemma ends_with_cons {A} (x : A) (l s : list A) :
  (∃ pre, l = pre ++ s) → ∃ pre, x :: l = pre ++ s.
Proof. intros [pre ->]. now exists (x :: pre). Qed.

Ltac ends_with :=
  repeat first [ exists []; reflexivity | apply ends_with_cons ].

Ltac count_all :=
  unfold pass_counts;
  rewrite ?count_events_app, ?count_events_cons, ?count_events_nil;
  unfold pheasy_cmd_1, pheasy_cmd_2, pheasy_cmd_3, pheasy_cmd_11, pheasy_cmd_12, pheasy_cmd_13;
  try (unfold pheasy_cmd_4; destruct (_ <? _)%nat);
  try (unfold pheasy_cmd_14; destruct (_ <? _)%nat);
  cbn [is_hiphive_pass is_refit_pass is_band_structure is_solver_invocation];
  eval_bool_decide; reflexivity.

Lemma from_forces_born_shapes E i w doc w' :
  from_forces_born E i w = (inr doc, w') →
  let eig := default false (kw_band_structure_eigenvectors (kwargs i)) in
  ∃ factor cell ph2 ph3 ph borns eps bs im w7 p e1 e2 evs fc,
    get_factor E (code i) = inr factor ∧
    check_magnetic_moments (get_phonopy_structure E (structure i)) (primitive_matrix_of i)
    = inr cell ∧
    attach_born E i ph2 = inr (ph3, borns, eps) ∧
    construction ph
    = (cell, supercell_matrix i, primitive_matrix_of i, factor, symprec i, sym_reduce i) ∧
    force_constants ph = Some fc ∧
    band_path E i ph = inr p ∧
    bs = mkBS (band_frequencies E ph (qpoints p) (connections p) e1 e2) (kpath_dict p)
           (bool_decide (born i ≠ None)) ∧
    dos_and_document E i ph borns eps bs im w7 = (inr doc, w') ∧
    log w7 = log w ++ evs ∧
    (∃ pre, evs = pre ++ [EvRunBandStructure ph e1 e2; EvWrite "phonon_band_structure.yaml";
                          EvSavePlot (default "phonon_band_structure.pdf"
                                        (kw_filename_bs (kwargs i)))]) ∧
    ((pass_counts evs = (0, 0, 1, 4)%nat ∧ im = false ∧
      has_imaginary_freq bs (tol_imaginary_modes i) = false ∧ e1 = eig ∧ e2 = eig) ∨
     (pass_counts evs = (1, 0, 2, 4)%nat ∧ im = true ∧
      has_imaginary_freq bs (tol_imaginary_modes i) = false ∧ e1 = true ∧ e2 = false) ∨
     (pass_counts evs = (1, 1, 3, 8)%nat ∧
      im = has_imaginary_freq bs (tol_imaginary_modes i) ∧ e1 = true ∧ e2 = false)).
Proof.
  intros H. cbv zeta.
  apply from_forces_born_inr in H
    as (ph1 & cell & w1 & ph2 & n & w2 & ph3 & borns & eps & ph4 & prim & sc & w4 & p & bs5
        & im5 & w5 & ph6 & bs6 & im6 & imh & w6 & ph7 & bs7 & im7 & w7
        & H1 & H2 & H3 & H4 & H5 & H6 & H7 & H8).
  rewrite make_phonopy_run in H1.
  destruct (get_factor E (code i)) as [?|factor] eqn:Hf; [discriminate|].
  destruct (check_magnetic_moments _ _) as [?|cell'] eqn:Hm; [discriminate|].
  cbv zeta in H1. injection H1 as <- <- <-.
  rewrite accumulate_dataset_run in H2. cbv zeta in H2.
  destruct (accumulate _ _ _ _) as [?|[disps frcs]] eqn:Hacc; [discriminate|].
  injection H2 as <- <- <-.
  pose proof (attach_born_construction _ _ _ _ _ _ H3) as [Hc3 _].
  pose proof (primary_fit_inr _ _ _ _ _ _ _ _ _ H4)
    as (fc4 & s1 & s2 & s3 & s4 & fs4 & -> & _ & _ & _ & _ & _ & Hl4).
  cbn [log] in Hl4.
  rewrite initial_bands_run in H5. cbv zeta in H5.
  destruct (band_path E i _) as [?|p5] eqn:Hp; [discriminate|].
  rewrite run_band_structure_run in H5. cbv zeta in H5. cbn [snd] in H5.
  injection H5 as <- <- <- <-.
  rewrite band_path_set_force_constants, band_path_set_displacements in Hp.
  destruct (has_imaginary_freq _ _) eqn:Him5 in H6.
  - (* imaginary modes after the primary fit *)
    rewrite hiphive_pass_true in H6. cbn [fs] in H6.
    destruct (hiphive_cluster_space E prim sc) as [?|cs] in H6; [discriminate H6|].
    destruct (_ !! "FORCE_CONSTANTS") as [[]|] in H6; try discriminate H6.
    destruct (hiphive_force_constants E cs sc _) as [?|fcs] in H6; [discriminate H6|].
    cbv zeta in H6. cbn [log] in H6. injection H6 as <- <- <- <- <-.
    destruct (has_imaginary_freq _ _) eqn:Him6 in H7.
    + (* still imaginary: refit *)
      apply refit_pass_true_inr in H7
        as (fc7 & p7 & t1 & t2 & t3 & t4 & -> & Hp7 & -> & -> & Hl7).
      cbn [log] in Hl7.
      match type of H8 with
      | dos_and_document _ _ ?ph _ _ ?bs ?im _ = _ =>
          eexists factor, cell', _, ph3, ph, borns, eps, bs, im, w7, p7, true, false, _, _
      end.
      split; [reflexivity|]. split; [reflexivity|]. split; [exact H3|].
      split; [unfold construction in Hc3 |- *; cbn in Hc3 |- *; exact Hc3|].
      split; [reflexivity|]. split; [exact Hp7|]. split; [reflexivity|].
      split; [exact H8|].
      split; [rewrite Hl7, Hl4; rewrite <- ?app_assoc; cbn [app]; reflexivity|].
      split; [ends_with|].
      right. right. split; [count_all|auto].
    + rewrite refit_pass_false in H7. injection H7 as <- <- <- <-.
      match type of H8 with
      | dos_and_document _ _ ?ph _ _ ?bs ?im ?w6 = _ =>
          eexists factor, cell', _, ph3, ph, borns, eps, bs, im, w6, p5, true, false, _, _
      end.
      split; [reflexivity|]. split; [reflexivity|]. split; [exact H3|].
      split; [unfold construction in Hc3 |- *; cbn in Hc3 |- *; exact Hc3|].
      split; [reflexivity|]. split; [exact Hp|]. split; [reflexivity|].
      split; [exact H8|].
      split; [cbn [log]; rewrite Hl4; rewrite <- ?app_assoc; cbn [app]; reflexivity|].
      split; [ends_with|].
      right. left. split; [count_all|auto].
  - rewrite hiphive_pass_false in H6. injection H6 as <- <- <- <- <-.
    rewrite refit_pass_false in H7. injection H7 as <- <- <- <-.
    match type of H8 with
    | dos_and_document _ _ ?ph _ _ ?bs ?im ?w6 = _ =>
        eexists factor, cell', _, ph3, ph, borns, eps, bs, im, w6, p5, _, _, _, _
    end.
    split; [reflexivity|]. split; [reflexivity|]. split; [exact H3|].
    split; [unfold construction in Hc3 |- *; cbn in Hc3 |- *; exact Hc3|].
    split; [reflexivity|]. split; [exact Hp|]. split; [reflexivity|].
    split; [exact H8|].
    split; [cbn [log]; rewrite Hl4; rewrite <- ?app_assoc; cbn [app]; reflexivity|].
    split; [ends_with|].
    left. split; [count_all|auto].
Qed.

(** A code name other than "forcefields", "vasp" and "aims" makes
    [get_factor] raise the [ValueError] that names the code, and
    [from_forces_born] fails with that exception before doing anything
    else: the working directory and the log are untouched. *)
Theorem unknown_code_rejected (E : Env) (i : Inputs) (w : World) :
  code i ∉ ["forcefields"; "vasp"; "aims"] →
  get_factor E (code i) = inl (ValueError (factor_msg (code i))) ∧
  from_forces_born E i w = (inl (ValueError (factor_msg (code i))), w).
Proof.
  intros Hc.
  assert (Hf : get_factor E (code i) = inl (ValueError (factor_msg (code i)))).
  { unfold get_factor. rewrite !elem_of_cons in Hc.
    destruct (decide (code i ∈ ["forcefields"; "vasp"])) as [Hin|_].
    { rewrite !elem_of_cons in Hin. exfalso. apply Hc. tauto. }
    destruct (decide (code i = "aims")) as [Heq|_]; [|reflexivity].
    exfalso. apply Hc. tauto. }
  split; [exact Hf|].
  unfold from_forces_born. now rewrite bind_unfold, make_phonopy_run, Hf.
Qed.

(** Witness of [unknown_code_rejected]: the code name "qe". *)
Lemma unknown_code_rejected_witness :
  from_forces_born (Demo.env 0 1 1 1)
    (Examples.inputs_with "qe" Demo.demo_data None None Demo.demo_kwargs) Demo.w0
  = (inl (ValueError "Frequency conversion factor for code (qe) not defined."), Demo.w0).
Proof.
  apply (unknown_code_rejected (Demo.env 0 1 1 1)
           (Examples.inputs_with "qe" Demo.demo_data None None Demo.demo_kwargs) Demo.w0).
  cbn. rewrite !elem_of_cons, elem_of_nil. intros [?|[?|[?|[]]]]; discriminate.
Defined.

Lemma res_mapM_Forall2 {A B} (f : A → Res B) (l : list A) (ys : list B) :
  res_mapM f l = inr ys ↔ Forall2 (λ x y, f x = inr y) l ys.
Proof.
  revert ys. induction l as [|x l IH]; intros ys; simpl.
  - split; [intros [= <-]; constructor | intros H; now inversion H].
  - destruct (f x) as [e|y] eqn:Hx.
    + split; [discriminate|]. intros H. inversion H; subst. congruence.
    + destruct (res_mapM f l) as [e|ys'] eqn:Hl.
      * split; [discriminate|]. intros H. inversion H; subst.
        match goal with Ht : Forall2 _ l _ |- _ => apply IH in Ht; discriminate end.
      * split.
        -- intros [= <-]. constructor; [exact Hx | now apply IH].
        -- intros H. inversion H; subst.
           match goal with Ht : Forall2 _ l _ |- _ => apply IH in Ht end.
           congruence.
Qed.

(** [get_kpath] returns exactly when the scheme is one of the four known
    names and every label on the path of the library's k-path has
    coordinates: "seekpath" asks [KPathSeek], the three other names ask
    [HighSymmKpath]; the result is the dictionary of k-points and the path
    with each label replaced by its coordinates. *)
Theorem get_kpath_resolves (E : Env) (structure_ : Structure) (scheme : string)
    (symprec_ : float) (kpoints : gmap string qpoint) (path : list (list qpoint)) :
  get_kpath E structure_ scheme symprec_ = inr (kpoints, path) ↔
  ∃ kpath,
    (scheme ∈ ["setyawan_curtarolo"; "latimer_munro"; "hinuma"] ∧
     kpath = HighSymmKpath E structure_ scheme symprec_ ∨
     scheme = "seekpath" ∧ kpath = KPathSeek E structure_ symprec_) ∧
    kpoints = kp_kpoints kpath ∧
    Forall2 (Forall2 (λ label q, kp_kpoints kpath !! label = Some q)) (kp_path kpath) path.
Proof.
  assert (Hrow : ∀ (kp : KPath) row qs,
            res_mapM (λ label, match kp_kpoints kp !! label with
                               | Some q => inr q
                               | None => inl (KeyError label)
                               end) row = inr qs
            ↔ Forall2 (λ label q, kp_kpoints kp !! label = Some q) row qs).
  { intros kp row qs. rewrite res_mapM_Forall2. split; intros H.
    - eapply Forall2_impl; [exact H|]. cbv beta. intros l q Hq.
      destruct (_ !! l); [congruence | discriminate].
    - eapply Forall2_impl; [exact H|]. cbv beta. intros l q ->. reflexivity. }
  assert (Hall : ∀ (kp : KPath) (p : list (list qpoint)),
            res_mapM (res_mapM (λ label, match kp_kpoints kp !! label with
                                          | Some q => inr q
                                          | None => inl (KeyError label)
                                          end)) (kp_path kp) = inr p
            ↔ Forall2 (Forall2 (λ label q, kp_kpoints kp !! label = Some q)) (kp_path kp) p).
  { intros kp p. rewrite res_mapM_Forall2. split; intros H.
    - eapply Forall2_impl; [exact H|]. intros row qs. apply Hrow.
    - eapply Forall2_impl; [exact H|]. intros row qs. apply Hrow. }
  unfold get_kpath. rewrite res_bind_unfold.
  destruct (decide (scheme ∈ ["setyawan_curtarolo"; "latimer_munro"; "hinuma"])) as [Hin|Hout].
  - rewrite res_bind_unfold.
    destruct (res_mapM _ (kp_path (HighSymmKpath E structure_ scheme symprec_)))
      as [e|p] eqn:Hp.
    + split; [discriminate|]. intros (kp & [[_ ->]|[-> _]] & -> & HF).
      * apply Hall in HF. rewrite HF in Hp. discriminate.
      * exfalso. rewrite !elem_of_cons in Hin.
        destruct Hin as [?|[?|[?|Hin]]]; try discriminate. now apply elem_of_nil in Hin.
    + apply Hall in Hp. split.
      * intros [= <- <-]. eexists. split; [left; split; [exact Hin | reflexivity]|]. auto.
      * intros (kp & [[_ ->]|[-> _]] & -> & HF).
        -- apply Hall in HF, Hp. rewrite HF in Hp. injection Hp as ->. reflexivity.
        -- exfalso. rewrite !elem_of_cons in Hin.
           destruct Hin as [?|[?|[?|Hin]]]; try discriminate. now apply elem_of_nil in Hin.
  - destruct (decide (scheme = "seekpath")) as [->|Hne].
    + rewrite res_bind_unfold.
      destruct (res_mapM _ (kp_path (KPathSeek E structure_ symprec_))) as [e|p] eqn:Hp.
      * split; [discriminate|]. intros (kp & [[Hin _]|[_ ->]] & -> & HF); [contradiction|].
        apply Hall in HF. rewrite HF in Hp. discriminate.
      * apply Hall in Hp. split.
        -- intros [= <- <-]. eexists. split; [right; split; reflexivity|]. auto.
        -- intros (kp & [[Hin _]|[_ ->]] & -> & HF); [contradiction|].
           apply Hall in HF, Hp. rewrite HF in Hp. injection Hp as ->. reflexivity.
    + split; [discriminate|]. intros (kp & [[Hin _]|[-> _]] & _); contradiction.
Qed.

(** Witness of [get_kpath_resolves]: the path G-X of the example. *)
Lemma get_kpath_resolves_witness :
  ∃ kpoints,
    get_kpath (Demo.env 0 1 1 1) Demo.demo_structure "seekpath" 1%float
    = inr (kpoints, [[Demo.zero3; (0.5%float, 0%float, 0%float)]]).
Proof.
  eexists.
  apply (get_kpath_resolves (Demo.env 0 1 1 1) Demo.demo_structure "seekpath" 1%float).
  exists Demo.demo_kpath. split; [right; split; reflexivity|]. split; [reflexivity|].
  repeat constructor.
Defined.

Lemma res_mapM_first_error {A B} (f : A → Res B) (l : list A) :
  Exists (λ x, ∃ e, f x = inl e) l →
  ∃ pre x post e, l = pre ++ x :: post ∧ f x = inl e ∧ res_mapM f l = inl e ∧
                  Forall (λ y, ∃ b, f y = inr b) pre.
Proof.
  induction l as [|x l IH]; intros H; [inversion H|].
  destruct (f x) as [e|y] eqn:Hx.
  - exists [], x, l, e. simpl. rewrite Hx. auto.
  - inversion H as [? ? [e He]|? ? Hl]; subst; [congruence|].
    destruct (IH Hl) as (pre & x' & post & e & -> & Hx' & Hm & Hpre).
    exists (x :: pre), x', post, e. simpl. rewrite Hx, Hm.
    repeat split; auto. constructor; eauto.
Qed.

(** When the k-path of a known scheme goes through a label that has no
    coordinates, [get_kpath] raises a [KeyError] for a label of the path
    that has none (line 813). *)
Theorem get_kpath_undefined_label (E : Env) (structure_ : Structure) (scheme : string)
    (symprec_ : float) (kpath : KPath) :
  (scheme ∈ ["setyawan_curtarolo"; "latimer_munro"; "hinuma"] ∧
   kpath = HighSymmKpath E structure_ scheme symprec_ ∨
   scheme = "seekpath" ∧ kpath = KPathSeek E structure_ symprec_) →
  Exists (Exists (λ label, kp_kpoints kpath !! label = None)) (kp_path kpath) →
  ∃ label,
    get_kpath E structure_ scheme symprec_ = inl (KeyError label) ∧
    label ∈ concat (kp_path kpath) ∧ kp_kpoints kpath !! label = None.
Proof.
  intros Hsrc Hex.
  set (lk := λ label : string, match kp_kpoints kpath !! label with
                               | Some q => inr q
                               | None => inl (KeyError label)
                               end : Res qpoint).
  assert (Hm : ∃ label, res_mapM (res_mapM lk) (kp_path kpath) = inl (KeyError label) ∧
                        label ∈ concat (kp_path kpath) ∧ kp_kpoints kpath !! label = None).
  { destruct (res_mapM_first_error (res_mapM lk) (kp_path kpath))
      as (pre & row & post & e & Hl & Hrow & Hall & _).
    { eapply Exists_impl; [exact Hex|]. cbv beta. intros row Hrow.
      destruct (res_mapM_first_error lk row) as (? & label & ? & e & _ & _ & Hr & _).
      - eapply Exists_impl; [exact Hrow|]. cbv beta. intros label Hl.
        exists (KeyError label). unfold lk. now rewrite Hl.
      - eauto. }
    apply res_mapM_inl in Hrow as (label & Hin & Hlabel).
    unfold lk in Hlabel. destruct (kp_kpoints kpath !! label) eqn:Hk; [discriminate|].
    injection Hlabel as <-. exists label. split; [exact Hall|]. split; [|exact Hk].
    rewrite Hl, concat_app, concat_cons, !elem_of_app. auto. }
  destruct Hm as (label & Hm & Hin & Hk). exists label. split; [|auto].
  unfold get_kpath. rewrite res_bind_unfold.
  destruct Hsrc as [[Hs ->]|[-> ->]].
  - rewrite decide_True by exact Hs. rewrite res_bind_unfold. fold lk. now rewrite Hm.
  - rewrite decide_False.
    + rewrite decide_True by reflexivity. rewrite res_bind_unfold. fold lk. now rewrite Hm.
    + rewrite !elem_of_cons. intros [?|[?|[?|Hn]]]; try discriminate.
      now apply elem_of_nil in Hn.
Qed.

(** Witness of [get_kpath_undefined_label]: the path G-X where only G has
    coordinates. *)
Lemma get_kpath_undefined_label_witness :
  ∃ label,
    get_kpath (Examples.with_seekpath Examples.broken_kpath (Demo.env 0 1 1 1))
      Demo.demo_structure "seekpath" 1%float
    = inl (KeyError label) ∧
    label ∈ concat (kp_path Examples.broken_kpath) ∧
    kp_kpoints Examples.broken_kpath !! label = None.
Proof.
  apply (get_kpath_undefined_label
           (Examples.with_seekpath Examples.broken_kpath (Demo.env 0 1 1 1))
           Demo.demo_structure "seekpath" 1%float Examples.broken_kpath).
  - right. split; reflexivity.
  - constructor. right. left. reflexivity.
Defined.

Lemma get_factor_inr E c factor :
  get_factor E c = inr factor → c ∈ ["forcefields"; "vasp"; "aims"].
Proof.
  unfold get_factor.
  destruct (decide (c ∈ ["forcefields"; "vasp"])) as [Hin|_].
  { intros _. rewrite !elem_of_cons in *. tauto. }
  destruct (decide (c = "aims")) as [->|_]; [|discriminate].
  intros _. rewrite !elem_of_cons. auto.
Qed.

Lemma band_path_inr_known E i ph p :
  band_path E i ph = inr p →
  kpath_scheme i ∈ ["setyawan_curtarolo"; "latimer_munro"; "hinuma"; "seekpath"].
Proof.
  intros Hp.
  destruct (decide (kpath_scheme i ∈ ["setyawan_curtarolo"; "latimer_munro"; "hinuma";
                                      "seekpath"])) as [Hin|Hout]; [exact Hin|].
  rewrite (band_path_unknown E i ph Hout) in Hp. discriminate.
Qed.

(** A returned document repeats the structure, the code name, [mp_id]
    and the supercell matrix of the call, records [npoints_band] (default
    101), the path scheme and [kpoint_density_dos] (default 7000), and the
    job directories and uuids of the displacement runs; a document is only
    returned for a known code name and a known path scheme. *)
Theorem document_echoes_inputs (E : Env) (i : Inputs) (w w' : World) (doc : PhononBSDOSDoc) :
  from_forces_born E i w = (inr doc, w') →
  doc_structure doc = structure i ∧
  doc_code doc = code i ∧
  doc_mp_id doc = mp_id i ∧
  doc_supercell_matrix doc = supercell_matrix i ∧
  phonopy_settings doc
  = mkSettings (default 101 (kw_npoints_band (kwargs i))) (kpath_scheme i)
      (default 7000 (kw_kpoint_density_dos (kwargs i))) ∧
  displacements_job_dirs (jobdirs doc) = dirs (displacement_data i) ∧
  displacements_uuids (doc_uuids doc) = uuids (displacement_data i) ∧
  code i ∈ ["forcefields"; "vasp"; "aims"] ∧
  kpath_scheme i ∈ ["setyawan_curtarolo"; "latimer_munro"; "hinuma"; "seekpath"].
Proof.
  intros H.
  apply from_forces_born_shapes in H
    as (factor & cell & ph2 & ph3 & ph & borns & eps & bs & im & w7 & p & e1 & e2 & evs & fc
        & Hf & _ & _ & Hc & _ & Hp & _ & H8 & _).
  apply dos_and_document_fields in H8
    as (store & sd & bd & od & bu & ou & su & fu & en & th & w1
        & _ & _ & _ & _ & _ & _ & _ & _ & _ & _ & _
        & Hs & _ & _ & Hsm & _ & Hcode & Hmp & _ & Hj & Hu & Hset).
  unfold construction in Hc. injection Hc as _ Hsc _ _ _ _.
  rewrite Hj, Hu. cbn.
  repeat split; try assumption; try congruence.
  - eapply get_factor_inr, Hf.
  - eapply band_path_inr_known, Hp.
Qed.

(** Witness of [document_echoes_inputs]: the example run. *)
Lemma document_echoes_inputs_witness :
  ∃ doc w',
    from_forces_born (Demo.env 0 1 1 1) Demo.demo_inputs Demo.w0 = (inr doc, w') ∧
    doc_code doc = "forcefields" ∧ doc_mp_id doc = "mp-149" ∧
    doc_supercell_matrix doc = Demo.diag 1 ∧
    phonopy_settings doc = mkSettings 101 "seekpath" 7000 ∧
    displacements_uuids (doc_uuids doc) = ["uuid_0"; "uuid_1"].
Proof.
  assert (Hrun : ∃ doc w', from_forces_born (Demo.env 0 1 1 1) Demo.demo_inputs Demo.w0
                           = (inr doc, w')) by (vm_compute; eexists _, _; reflexivity).
  destruct Hrun as (doc & w' & Hrun). exists doc, w'. split; [exact Hrun|].
  destruct (document_echoes_inputs _ _ _ _ _ Hrun) as (_ & Hc & Hm & Hs & Hset & _ & Hu & _).
  repeat split; assumption.
Defined.

(** A document is only returned when the seven keys read with
    [kwargs[...]] are present (lines 745 and 762-774): the three job
    directories and the three uuids are stored as given, and the force
    constants are stored exactly when [store_force_constants] is true. *)
Theorem document_requires_kwargs (E : Env) (i : Inputs) (w w' : World)
    (doc : PhononBSDOSDoc) :
  from_forces_born E i w = (inr doc, w') →
  let k := kwargs i in
  kw_static_run_job_dir k = Some (static_run_job_dir (jobdirs doc)) ∧
  kw_born_run_job_dir k = Some (born_run_job_dir (jobdirs doc)) ∧
  kw_optimization_run_job_dir k = Some (optimization_run_job_dir (jobdirs doc)) ∧
  kw_born_run_uuid k = Some (born_run_uuid (doc_uuids doc)) ∧
  kw_optimization_run_uuid k = Some (optimization_run_uuid (doc_uuids doc)) ∧
  kw_static_run_uuid k = Some (static_run_uuid (doc_uuids doc)) ∧
  ∃ store, kw_store_force_constants k = Some store ∧
           (if store : bool then is_Some (doc_force_constants doc)
            else doc_force_constants doc = None).
Proof.
  intros H. cbv zeta.
  apply from_forces_born_shapes in H
    as (factor & cell & ph2 & ph3 & ph & borns & eps & bs & im & w7 & p & e1 & e2 & evs & fc
        & _ & _ & _ & _ & Hfc & _ & _ & H8 & _).
  apply dos_and_document_fields in H8
    as (store & sd & bd & od & bu & ou & su & fu & en & th & w1
        & Hk1 & Hk2 & Hk3 & Hk4 & Hk5 & Hk6 & Hk7 & _ & _ & _ & _
        & _ & _ & Hdfc & _ & _ & _ & _ & _ & Hj & Hu & _).
  rewrite Hj, Hu. cbn.
  repeat split; try assumption.
  exists store. split; [exact Hk1|]. rewrite Hdfc. destruct store; [|reflexivity].
  rewrite Hfc. eauto.
Qed.

(** Witness of [document_requires_kwargs]: keys given, force constants
    stored. *)
Lemma document_requires_kwargs_witness :
  ∃ doc w',
    from_forces_born (Demo.env 0 1 1 1)
      (Examples.inputs_with "forcefields" Demo.demo_data None None Examples.thermal_kwargs)
      Demo.w0 = (inr doc, w') ∧
    static_run_job_dir (jobdirs doc) = Some "static" ∧
    optimization_run_uuid (doc_uuids doc) = Some "uuid_relax" ∧
    is_Some (doc_force_constants doc).
Proof.
  assert (Hrun : ∃ doc w',
             from_forces_born (Demo.env 0 1 1 1)
               (Examples.inputs_with "forcefields" Demo.demo_data None None
                  Examples.thermal_kwargs) Demo.w0
             = (inr doc, w')) by (vm_compute; eexists _, _; reflexivity).
  destruct Hrun as (doc & w' & Hrun). exists doc, w'. split; [exact Hrun|].
  destruct (document_requires_kwargs _ _ _ _ _ Hrun)
    as (Hs & _ & _ & _ & Hou & _ & store & Hst & Hfc).
  cbn in Hs, Hou, Hst. injection Hs as <-. injection Hou as <-. injection Hst as <-.
  auto.
Defined.

Lemma dos_and_document_tail E i ph borns eps bs im w doc w' :
  dos_and_document E i ph borns eps bs im w = (inr doc, w') →
  ∃ evs, log w' = log w ++ evs ∧ none_of is_band_structure evs ∧
         pass_counts evs = (0, 0, 0, 0)%nat.
Proof.
  intros H.
  assert (He : emits (λ evs, none_of is_band_structure evs ∧ none_of is_hiphive_pass evs ∧
                             none_of is_refit_pass evs ∧ none_of is_solver_invocation evs)
                 (dos_and_document E i ph borns eps bs im)).
  { repeat apply emits_and; first [emits_all count_leaf | emits_none]. }
  destruct (He w) as (evs & Hl & Hb & Hh & Hr & Hs). rewrite H in Hl. cbn [snd] in Hl.
  exists evs. split; [exact Hl|]. split; [exact Hb|].
  apply none_of_at_most in Hb, Hh, Hr, Hs. unfold at_most in *. unfold pass_counts.
  repeat f_equal; lia.
Qed.

(** The band structure, the density of states and the force constants of
    a returned document belong to one phonon object: the one of the last
    band-structure computation of the run, on the path resolved for it. *)
Theorem document_from_last_band_structure (E : Env) (i : Inputs) (w w' : World)
    (doc : PhononBSDOSDoc) :
  from_forces_born E i w = (inr doc, w') →
  ∃ ph p e1 e2 pre post,
    log w' = log w ++ pre ++ EvRunBandStructure ph e1 e2 :: post ∧
    none_of is_band_structure post ∧
    band_path E i ph = inr p ∧
    phonon_bandstructure doc
    = mkBS (band_frequencies E ph (qpoints p) (connections p) e1 e2) (kpath_dict p)
        (bool_decide (born i ≠ None)) ∧
    phonon_dos doc
    = total_dos E ph
        (automatic_density E (get_pmg_structure E (primitive_of E ph))
           (default 7000 (kw_kpoint_density_dos (kwargs i)))) ∧
    is_Some (force_constants ph) ∧
    (kw_store_force_constants (kwargs i) = Some true →
     doc_force_constants doc = force_constants ph).
Proof.
  intros H.
  apply from_forces_born_shapes in H
    as (factor & cell & ph2 & ph3 & ph & borns & eps & bs & im & w7 & p & e1 & e2 & evs & fc
        & _ & _ & _ & _ & Hfc & Hp & Hbs & H8 & Hl7 & [pre ->] & _).
  destruct (dos_and_document_tail _ _ _ _ _ _ _ _ _ _ H8) as (tl & Hl & Hn & _).
  pose proof (dos_and_document_inr _ _ _ _ _ _ _ _ _ _ H8) as (_ & _ & Hdb & _ & Hdos & _).
  apply dos_and_document_fields in H8
    as (store & sd & bd & od & bu & ou & su & fu & en & th & w1
        & Hk1 & _ & _ & _ & _ & _ & _ & _ & _ & _ & _
        & _ & _ & Hdfc & _).
  exists ph, p, e1, e2, pre, (EvWrite "phonon_band_structure.yaml"
    :: EvSavePlot (default "phonon_band_structure.pdf" (kw_filename_bs (kwargs i))) :: tl).
  split; [rewrite Hl, Hl7, <- !app_assoc; reflexivity|].
  split; [repeat constructor; exact Hn|].
  split; [exact Hp|]. split; [congruence|]. split; [exact Hdos|].
  split; [rewrite Hfc; eauto|].
  intros Hst. rewrite Hst in Hk1. injection Hk1 as <-. exact Hdfc.
Qed.

(** Witness of [document_from_last_band_structure]: a run with a hiphive
    pass. *)
Lemma document_from_last_band_structure_witness :
  ∃ doc w' ph p e1 e2 pre post,
    from_forces_born (Demo.env 0 (-1) 1 1) Demo.demo_inputs Demo.w0 = (inr doc, w') ∧
    log w' = pre ++ EvRunBandStructure ph e1 e2 :: post ∧
    none_of is_band_structure post ∧
    phonon_bandstructure doc
    = mkBS (band_frequencies (Demo.env 0 (-1) 1 1) ph (qpoints p) (connections p) e1 e2)
        (kpath_dict p) false.
Proof.
  assert (Hrun : ∃ doc w', from_forces_born (Demo.env 0 (-1) 1 1) Demo.demo_inputs Demo.w0
                           = (inr doc, w')) by (vm_compute; eexists _, _; reflexivity).
  destruct Hrun as (doc & w' & Hrun).
  destruct (document_from_last_band_structure _ _ _ _ _ Hrun)
    as (ph & p & e1 & e2 & pre & post & Hl & Hn & _ & Hbs & _).
  exists doc, w', ph, p, e1, e2, pre, post. auto.
Defined.

(** In a returned document the total energy is the given energy divided
    by the number of formula units [num_atoms / reduced_num_atoms] (lines
    724-731), or absent when no energy is given; neither divisor is zero,
    since a zero divisor raises. *)
Theorem energy_per_formula_unit (E : Env) (i : Inputs) (w w' : World)
    (doc : PhononBSDOSDoc) :
  from_forces_born E i w = (inr doc, w') →
  let formula_units :=
    PrimFloat.div (num_atoms (structure i)) (reduced_num_atoms (structure i)) in
  PrimFloat.eqb (reduced_num_atoms (structure i)) 0%float = false ∧
  match total_dft_energy i with
  | Some e =>
      PrimFloat.eqb formula_units 0%float = false ∧
      doc_total_dft_energy doc = Some (PrimFloat.div e formula_units)
  | None => doc_total_dft_energy doc = None
  end.
Proof.
  intros H. cbv zeta.
  apply from_forces_born_shapes in H
    as (factor & cell & ph2 & ph3 & ph & borns & eps & bs & im & w7 & p & e1 & e2 & evs & fc
        & _ & _ & _ & _ & _ & _ & _ & H8 & _).
  apply dos_and_document_fields in H8
    as (store & sd & bd & od & bu & ou & su & fu & en & th & w1
        & _ & _ & _ & _ & _ & _ & _ & Hfu & Hen & _ & _ & _ & Hde & _).
  apply py_div_inr in Hfu as [Hz ->]. split; [exact Hz|].
  destruct (total_dft_energy i) as [e|].
  - destruct Hen as (e' & Hdiv & ->). apply py_div_inr in Hdiv as [Hz' ->]. auto.
  - now subst en.
Qed.

(** Witness of [energy_per_formula_unit]: energy -10 and one formula
    unit. *)
Lemma energy_per_formula_unit_witness :
  ∃ doc w',
    from_forces_born (Demo.env 0 1 1 1) Demo.demo_inputs Demo.w0 = (inr doc, w') ∧
    doc_total_dft_energy doc = Some (-10)%float.
Proof.
  assert (Hrun : ∃ doc w', from_forces_born (Demo.env 0 1 1 1) Demo.demo_inputs Demo.w0
                           = (inr doc, w')) by (vm_compute; eexists _, _; reflexivity).
  destruct Hrun as (doc & w' & Hrun). exists doc, w'. split; [exact Hrun|].
  destruct (energy_per_formula_unit _ _ _ _ _ Hrun) as (_ & _ & He). exact He.
Defined.

Lemma M_iter_write_file {A} (name : A → string) (a : artifact) (l : list A) (w : World) :
  fst (M_iter (λ x, write_file (name x) a) l w) = inr tt ∧
  log (snd (M_iter (λ x, write_file (name x) a) l w))
  = log w ++ map (λ x, EvWrite (name x)) l.
Proof.
  set (f := λ x, write_file (name x) a).
  revert w. induction l as [|x l IH]; intros w.
  - cbn. now rewrite app_nil_r.
  - cbn [M_iter]. rewrite bind_unfold. unfold f at 1 3, write_file. cbv beta iota.
    destruct (IH (mkWorld (<[name x := a]> (fs w)) (log w ++ [EvWrite (name x)]))) as [H1 H2].
    split; [exact H1|]. rewrite H2. cbn [log map]. now rewrite <- app_assoc.
Qed.

(** Thermal displacements (lines 692-722 and 754-761).  Without
    [create_thermal_displacements] a returned document carries none.  With
    it, the temperatures are [np.arange(tmin, tmax, tstep)] with defaults
    0, 500 and 100, the document carries the matrices computed on the mesh
    of the density of states, and the last things the run does are the mesh
    with eigenvectors, the thermal displacement matrices and one CIF file
    [tdispmat_<T>K.cif] per temperature, in increasing order. *)
Theorem thermal_displacement_document (E : Env) (i : Inputs) (w w' : World)
    (doc : PhononBSDOSDoc) :
  from_forces_born E i w = (inr doc, w') →
  let k := kwargs i in
  let t_min := default 0 (kw_tmin_thermal_displacements k) in
  let t_max := default 500 (kw_tmax_thermal_displacements k) in
  let t_step := default 100 (kw_tstep_thermal_displacements k) in
  let freq_min := default 0%float (kw_freq_min_thermal_displacements k) in
  if default false (kw_create_thermal_displacements k) then
    ∃ temps ph mesh pre,
      np_arange t_min t_max t_step = inr temps ∧
      thermal_displacement_data doc
      = Some (mkThermalDisplacementData freq_min
                (snd (thermal_displacement_matrices E ph mesh t_min t_max t_step freq_min))
                (fst (thermal_displacement_matrices E ph mesh t_min t_max t_step freq_min))
                temps) ∧
      log w' = log w ++ pre ++
        [EvRunMesh ph mesh true false; EvRunThermalDisplacements t_min t_max t_step freq_min]
        ++ map (λ temp, EvWrite ("tdispmat_" ++ pretty temp ++ "K.cif")) temps
  else thermal_displacement_data doc = None.
Proof.
  intros H. cbv zeta.
  apply from_forces_born_shapes in H
    as (factor & cell & ph2 & ph3 & ph & borns & eps & bs & im & w7 & p & e1 & e2 & evs & fc
        & _ & _ & _ & _ & _ & _ & _ & H8 & Hl7 & _).
  apply dos_and_document_fields in H8
    as (store & sd & bd & od & bu & ou & su & fu & en & th & w1
        & _ & _ & _ & _ & _ & _ & _ & _ & _ & Hth & Hl1 & _ & _ & _ & _ & _ & _ & _ & Hd & _).
  rewrite thermal_displacements_run in Hth.
  destruct (default false (kw_create_thermal_displacements (kwargs i)));
    [|injection Hth as <- _; exact Hd].
  cbv zeta in Hth.
  destruct (np_arange _ _ _) as [e|temps] eqn:Ha; [discriminate|].
  injection Hth as <- <-.
  eexists temps, ph, _,
    (evs ++ (if default false (kw_band_structure_eigenvectors (kwargs i))
             then [EvWrite "phonon_website.json"] else [])
         ++ [EvRunMesh ph _ false true; EvRunTotalDos; EvWrite "phonon_dos.yaml";
             EvSavePlot (default "phonon_dos.pdf" (kw_filename_dos (kwargs i)))]).
  split; [reflexivity|]. split; [exact Hd|].
  rewrite (proj2 (M_iter_write_file _ _ _ _)). cbn [log].
  rewrite Hl1, Hl7, <- !app_assoc. reflexivity.
Qed.

(** Witness of [thermal_displacement_document]: temperatures 0, 100 and
    200. *)
Lemma thermal_displacement_document_witness :
  ∃ doc w' data pre,
    from_forces_born (Demo.env 0 1 1 1)
      (Examples.inputs_with "forcefields" Demo.demo_data None None Examples.thermal_kwargs)
      Demo.w0 = (inr doc, w') ∧
    thermal_displacement_data doc = Some data ∧
    temperatures_thermal_displacements data = [0; 100; 200] ∧
    log w' = pre ++ [EvWrite "tdispmat_0K.cif"; EvWrite "tdispmat_100K.cif";
                     EvWrite "tdispmat_200K.cif"].
Proof.
  assert (Hrun : ∃ doc w',
             from_forces_born (Demo.env 0 1 1 1)
               (Examples.inputs_with "forcefields" Demo.demo_data None None
                  Examples.thermal_kwargs) Demo.w0
             = (inr doc, w')) by (vm_compute; eexists _, _; reflexivity).
  destruct Hrun as (doc & w' & Hrun).
  pose proof (thermal_displacement_document _ _ _ _ _ Hrun) as H. cbn in H.
  destruct H as (temps & ph & mesh & pre & Ht & Hd & Hl).
  injection Ht as <-.
  eexists doc, w', _,
    (pre ++ [EvRunMesh ph mesh true false; EvRunThermalDisplacements 0 300 100 0%float]).
  split; [exact Hrun|]. split; [exact Hd|]. split; [reflexivity|].
  rewrite Hl. cbn [log Demo.w0 app]. rewrite <- app_assoc. reflexivity.
Defined.

(** A run that returns a document has one of three shapes: no corrective
    pass, one band structure and four solver processes, the band structure
    stable and the flag false; or one hiphive pass, two band structures and
    four solver processes, the last band structure stable and the flag
    true; or one hiphive pass and one refit, three band structures and
    eight solver processes, the flag telling whether the last band
    structure is unstable. *)
Theorem successful_run_shapes (E : Env) (i : Inputs) (w w' : World) (doc : PhononBSDOSDoc) :
  from_forces_born E i w = (inr doc, w') →
  let unstable := has_imaginary_freq (phonon_bandstructure doc) (tol_imaginary_modes i) in
  ∃ evs,
    log w' = log w ++ evs ∧
    ((pass_counts evs = (0, 0, 1, 4)%nat ∧ unstable = false ∧
      has_imaginary_modes doc = false) ∨
     (pass_counts evs = (1, 0, 2, 4)%nat ∧ unstable = false ∧
      has_imaginary_modes doc = true) ∨
     (pass_counts evs = (1, 1, 3, 8)%nat ∧ has_imaginary_modes doc = unstable)).
Proof.
  intros H. cbv zeta.
  apply from_forces_born_shapes in H
    as (factor & cell & ph2 & ph3 & ph & borns & eps & bs & im & w7 & p & e1 & e2 & evs & fc
        & _ & _ & _ & _ & _ & _ & _ & H8 & Hl7 & _ & Hshape).
  destruct (dos_and_document_tail _ _ _ _ _ _ _ _ _ _ H8) as (tl & Hl & _ & Htl).
  apply dos_and_document_inr in H8 as (_ & _ & -> & -> & _).
  exists (evs ++ tl). split; [now rewrite Hl, Hl7, app_assoc|].
  assert (Hc : pass_counts (evs ++ tl) = pass_counts evs).
  { unfold pass_counts in *. rewrite !count_events_app.
    injection Htl as -> -> -> ->. now rewrite !Nat.add_0_r. }
  rewrite Hc.
  destruct Hshape as [(? & ? & ? & _)|[(? & ? & ? & _)|(? & ? & _)]]; auto.
Qed.

(** Witness of [successful_run_shapes]: the refit repairs the spectrum. *)
Lemma successful_run_shapes_witness :
  ∃ doc w',
    from_forces_born (Demo.env 0 (-1) (-1) 1) Demo.demo_inputs Demo.w0 = (inr doc, w') ∧
    pass_counts (log w') = (1, 1, 3, 8)%nat ∧ has_imaginary_modes doc = false.
Proof.
  assert (Hrun : ∃ doc w', from_forces_born (Demo.env 0 (-1) (-1) 1) Demo.demo_inputs Demo.w0
                           = (inr doc, w')) by (vm_compute; eexists _, _; reflexivity).
  destruct Hrun as (doc & w' & Hrun). exists doc, w'. split; [exact Hrun|].
  destruct (successful_run_shapes _ _ _ _ _ Hrun) as (evs & Hl & Hs).
  cbn [Demo.w0 log app] in Hl.
  assert (Hc : pass_counts (log w') = (1, 1, 3, 8)%nat).
  { revert Hrun. clear. vm_compute. intros [= <- <-]. reflexivity. }
  split; [exact Hc|]. rewrite Hl in Hc.
  destruct Hs as [(Hx & _)|[(Hx & _)|(_ & Hx)]];
    try (rewrite Hc in Hx; discriminate Hx).
  rewrite Hx. revert Hrun. clear. vm_compute. intros [= <- <-]. reflexivity.
Defined.

(** Born charges without a dielectric tensor, or the converse, are
    dropped (lines 421 and 443-445): no correction is attached, a returned
    document stores neither of the two, and yet the band structure is
    marked [has_nac] as soon as Born charges were passed (line 516). *)
Theorem born_needs_epsilon (E : Env) (i : Inputs) :
  born i = None ∨ epsilon_static i = None →
  (∀ phonon, attach_born E i phonon = inr (phonon, None, None)) ∧
  ∀ w w' doc,
    from_forces_born E i w = (inr doc, w') →
    doc_born doc = None ∧ doc_epsilon_static doc = None ∧
    bs_has_nac (phonon_bandstructure doc) = bool_decide (born i ≠ None).
Proof.
  intros Hb.
  assert (Ha : ∀ phonon, attach_born E i phonon = inr (phonon, None, None)).
  { intros phonon. unfold attach_born.
    destruct Hb as [-> | ->]; [reflexivity|]. now destruct (born i). }
  split; [exact Ha|].
  intros w w' doc H.
  apply from_forces_born_shapes in H
    as (factor & cell & ph2 & ph3 & ph & borns & eps & bs & im & w7 & p & e1 & e2 & evs & fc
        & _ & _ & H3 & _ & _ & _ & Hbs & H8 & _).
  rewrite Ha in H3. injection H3 as _ <- <-.
  apply dos_and_document_inr in H8 as (-> & -> & -> & _).
  subst bs. auto.
Qed.

(** Witness of [born_needs_epsilon]: Born charges alone, for vasp. *)
Lemma born_needs_epsilon_witness :
  ∃ doc w',
    from_forces_born (Demo.env 0 1 1 1)
      (Examples.inputs_with "vasp" Demo.demo_data None (Some [Demo.unit3; Demo.unit3])
         Demo.demo_kwargs) Demo.w0 = (inr doc, w') ∧
    doc_born doc = None ∧ bs_has_nac (phonon_bandstructure doc) = true.
Proof.
  assert (Hrun : ∃ doc w',
             from_forces_born (Demo.env 0 1 1 1)
               (Examples.inputs_with "vasp" Demo.demo_data None
                  (Some [Demo.unit3; Demo.unit3]) Demo.demo_kwargs) Demo.w0
             = (inr doc, w')) by (vm_compute; eexists _, _; reflexivity).
  destruct Hrun as (doc & w' & Hrun). exists doc, w'. split; [exact Hrun|].
  destruct (born_needs_epsilon (Demo.env 0 1 1 1)
              (Examples.inputs_with "vasp" Demo.demo_data None
                 (Some [Demo.unit3; Demo.unit3]) Demo.demo_kwargs)) as [_ H].
  - right. reflexivity.
  - destruct (H _ _ _ Hrun) as (Hb & _ & Hn). split; [exact Hb|]. rewrite Hn. reflexivity.
Defined.

Lemma np_array_inr samples arr : np_array samples = inr arr → arr = samples.
Proof.
  unfold np_array. destruct samples; [now intros [= <-]|].
  destruct (forallb _ _); [now intros [= <-] | discriminate].
Qed.

Lemma res_mapM_length {A B} (f : A → Res B) (l : list A) (ys : list B) :
  res_mapM f l = inr ys → length ys = length l.
Proof. rewrite res_mapM_Forall2. intros H. symmetry. eapply Forall2_length, H. Qed.

Lemma last_sample_inr samples s : last_sample samples = inr s → samples ≠ [].
Proof. unfold last_sample. destruct samples; [discriminate | discriminate]. Qed.

(** Sizes of the working dataset (lines 332-358): with an empty nominal
    scheme the incoming samples are used as they are; otherwise the working
    displacements and forces have exactly one sample less than the
    incoming ones. *)
Theorem accumulate_sizes (E : Env) (f_disp_n1 : nat) (ref_positions : matrix)
    (d : DisplacementData) (disps frcs : list matrix) :
  accumulate E f_disp_n1 ref_positions d = inr (disps, frcs) →
  if (f_disp_n1 <? 1)%nat
  then disps = map cart_coords (displaced_structures d) ∧ frcs = forces d
  else S (length disps) = length (displaced_structures d) ∧
       S (length frcs) = length (forces d).
Proof.
  unfold accumulate. destruct (f_disp_n1 <? 1)%nat.
  - rewrite res_bind_unfold. destruct (np_array (forces d)) as [?|a] eqn:Ha; [discriminate|].
    rewrite res_bind_unfold.
    destruct (np_array (map _ _)) as [?|b] eqn:Hb; [discriminate|].
    intros [= <- <-]. apply np_array_inr in Ha, Hb. auto.
  - rewrite res_bind_unfold. destruct (np_array (forces d)) as [?|a] eqn:Ha; [discriminate|].
    rewrite res_bind_unfold. destruct (last_sample a) as [?|base] eqn:Hl; [discriminate|].
    cbv zeta. rewrite res_bind_unfold.
    destruct (np_array (map _ _)) as [?|b] eqn:Hb; [discriminate|].
    rewrite res_bind_unfold.
    apply np_array_inr in Ha, Hb. subst a b.
    destruct (map cart_coords (displaced_structures d)) as [|s0 rest] eqn:Hds; [discriminate|].
    destruct (res_mapM _ (s0 :: rest)) as [?|diffs] eqn:Hm; [discriminate|].
    intros [= <- <-]. apply res_mapM_length in Hm. apply last_sample_inr in Hl.
    rewrite !length_removelast, !length_map.
    assert (Hlen : length (displaced_structures d) = length (s0 :: rest)).
    { rewrite <- Hds. now rewrite length_map. }
    unfold matrix in *. rewrite Hm, Hlen. cbn [length].
    destruct (forces d); [contradiction|]. cbn [length]. auto.
Qed.

(** Witness of [accumulate_sizes]: two incoming samples, one kept. *)
Lemma accumulate_sizes_witness :
  ∃ disps frcs,
    accumulate (Demo.env 0 1 1 1) 1 Demo.cell_positions Demo.demo_data = inr (disps, frcs) ∧
    length disps = 1%nat ∧ length frcs = 1%nat.
Proof.
  assert (Hrun : ∃ disps frcs,
             accumulate (Demo.env 0 1 1 1) 1 Demo.cell_positions Demo.demo_data
             = inr (disps, frcs)) by (vm_compute; eexists _, _; reflexivity).
  destruct Hrun as (disps & frcs & Hrun). exists disps, frcs. split; [exact Hrun|].
  pose proof (accumulate_sizes _ _ _ _ _ _ Hrun) as H. cbn in H.
  destruct H as [H1 H2]. split; congruence.
Defined.




(** A dataset without forces (lines 324-366): when the nominal scheme
    has a displacement the dataset stage fails with an [IndexError] after
    POSCAR and SPOSCAR have been written; when the nominal scheme is empty
    and there are no displaced structures either, it succeeds with no
    sample and writes two empty pickles. *)
Theorem empty_dataset (E : Env) (i : Inputs) (phonon : Phonopy) (cell : PhonopyAtoms)
    (w : World) :
  forces (displacement_data i) = [] →
  let nominal := generate_displacements E phonon (displacement i) in
  let supercell := phonopy_supercell E (unitcell phonon) (ph_supercell_matrix phonon) in
  let files := <["SPOSCAR" := AStructure supercell]> (<["POSCAR" := AStructure cell]> (fs w)) in
  (nominal ≠ [] →
   accumulate_dataset E i phonon cell w
   = (inl (IndexError index_msg),
      mkWorld files (log w ++ [EvWrite "POSCAR"; EvWrite "SPOSCAR"]))) ∧
  (nominal = [] → displaced_structures (displacement_data i) = [] →
   accumulate_dataset E i phonon cell w
   = (inr (set_displacements [] phonon, 0%nat),
      mkWorld (<["force_matrix.pkl" := APickle []]> (<["disp_matrix.pkl" := APickle []]> files))
        (log w ++ [EvWrite "POSCAR"; EvWrite "SPOSCAR"; EvWrite "disp_matrix.pkl";
                   EvWrite "force_matrix.pkl"]))).
Proof.
  intros Hf. cbv zeta. split.
  - intros Hn. rewrite accumulate_dataset_run. cbv zeta.
    unfold accumulate. cbn [displacements set_displacements].
    destruct (generate_displacements E phonon (displacement i)) as [|d ds]; [contradiction|].
    cbn [length Nat.ltb Nat.leb]. now rewrite Hf.
  - intros Hn Hd. rewrite accumulate_dataset_run. cbv zeta.
    unfold accumulate. cbn [displacements set_displacements].
    rewrite Hn, Hf, Hd. reflexivity.
Qed.

(** Witness of [empty_dataset]: no sample, one nominal displacement. *)
Lemma empty_dataset_witness :
  let E := Demo.env 0 1 1 1 in
  let i := Examples.inputs_with "forcefields" Examples.empty_data None None Demo.demo_kwargs in
  let phonon := mkPhonopy (mkAtoms Demo.cell_positions None) (Demo.diag 1) PrimAuto
                  (VaspToTHz E) f_1e_6 true [] None None in
  fst (accumulate_dataset E i phonon (mkAtoms Demo.cell_positions None) Demo.w0)
  = inl (IndexError index_msg).
Proof.
  cbv zeta.
  destruct (empty_dataset (Demo.env 0 1 1 1)
              (Examples.inputs_with "forcefields" Examples.empty_data None None
                 Demo.demo_kwargs)
              (mkPhonopy (mkAtoms Demo.cell_positions None) (Demo.diag 1) PrimAuto
                 (VaspToTHz (Demo.env 0 1 1 1)) f_1e_6 true [] None None)
              (mkAtoms Demo.cell_positions None) Demo.w0 eq_refl) as [H _].
  rewrite H; [reflexivity|]. vm_compute. discriminate.
Defined.

(** An exception of a hiphive routine, raised once imaginary modes have
    been detected, ends the run with that exception; the pass has written
    nothing, so the working directory and the log are those left by the
    first band structure. *)
Theorem hiphive_exception_aborts (E : Env) (i : Inputs) (w w5 : World) (phonon : Phonopy)
    (prim supercell : PhonopyAtoms) (num_har : nat) (borns : option (list Matrix3D))
    (epsilon : option Matrix3D) (p : BandPath) (bs_symm_line : PhononBandStructureSymmLine)
    (e : exn) :
  detection E i w
  = (inr (phonon, prim, supercell, num_har, borns, epsilon, p, bs_symm_line, true), w5) →
  hiphive_cluster_space E prim supercell = inl e ∨
  (∃ cs fc2_array,
     hiphive_cluster_space E prim supercell = inr cs ∧
     fs w5 !! "FORCE_CONSTANTS" = Some (AForceConstants fc2_array) ∧
     hiphive_force_constants E cs supercell fc2_array = inl e) →
  from_forces_born E i w = (inl e, w5).
Proof.
  intros Hdet Hraise. rewrite from_forces_born_detection, Hdet. cbv beta iota.
  rewrite bind_unfold, hiphive_pass_true.
  destruct Hraise as [-> | (cs & fc & -> & -> & ->)]; reflexivity.
Qed.

(** Witness of [hiphive_exception_aborts]: the constructor of the cluster
    space raises. *)
Lemma hiphive_exception_aborts_witness :
  let E := Demo.with_cluster_space_check (λ _ _, inl (ValueError "cutoff"))
             (Demo.env 0 (-1) 1 1) in
  fst (from_forces_born E Demo.demo_inputs Demo.w0) = inl (ValueError "cutoff") ∧
  fs (snd (from_forces_born E Demo.demo_inputs Demo.w0)) !! "FORCE_CONSTANTS_new" = None.
Proof.
  cbv zeta.
  set (E := Demo.with_cluster_space_check (λ _ _, inl (ValueError "cutoff"))
              (Demo.env 0 (-1) 1 1)).
  destruct (detection E Demo.demo_inputs Demo.w0)
    as [[e|[[[[[[[[phonon prim] supercell] num_har] borns] epsilon] p] bs] im]] w5] eqn:Hdet;
    [vm_compute in Hdet; discriminate Hdet|].
  assert (Him : im = true).
  { revert Hdet. clear. vm_compute. now intros [= _ _ _ _ _ _ _ _ <- _]. }
  subst im.
  rewrite (hiphive_exception_aborts E Demo.demo_inputs Demo.w0 w5 phonon prim supercell
             num_har borns epsilon p bs (ValueError "cutoff") Hdet (or_introl eq_refl)).
  split; [reflexivity|]. cbn [snd].
  revert Hdet. clear. vm_compute. intros [= _ _ _ _ _ _ _ _ <-]. reflexivity.
Defined.
